(** * IoTaWatt PostgREST uploader: a shallow embedding and its properties

    The development follows [Firmware/IotaWatt/uploaders/postgrest_uploader.h]
    (declaration and implementation of [class postgrest_uploader]):

    - text and C-library helpers ([sscanf], [printf]) that the code calls;
    - the timestamp codec ([parseTimestamp], and the [datef] rendering it is
      paired with);
    - the uploader's state, its environment, and the four state handlers
      [handle_query_s], [handle_checkQuery_s], [handle_write_s],
      [handle_checkWrite_s];
    - the configuration ([configCB], its comparator, [setRequestHeaders],
      [scriptCompare]);
    - the properties of the resume point, the row assembler and the
      submit / settle cycle, and of the configuration.

    Unsigned 32-bit quantities ([uint32_t]) are integers in [Z] with the
    wrap-around written out by [wrap32]; [int] quantities are integers in
    [Z], as long as they stay in range; [double] values are IEEE-754
    binary64 values of [spec_float].  Calls of [trace] and [log] leave no
    mark on the state and are left out. *)

From Stdlib Require Import ZArith List String Ascii Bool Lia.
From Stdlib Require Import Floats.SpecFloat.
From Stdlib Require Import Sorting.Permutation Sorting.Sorted.
Import ListNotations.

Local Open Scope Z_scope.

(* ===================================================================== *)
(** ** Machine integers *)
(* ===================================================================== *)

Definition wrap32 (x : Z) : Z := x mod 2 ^ 32.

Definition MAX (a b : Z) : Z := if a >? b then a else b.

(* ===================================================================== *)
(** ** Characters and text *)
(* ===================================================================== *)

Module Text.

Definition code (c : ascii) : Z := Z.of_N (N_of_ascii c).

(** [isspace] of the C locale: space, and HT LF VT FF CR. *)
Definition isspace (c : ascii) : bool :=
  (code c =? 32) || ((9 <=? code c) && (code c <=? 13)).

Definition isdigit (c : ascii) : bool :=
  (48 <=? code c) && (code c <=? 57).

Definition digit_value (c : ascii) : Z := code c - 48.

Definition digit_char (k : Z) : ascii := ascii_of_N (Z.to_N (48 + k)).

Definition str (c : ascii) : string := String c EmptyString.

(** Two and four decimal digits, zero padded. *)
Definition pad2 (n : Z) : string :=
  String (digit_char (n / 10 mod 10)) (str (digit_char (n mod 10))).

Definition pad4 (n : Z) : string :=
  String (digit_char (n / 1000 mod 10))
    (String (digit_char (n / 100 mod 10)) (pad2 n)).

(** Decimal digits of a non-negative number, most significant first. *)
Fixpoint digits_go (fuel : nat) (n : Z) (acc : string) : string :=
  match fuel with
  | O => acc
  | S fuel' =>
      let acc' := String (digit_char (n mod 10)) acc in
      if n / 10 =? 0 then acc' else digits_go fuel' (n / 10) acc'
  end.

Definition digits (n : Z) : string :=
  digits_go (S (Z.to_nat (Z.log2 n))) n EmptyString.

(** What [%d] prints. *)
Definition decimal (n : Z) : string :=
  if n <? 0 then String "-" (digits (- n)) else digits n.

Definition available (s : string) : Z := Z.of_nat (String.length s).

(** What [%s] prints of the bytes of a text: those before the first
    zero byte. *)
Fixpoint c_str (s : string) : string :=
  match s with
  | EmptyString => EmptyString
  | String c s' => if code c =? 0 then EmptyString else String c (c_str s')
  end.

(** [snprintf] into a buffer of [size] bytes keeps [size - 1] characters. *)
Definition truncate (size : Z) (s : string) : string :=
  String.substring 0 (Z.to_nat (size - 1)) s.

Fixpoint starts_with (p s : string) : bool :=
  match p, s with
  | EmptyString, _ => true
  | String a p', String b s' => Ascii.eqb a b && starts_with p' s'
  | String _ _, EmptyString => false
  end.

Fixpoint drop (n : nat) (s : string) : string :=
  match n, s with
  | S n', String _ s' => drop n' s'
  | _, _ => s
  end.

(** Arduino [String::indexOf(p) >= 0]. *)
Fixpoint contains (p s : string) : bool :=
  starts_with p s ||
  match s with
  | EmptyString => false
  | String _ s' => contains p s'
  end.

(** Arduino [String::replace(find, with)]: every occurrence, left to
    right, without rescanning the replacement.  An empty [find] leaves
    the text as it is. *)
Fixpoint replace_go (fuel : nat) (find rep s : string) : string :=
  match fuel with
  | O => s
  | S fuel' =>
      match s with
      | EmptyString => EmptyString
      | String c s' =>
          if starts_with find s
          then rep ++ replace_go fuel' find rep (drop (String.length find) s)
          else String c (replace_go fuel' find rep s')
      end
  end.

Definition replace (find rep s : string) : string :=
  match find with
  | EmptyString => s
  | _ => replace_go (String.length s) find rep s
  end.

End Text.

(* ===================================================================== *)
(** ** The C library's [sscanf], for the directives the code uses

    A format is a sequence of directives: [%d], [%c], white space and
    ordinary characters.  The result is the number of items assigned
    ([EOF], here [-1], when the input ends before the first conversion)
    together with the values assigned, in order. *)
(* ===================================================================== *)

Module Scanf.
Import Text.

Inductive directive : Type :=
| Dint                 (* %d *)
| Dchar                (* %c *)
| Dspace               (* white space *)
| Dlit (c : ascii).    (* an ordinary character *)

Inductive item : Type :=
| Int (z : Z)
| Chr (c : ascii).

Inductive conversion : Type :=
| Converted (z : Z) (rest : string)
| MatchingFailure
| InputFailure.

Definition EOF : Z := -1.

Fixpoint parse_format (fmt : string) : list directive :=
  match fmt with
  | EmptyString => []
  | String "%" (String "d" fmt') => Dint :: parse_format fmt'
  | String "%" (String "c" fmt') => Dchar :: parse_format fmt'
  | String c fmt' =>
      (if isspace c then Dspace else Dlit c) :: parse_format fmt'
  end.

Fixpoint skip_ws (s : string) : string :=
  match s with
  | String c s' => if isspace c then skip_ws s' else s
  | EmptyString => s
  end.

Fixpoint scan_digits (acc : Z) (s : string) : Z * string :=
  match s with
  | String c s' =>
      if isdigit c then scan_digits (10 * acc + digit_value c) s'
      else (acc, s)
  | EmptyString => (acc, s)
  end.

(** The subject sequence of [%d] with white space already skipped: an
    optional sign and a non-empty scan of decimal digits. *)
Definition scan_number (s : string) : conversion :=
  match s with
  | EmptyString => InputFailure
  | String c s' =>
      let neg := Ascii.eqb c "-" in
      let body := if neg || Ascii.eqb c "+" then s' else s in
      match body with
      | String d _ =>
          if isdigit d
          then let (n, rest) := scan_digits 0 body in
               Converted (if neg then - n else n) rest
          else MatchingFailure
      | EmptyString => MatchingFailure
      end
  end.

Definition conv_d (s : string) : conversion := scan_number (skip_ws s).

Definition finished (input_failure : bool) (got : list item)
  : Z * list item :=
  match got with
  | [] => if input_failure then (EOF, got) else (0, got)
  | _ => (Z.of_nat (List.length got), got)
  end.

Fixpoint scan (fmt : list directive) (s : string) (got : list item)
  : Z * list item :=
  match fmt with
  | [] => finished false got
  | Dspace :: fmt' => scan fmt' (skip_ws s) got
  | Dlit c :: fmt' =>
      match s with
      | EmptyString => finished true got
      | String c' s' =>
          if Ascii.eqb c c' then scan fmt' s' got else finished false got
      end
  | Dchar :: fmt' =>
      match s with
      | EmptyString => finished true got
      | String c s' => scan fmt' s' (got ++ [Chr c])
      end
  | Dint :: fmt' =>
      match conv_d s with
      | Converted z rest => scan fmt' rest (got ++ [Int z])
      | MatchingFailure => finished false got
      | InputFailure => finished true got
      end
  end.

Definition sscanf (s fmt : string) : Z * list item :=
  scan (parse_format fmt) s [].

(** The variable an assignment went to, by position. *)
Definition int_arg (i : nat) (got : list item) : Z :=
  match nth_error got i with
  | Some (Int z) => z
  | _ => 0
  end.

Definition chr_arg (i : nat) (got : list item) (dflt : ascii) : ascii :=
  match nth_error got i with
  | Some (Chr c) => c
  | _ => dflt
  end.

End Scanf.

(* ===================================================================== *)
(** ** Calendar conversions of the host firmware *)
(* ===================================================================== *)

Module Calendar.
Import Text.

Definition is_leap (y : Z) : bool :=
  (y mod 4 =? 0) && (negb (y mod 100 =? 0) || (y mod 400 =? 0)).

Definition year_length (y : Z) : Z := if is_leap y then 366 else 365.

Definition month_days (leap : bool) (m : Z) : Z :=
  if m =? 2 then (if leap then 29 else 28)
  else if (m =? 4) || (m =? 6) || (m =? 9) || (m =? 11) then 30
  else 31.

Definition month_length (y m : Z) : Z := month_days (is_leap y) m.

(** Leap years up to and including year [n]. *)
Definition leaps_through (n : Z) : Z := n / 4 - n / 100 + n / 400.

Definition days_before_year (y : Z) : Z :=
  365 * (y - 1970) + (leaps_through (y - 1) - leaps_through 1969).

(** The days of the months [1 .. k] that come before month [m]. *)
Fixpoint days_before_month_go (k : nat) (leap : bool) (m : Z) : Z :=
  match k with
  | O => 0
  | S k' =>
      if Z.of_nat k <? m
      then month_days leap (Z.of_nat k) + days_before_month_go k' leap m
      else days_before_month_go k' leap m
  end.

Definition days_before_month (y m : Z) : Z :=
  days_before_month_go 12 (is_leap y) m.

Definition days_from_civil (y m d : Z) : Z :=
  days_before_year y + days_before_month y m + (d - 1).

(** Modelled from the spec: [Unixtime] of the host firmware's time
    services, which postgrest_uploader.h calls and does not define.
    The spec has it convert naive calendar fields to the absolute UTC
    timestamp: seconds since 1970-01-01T00:00:00Z in the Gregorian
    calendar, as an unsigned 32-bit value. *)
Definition Unixtime (year month day hour minute second : Z) : Z :=
  wrap32 (((days_from_civil year month day * 24 + hour) * 60 + minute) * 60
          + second).

Fixpoint year_of_days (fuel : nat) (y d : Z) : Z * Z :=
  match fuel with
  | O => (y, d)
  | S fuel' =>
      if d <? year_length y then (y, d)
      else year_of_days fuel' (y + 1) (d - year_length y)
  end.

Fixpoint month_of_days (fuel : nat) (y m d : Z) : Z * Z :=
  match fuel with
  | O => (m, d)
  | S fuel' =>
      if d <? month_length y m then (m, d)
      else month_of_days fuel' y (m + 1) (d - month_length y m)
  end.

Record civil : Type := mkCivil {
  c_year : Z; c_month : Z; c_day : Z;
  c_hour : Z; c_minute : Z; c_second : Z
}.

Definition civil_from_days (days : Z) : Z * Z * Z :=
  let (y, d) := year_of_days 137 1970 days in
  let (m, d') := month_of_days 11 y 1 d in
  (y, m, d' + 1).

Definition civil_of (t : Z) : civil :=
  let '(y, m, d) := civil_from_days (t / 86400) in
  let r := t mod 86400 in
  mkCivil y m d (r / 3600) (r mod 3600 / 60) (r mod 60).

Fixpoint datef_go (c : civil) (fmt : string) : string :=
  match fmt with
  | String "Y" (String "Y" (String "Y" (String "Y" fmt'))) =>
      pad4 (c_year c) ++ datef_go c fmt'
  | String "M" (String "M" fmt') => pad2 (c_month c) ++ datef_go c fmt'
  | String "D" (String "D" fmt') => pad2 (c_day c) ++ datef_go c fmt'
  | String "h" (String "h" fmt') => pad2 (c_hour c) ++ datef_go c fmt'
  | String "m" (String "m" fmt') => pad2 (c_minute c) ++ datef_go c fmt'
  | String "s" (String "s" fmt') => pad2 (c_second c) ++ datef_go c fmt'
  | String ch fmt' => String ch (datef_go c fmt')
  | EmptyString => EmptyString
  end%string.

(** Modelled from the spec: [datef] of the host firmware's time
    services, which postgrest_uploader.h calls and does not define.
    The spec has [format(timestamp)] render the canonical ISO UTC form:
    the fields of the UTC calendar date and time of [t], zero padded,
    in place of the tokens [YYYY MM DD hh mm ss] of the format, every
    other character copied. *)
Definition datef (t : Z) (fmt : string) : string :=
  datef_go (civil_of t) fmt.

End Calendar.

(* ===================================================================== *)
(** ** Timestamp codec: [postgrest_uploader::parseTimestamp] *)
(* ===================================================================== *)

Module Codec.
Import Text Scanf Calendar.

Definition fmt_tz_hm : string := "%d-%d-%d %d:%d:%d%c%d:%d".
Definition fmt_tz_h : string := "%d-%d-%d %d:%d:%d%c%d".
Definition fmt_iso_z : string := "%d-%d-%dT%d:%d:%dZ".
Definition fmt_iso : string := "%d-%d-%dT%d:%d:%d".
Definition fmt_simple : string := "%d-%d-%d %d:%d:%d".

(** The six calendar variables after a scan, handed to [Unixtime]. *)
Definition Unixtime_of (got : list item) : Z :=
  Unixtime (int_arg 0 got) (int_arg 1 got) (int_arg 2 got)
           (int_arg 3 got) (int_arg 4 got) (int_arg 5 got).

Definition parseTimestamp (timestampStr : string) : Z :=
  let r1 := sscanf timestampStr fmt_tz_hm in
  if fst r1 =? 9 then
    let tzSign := chr_arg 6 (snd r1) "+"%char in
    let tzHours := int_arg 7 (snd r1) in
    let tzMinutes := int_arg 8 (snd r1) in
    let tzOffsetSeconds := tzHours * 3600 + tzMinutes * 60 in
    let tzOffsetSeconds :=
      if Ascii.eqb tzSign "-" then - tzOffsetSeconds else tzOffsetSeconds in
    let utcTime := Unixtime_of (snd r1) in
    wrap32 (utcTime - tzOffsetSeconds)
  else
  let r2 := sscanf timestampStr fmt_tz_h in
  if fst r2 =? 8 then
    let tzSign := chr_arg 6 (snd r2) "+"%char in
    let tzHours := int_arg 7 (snd r2) in
    let tzOffsetSeconds := tzHours * 3600 in
    let tzOffsetSeconds :=
      if Ascii.eqb tzSign "-" then - tzOffsetSeconds else tzOffsetSeconds in
    let utcTime := Unixtime_of (snd r2) in
    wrap32 (utcTime - tzOffsetSeconds)
  else
  let r3 := sscanf timestampStr fmt_iso_z in
  if fst r3 =? 6 then Unixtime_of (snd r3)
  else
  let r4 := sscanf timestampStr fmt_iso in
  if fst r4 =? 6 then Unixtime_of (snd r4)
  else
  let r5 := sscanf timestampStr fmt_simple in
  if fst r5 =? 6 then Unixtime_of (snd r5)
  else 0.

(** Which of the five scans returned, 1 to 5, or [None]. *)
Definition matched_pattern (timestampStr : string) : option Z :=
  if fst (sscanf timestampStr fmt_tz_hm) =? 9 then Some 1
  else if fst (sscanf timestampStr fmt_tz_h) =? 8 then Some 2
  else if fst (sscanf timestampStr fmt_iso_z) =? 6 then Some 3
  else if fst (sscanf timestampStr fmt_iso) =? 6 then Some 4
  else if fst (sscanf timestampStr fmt_simple) =? 6 then Some 5
  else None.

End Codec.

(* ===================================================================== *)
(** ** The C library's [printf] conversions the code uses *)
(* ===================================================================== *)

Module Printf.
Import Text.
Local Open Scope string_scope.
Local Open Scope Z_scope.

Fixpoint pad_digits (width : nat) (n : Z) (acc : string) : string :=
  match width with
  | O => acc
  | S width' => pad_digits width' (n / 10) (String (digit_char (n mod 10)) acc)
  end.

(** [num / den] rounded to the nearest integer, ties to even. *)
Definition round_half_even (num den : Z) : Z :=
  let q := num / den in
  let r := num mod den in
  if 2 * r <? den then q
  else if den <? 2 * r then q + 1
  else if Z.even q then q else q + 1.

(** The magnitude [m * 2^e] in units of [10^-p]. *)
Definition scaled (m : positive) (e : Z) (p : Z) : Z :=
  if 0 <=? e then Z.pos m * 2 ^ e * 10 ^ p
  else round_half_even (Z.pos m * 10 ^ p) (2 ^ (- e)).

Definition fixed (n : Z) (p : Z) : string :=
  digits (n / 10 ^ p) ++
  (if p =? 0 then "" else "." ++ pad_digits (Z.to_nat p) (n mod 10 ^ p) "").

(** [%.*f]: fixed notation with [prec] decimals, correctly rounded; a
    negative precision counts as omitted (six decimals). *)
Definition printf_f (prec : Z) (v : spec_float) : string :=
  let p := if prec <? 0 then 6 else prec in
  match v with
  | S754_nan => "nan"
  | S754_infinity s => if s then "-inf" else "inf"
  | S754_zero s => (if s then "-" else "") ++ fixed 0 p
  | S754_finite s m e => (if s then "-" else "") ++ fixed (scaled m e p) p
  end.

End Printf.

(* ===================================================================== *)
(** ** The uploader: data *)
(* ===================================================================== *)

(** Constants and libraries of the host firmware that the uploader is
    compiled against (IotaWatt.h, ArduinoJson). *)
Class Host : Type := {
  (** number of members of [enum units] *)
  unitsCount : nat;
  (** column names of the units, [unitstr[]] *)
  unitstr : nat -> string;
  (** size at which a batch stops growing *)
  uploaderBufferLimit : Z;
  (** [DynamicJsonBuffer::parseArray]: [None] when [success()] is false,
      otherwise the objects of the array, each a list of key and value *)
  parseArray : string -> option (list (list (string * string)))
}.

Definition double : Type := spec_float.

(** Subtraction and comparison of binary64. *)
Definition dsub (a b : double) : double := SFsub 53 1024 a b.
Definition deq (a b : double) : bool := SFeqb a b.
Definition dzero : double := S754_zero false.

Record IotaLogRecord : Type := mkRecord {
  UNIXtime : Z;
  logHours : double;
  accum1 : list double
}.

Record Script : Type := mkScript {
  name : string;
  getUnitsEnum : nat;
  precision : Z;
  run : IotaLogRecord -> IotaLogRecord -> double
}.

Record IotaLog : Type := mkLog {
  firstKey : Z;
  lastKey : Z;
  readKey : Z -> IotaLogRecord
}.

Record asyncHTTPrequest : Type := mkRequest {
  readyState : Z;
  responseHTTPcode : Z;
  responseText : string
}.

Inductive states : Type :=
| query_s | checkQuery_s | write_s | checkWrite_s | stopped_s.

(** What a handler sees of the rest of the firmware during one call. *)
Record world : Type := mkWorld {
  Current_log : IotaLog;
  UTCtime : Z;
  (** the reading of the [k]-th call of [micros()] in this call *)
  micros : nat -> Z;
  bingoTime : Z;
  WiFi_isConnected : bool;
  deviceName : string
}.

(** Members set by configuration and left alone by the handlers. *)
Record config : Type := mkConfig {
  _table : string;
  _deviceName : option string;
  _jwtToken : option string;
  _schema : option string;
  _unit_active : list bool;
  _CSVheader : string;
  _outputs : list Script;
  _interval : Z;
  _bulkSend : Z;
  _uploadStartDate : Z
}.

(** Members the handlers change.  [oldRecord] and [newRecord] are
    allocated and deleted together, and only [oldRecord] is tested, so
    the two pointers are one optional pair. *)
Record uploader : Type := mkUploader {
  _state : states;
  _lastSent : Z;
  _lastPost : Z;
  _stop : bool;
  _request : option asyncHTTPrequest;
  _statusMessage : option string;
  records : option (IotaLogRecord * IotaLogRecord);
  reqData : string
}.

Definition oldRecord (u : uploader) : option IotaLogRecord :=
  option_map fst (records u).
Definition newRecord (u : uploader) : option IotaLogRecord :=
  option_map snd (records u).

Definition set_state (v : states) (u : uploader) : uploader :=
  mkUploader v (_lastSent u) (_lastPost u) (_stop u) (_request u)
             (_statusMessage u) (records u) (reqData u).
Definition set_lastSent (v : Z) (u : uploader) : uploader :=
  mkUploader (_state u) v (_lastPost u) (_stop u) (_request u)
             (_statusMessage u) (records u) (reqData u).
Definition set_lastPost (v : Z) (u : uploader) : uploader :=
  mkUploader (_state u) (_lastSent u) v (_stop u) (_request u)
             (_statusMessage u) (records u) (reqData u).
Definition set_request (v : option asyncHTTPrequest) (u : uploader)
  : uploader :=
  mkUploader (_state u) (_lastSent u) (_lastPost u) (_stop u) v
             (_statusMessage u) (records u) (reqData u).
Definition set_statusMessage (v : option string) (u : uploader) : uploader :=
  mkUploader (_state u) (_lastSent u) (_lastPost u) (_stop u) (_request u)
             v (records u) (reqData u).
Definition set_records (v : option (IotaLogRecord * IotaLogRecord))
  (u : uploader) : uploader :=
  mkUploader (_state u) (_lastSent u) (_lastPost u) (_stop u) (_request u)
             (_statusMessage u) v (reqData u).
Definition set_reqData (v : string) (u : uploader) : uploader :=
  mkUploader (_state u) (_lastSent u) (_lastPost u) (_stop u) (_request u)
             (_statusMessage u) (records u) v.

(** Calls into the rest of the firmware that a handler makes, in order.
    [HTTPPost] carries the content of [reqData] at the call, which is what
    the transport sends.  [row] marks the rows of one record pair being
    appended to [reqData], with the timestamp they carry. *)
Inductive event : Type :=
| HTTPGet (endpoint : string) (completion : states)
| HTTPPost (endpoint : string) (completion : states) (contentType : string)
           (body : string)
| delay (seconds : Z) (resume : states)
| stop
| readKey_call (key : Z)
| row (timestamp : Z).

Definition step : Type := uploader * Z * list event.

(* ===================================================================== *)
(** ** The uploader: operations *)
(* ===================================================================== *)

Module Uploader.
Import Text Scanf Calendar Codec Printf.
Local Open Scope string_scope.
Local Open Scope Z_scope.

Definition nl : string := str (ascii_of_nat 10).

Section Handlers.
Context {host : Host}.
Variable w : world.
Variable cfg : config.

(** *** configCB: the unit columns and the header *)

Fixpoint set_at (i : nat) (l : list bool) : list bool :=
  match l, i with
  | [], _ => []
  | _ :: l', O => true :: l'
  | b :: l', S i' => b :: set_at i' l'
  end.

Definition configCB_units (outputs : list Script) : list bool :=
  fold_left (fun active script => set_at (getUnitsEnum script) active)
            outputs (repeat false unitsCount).

Definition configCB_header (active : list bool) : string :=
  fold_left (fun header i =>
               if nth i active false
               then header ++ "," ++ unitstr i else header)
            (seq 0 unitsCount) "timestamp,device,sensor".

(** *** resolveDeviceName *)

Definition resolveDeviceName : string :=
  match _deviceName cfg with
  | None => deviceName w
  | Some result =>
      if contains "$device" result
      then replace "$device" (deviceName w) result
      else result
  end.

(** The path of the table, shared by the query and the write. *)
Definition table_endpoint : string :=
  "/" ++
  match _schema cfg with
  | Some schema =>
      if String.eqb schema "public" then "" else schema ++ "."
  | None => ""
  end ++ _table cfg.

(** *** handle_query_s *)

Definition handle_query_s (u : uploader) : step :=
  let u := set_lastSent 0 u in
  let endpoint :=
    table_endpoint ++ "?select=timestamp&device=eq." ++
    resolveDeviceName ++ "&order=timestamp.desc&limit=1" in
  if negb (WiFi_isConnected w) then (u, wrap32 (UTCtime w + 1), [])
  else (u, 1, [HTTPGet endpoint checkQuery_s]).

(** *** handle_checkQuery_s *)

Definition failure_message (what : string) (httpCode : Z)
  (responseText : string) : string :=
  if httpCode <? 0
  then truncate 50 (what ++ " failed, code " ++ decimal httpCode)
  else truncate (available responseText + 50)
         (what ++ " failed, code " ++ decimal httpCode ++
          ", response: " ++ c_str responseText).

Fixpoint json_get (key : string) (o : list (string * string))
  : option string :=
  match o with
  | [] => None
  | (k, v) :: o' => if String.eqb k key then Some v else json_get key o'
  end.

(** The watermark the response carries, if it carries one. *)
Definition query_watermark (responseText : string) (u : uploader)
  : uploader :=
  match parseArray responseText with
  | Some (lastRecord :: _) =>
      match json_get "timestamp" lastRecord with
      | Some timestampStr =>
          let timestamp := parseTimestamp timestampStr in
          if timestamp >? 0 then set_lastSent timestamp u else u
      | None => u
      end
  | _ => u
  end.

Definition handle_checkQuery_s (u : uploader) : step :=
  match _request u with
  | None => (u, 10, [])
  | Some request =>
      if negb (readyState request =? 4) then (u, 10, [])
      else
        let u := set_statusMessage None u in
        let httpCode := responseHTTPcode request in
        let responseText := responseText request in
        if negb (httpCode =? 200) then
          let message := failure_message "Query" httpCode responseText in
          let u := set_statusMessage (Some message) u in
          let u := set_request None u in
          (u, 15, [delay 5 query_s])
        else
          let u := query_watermark responseText u in
          let u := set_lastSent (MAX (_lastSent u) (_uploadStartDate cfg)) u in
          let u := set_lastSent
                     (MAX (_lastSent u) (firstKey (Current_log w))) u in
          let u := set_lastSent
                     (wrap32 (_lastSent u - _lastSent u mod _interval cfg))
                     u in
          let u := set_request None u in
          let u := set_state write_s u in
          (u, 1, [])
  end.

(** *** handle_checkWrite_s *)

Definition handle_checkWrite_s (u : uploader) : step :=
  match _request u with
  | None => (u, 10, [])
  | Some request =>
      if negb (readyState request =? 4) then
        let u := set_request None u in
        let u := set_state write_s u in
        (u, wrap32 (UTCtime w + 10), [])
      else
        let u := set_statusMessage None u in
        let httpCode := responseHTTPcode request in
        if httpCode =? 201 then
          let u := set_lastSent (_lastPost u) u in
          let u := set_state write_s u in
          (u, 1, [])
        else
          let responseText := responseText request in
          let message := failure_message "POST" httpCode responseText in
          let u := set_statusMessage (Some message) u in
          let u := set_request None u in
          let u := set_state write_s u in
          (u, wrap32 (UTCtime w + 10), [])
  end.

(** *** handle_write_s: the rows of one record pair *)

(** [while (unitIndex < bound) if (_unit_active[unitIndex++]) print
    ",NULL"], as its [bound - unitIndex] iterations. *)
Fixpoint null_fill (n : nat) (buf : string) (unitIndex : nat)
  : string * nat :=
  match n with
  | O => (buf, unitIndex)
  | S n' =>
      null_fill n'
        (if nth unitIndex (_unit_active cfg) false
         then buf ++ ",NULL" else buf)
        (S unitIndex)
  end.

Definition fill_nulls (buf : string) (unitIndex bound : nat)
  : string * nat :=
  null_fill (bound - unitIndex) buf unitIndex.

Definition row_start (timestampStr sensor : string) : string :=
  nl ++ timestampStr ++ "," ++ resolveDeviceName ++ "," ++ sensor.

(** The local variables of the script loop: the buffer, the sensor of
    the row being written, and the next unit column. *)
Record cursor : Type := mkCursor {
  c_buf : string;
  c_sensor : string;
  c_unitIndex : nat
}.

(** The body of [while (script)]. *)
Definition script_step (timestampStr : string)
  (oldRec newRec : IotaLogRecord) (c : cursor) (script : Script)
  : cursor :=
  let value := run script oldRec newRec in
  if deq value value then
    let c :=
      if negb (String.eqb (c_sensor c) (name script)) then
        let (buf, _) := fill_nulls (c_buf c) (c_unitIndex c) unitsCount in
        let sensor := name script in
        mkCursor (buf ++ row_start timestampStr sensor) sensor 0
      else c in
    let (buf, unitIndex) :=
      fill_nulls (c_buf c) (c_unitIndex c) (getUnitsEnum script) in
    if Nat.eqb unitIndex (getUnitsEnum script) then
      mkCursor (buf ++ "," ++ printf_f (precision script) value)
               (c_sensor c) (S unitIndex)
    else mkCursor buf (c_sensor c) unitIndex
  else c.

(** Lines 399 to 477: the rows of the pair, appended to [buf].  [None]
    when the script list is empty: [_outputs->first()] is then null
    and [script->name()] dereferences it. *)
Definition assemble_rows (oldRec newRec : IotaLogRecord) (buf : string)
  : option string :=
  let timestampStr := datef (UNIXtime oldRec) "YYYY-MM-DDThh:mm:ssZ" in
  match _outputs cfg with
  | [] => None
  | script :: _ =>
      let sensor := name script in
      let c := mkCursor (buf ++ row_start timestampStr sensor) sensor 0 in
      let c := fold_left (script_step timestampStr oldRec newRec)
                         (_outputs cfg) c in
      Some (fst (fill_nulls (c_buf c) (c_unitIndex c) unitsCount))
  end.

(** *** handle_write_s: the batch loop *)

Inductive loop_result : Type :=
| Returned (u : uploader) (r : Z) (tr : list event)
| Finished (u : uploader) (tr : list event)
| Crashed
| OutOfFuel.

Definition after (evs : list event) (r : loop_result) : loop_result :=
  match r with
  | Returned u r tr => Returned u r (evs ++ tr)%list
  | Finished u tr => Finished u (evs ++ tr)%list
  | Crashed => Crashed
  | OutOfFuel => OutOfFuel
  end.

(** The loop of lines 370 to 480.  [k] counts the calls of [micros()].
    Every iteration that does not return appends to [reqData], so the
    distance of [reqData] to the buffer limit bounds the iterations:
    that is the [fuel] ([write_loop_fuel] below). *)
Fixpoint write_loop (fuel : nat) (k : nat) (u : uploader)
  (oldRec newRec : IotaLogRecord) : loop_result :=
  if (available (reqData u) <? uploaderBufferLimit) &&
     (UNIXtime newRec <? lastKey (Current_log w))
  then
    match fuel with
    | O => OutOfFuel
    | S fuel' =>
        if micros w k >? bingoTime w then
          Returned (set_records (Some (oldRec, newRec)) u) 10 []
        else
          let oldRec := newRec in
          let key := wrap32 (UNIXtime oldRec + _interval cfg) in
          let newRec := readKey (Current_log w) key in
          let elapsedHours := dsub (logHours newRec) (logHours oldRec) in
          if deq elapsedHours dzero then
            Returned (set_records (Some (oldRec, newRec)) u)
              (if wrap32 (UNIXtime newRec + _interval cfg)
                  <=? lastKey (Current_log w)
               then 1 else wrap32 (UTCtime w + 1))
              [readKey_call key]
          else
            match assemble_rows oldRec newRec (reqData u) with
            | None => Crashed
            | Some buf =>
                let u := set_reqData buf u in
                let u := set_lastPost (UNIXtime oldRec) u in
                after [readKey_call key; row (UNIXtime oldRec)]
                      (write_loop fuel' (S k) u oldRec newRec)
            end
    end
  else Finished (set_records (Some (oldRec, newRec)) u) [].

Definition write_loop_fuel (u : uploader) : nat :=
  Z.to_nat (uploaderBufferLimit - available (reqData u)).

Definition IotaLogRecord_new : IotaLogRecord := mkRecord 0 dzero [].

Definition dataThreshold (u : uploader) : Z :=
  wrap32 (_lastSent u + _interval cfg + _interval cfg * _bulkSend cfg).

(** Modelled from the spec: [Uploader::stop] of the base class, which
    postgrest_uploader.h calls and does not define.  The spec has it
    release any in-flight record cursors and halt. *)
Definition Uploader_stop (u : uploader) : uploader :=
  set_state stopped_s (set_records None u).

(** [None] is the null dereference of [assemble_rows]. *)
Definition handle_write_s (u : uploader) : option step :=
  if _stop u then Some (Uploader_stop u, 1, [stop])
  else if lastKey (Current_log w) <? dataThreshold u then
    let u := match records u with
             | Some _ => set_records None u
             | None => u
             end in
    Some (u, wrap32 (UTCtime w + 1), [])
  else
    let '(oldRec, newRec, reads) :=
      match records u with
      | Some (oldRec, newRec) => (oldRec, newRec, [])
      | None =>
          let key := wrap32 (_lastSent u + _interval cfg) in
          (IotaLogRecord_new, readKey (Current_log w) key,
           [readKey_call key])
      end in
    let u := if available (reqData u) =? 0
             then set_reqData (reqData u ++ _CSVheader cfg) u else u in
    match after reads (write_loop (write_loop_fuel u) 0 u oldRec newRec) with
    | Returned u r tr => Some (u, r, tr)
    | Crashed => None
    | OutOfFuel => None
    | Finished u tr =>
        let u := set_reqData (reqData u ++ nl) u in
        if available (reqData u) <=? 1 then
          let u := set_reqData "" u in
          let u := set_records None u in
          Some (u, wrap32 (UTCtime w + 5), tr)
        else
          let u := set_records None u in
          Some (u, 1,
                (tr ++ [HTTPPost table_endpoint checkWrite_s "text/csv"
                                 (reqData u)])%list)
    end.

(** Modelled from the spec: the transport of the base class
    ([Uploader::HTTPPost] and the states that send and wait), which
    postgrest_uploader.h relies on and does not define.  The spec has
    the in-flight buffer destroyed on flush and never carried across
    send attempts, and the settle step see the transport state of the
    request. *)
Definition transport (request : option asyncHTTPrequest) (u : uploader)
  : uploader :=
  set_state checkWrite_s (set_request request (set_reqData "" u)).

End Handlers.
End Uploader.

Import Text Scanf Calendar Codec Printf Uploader.

(* ===================================================================== *)
(** ** A concrete host, for evaluating the handlers *)
(* ===================================================================== *)

Module Demo.
Local Open Scope string_scope.
Local Open Scope Z_scope.

Definition quote : ascii := ascii_of_nat 34.

Fixpoint split_go (sep : ascii) (s cur : string) : list string :=
  match s with
  | EmptyString => [cur]
  | String c s' =>
      if Ascii.eqb c sep then cur :: split_go sep s' ""
      else split_go sep s' (cur ++ str c)
  end.

(** A reader of the arrays PostgREST answers the query with: the empty
    array, or one object with one string member. *)
Definition parse_rows (s : string) : option (list (list (string * string))) :=
  if String.eqb s "[]" then Some []
  else match split_go quote s "" with
       | [opening; key; colon; value; closing] =>
           if String.eqb opening "[{" && String.eqb colon ":" &&
              String.eqb closing "}]"
           then Some [[(key, value)]] else None
       | _ => None
       end.

Definition units_names : list string :=
  ["Watts"; "Volts"; "Amps"; "VA"; "VAh"; "Hz"; "Wh"; "kWh"; "PF"; "VAR";
   "VARh"].

#[export] Instance host : Host := {
  unitsCount := 11;
  unitstr := fun i => nth i units_names "";
  uploaderBufferLimit := 4000;
  parseArray := parse_rows
}.

Definition num (n : Z) : double :=
  match n with
  | Z0 => S754_zero false
  | Zpos p => S754_finite false p 0
  | Zneg p => S754_finite true p 0
  end.

(** A script that reports accumulator [i] of the newer record. *)
Definition reading (sensor : string) (unit : nat) (i : nat) : Script :=
  mkScript sensor unit 1 (fun _ newRec => nth i (accum1 newRec) S754_nan).

(** A log with a record every [interval] seconds from [first] to [last],
    [logHours] advancing by one per record up to [stall] and standing
    still from there on. *)
Definition log_of (interval first last stall : Z) : IotaLog :=
  mkLog first last
    (fun key => mkRecord key (num (Z.min key stall / interval))
                         [num (key / interval); S754_nan; num 7]).

Definition world_of (log : IotaLog) (now : Z) : world :=
  mkWorld log now (fun _ => 0) 1000 true "iotawatt".

Definition outputs1 : list Script := [reading "main" 0 0].

Definition config_of (outputs : list Script) (interval bulk start : Z)
  : config :=
  let active := configCB_units outputs in
  mkConfig "power" (Some "$device") None (Some "public")
           active (configCB_header active) outputs interval bulk start.

Definition fresh : uploader :=
  mkUploader query_s 0 0 false None None None "".

Definition response (code : Z) (text : string) : option asyncHTTPrequest :=
  Some (mkRequest 4 code text).

Definition start : uploader := set_state write_s fresh.

(** Interval 60, bulk factor 2, a log from 0 to 180. *)
Definition cfg2 : config := config_of outputs1 60 2 0.
Definition w180 : world := world_of (log_of 60 0 180 1000000) 5000.

(** Interval 60, bulk factor 1, a log from 0 to 600. *)
Definition cfg1 : config := config_of outputs1 60 1 0.
Definition w600 : world := world_of (log_of 60 0 600 1000000) 5000.

(** A log from 0 to 120 whose [logHours] stands still after 60. *)
Definition w_stalled : world := world_of (log_of 60 0 120 60) 5000.

(** The unit flags with units 0, 1 and 2 active. *)
Definition active3 : list bool :=
  [true; true; true; false; false; false; false; false; false; false; false].

(** Sensor A with units 0 and 1, sensor B with unit 0 and sensor C with
    unit 2, in the order [configCB] sorts them, so that [configCB] has
    the units 0, 1 and 2 active.  Accumulator 1 of every record is not a
    number, so that a script reading it has no value: in the first list
    that is the script of B, in the second the two scripts of A. *)
Definition sensors_B_without_value : list Script :=
  [reading "A" 0 0; reading "A" 1 2; reading "B" 0 1; reading "C" 2 2].

Definition sensors_A_without_value : list Script :=
  [reading "A" 0 1; reading "A" 1 1; reading "B" 0 0; reading "C" 2 2].

(** Two sensors with one unit: every record pair gives two rows. *)
Definition cfgAB : config :=
  config_of [reading "A" 0 0; reading "B" 0 2] 60 1 0.

(** Interval 60, bulk factor 1, a log from 0 to 120: one record pair. *)
Definition w120 : world := world_of (log_of 60 0 120 1000000) 5000.

(** Start date 6000, and a log from 0 to 6120 whose [logHours] stands
    still after 6060. *)
Definition cfg6000 : config := config_of outputs1 60 1 6000.
Definition w6120_stalled : world := world_of (log_of 60 0 6120 6060) 9000.

End Demo.

Import Text Scanf Calendar Codec Printf Uploader.

Import Demo.

Local Open Scope string_scope.
Local Open Scope Z_scope.

(* ===================================================================== *)
(** ** Vocabulary of the statements *)
(* ===================================================================== *)

(** The settle step has no completed request to look at. *)
Definition incomplete (u : uploader) : Prop :=
  match _request u with
  | None => True
  | Some request => readyState request <> 4
  end.

(** The timestamps of the rows a trace appended, oldest first: one entry
    for each record pair that gave rows.  The rows of a pair, one for
    each sensor, all carry the timestamp of the pair. *)
Fixpoint row_times (tr : list event) : list Z :=
  match tr with
  | [] => []
  | row t :: tr' => t :: row_times tr'
  | _ :: tr' => row_times tr'
  end.

(** The bodies a trace submitted. *)
Fixpoint posts (tr : list event) : list string :=
  match tr with
  | [] => []
  | HTTPPost _ _ _ body :: tr' => body :: posts tr'
  | _ :: tr' => posts tr'
  end.

(** The NULL columns of the [n] units from [i] on. *)
Fixpoint nulls (active : list bool) (n : nat) (i : nat) : string :=
  match n with
  | O => ""
  | S n' => (if nth i active false then ",NULL" else "") ++ nulls active n' (S i)
  end.

(** A value column: the number, or NULL where the script has no value. *)
Definition column (script : Script) (value : double) : string :=
  if deq value value then "," ++ printf_f (precision script) value
  else ",NULL".

(** What the batch loop may do to the uploader, started in [u] and ended
    in [u'] with trace [tr]. *)
Definition loop_post (w : world) (u u' : uploader) (tr : list event) : Prop :=
  _state u' = _state u /\ _lastSent u' = _lastSent u /\
  _stop u' = _stop u /\ _request u' = _request u /\
  _statusMessage u' = _statusMessage u /\
  _lastPost u' = last (row_times tr) (_lastPost u) /\
  (forall t, In (row t) tr -> t < lastKey (Current_log w)) /\
  posts tr = [] /\
  records u' <> None /\
  (exists s, reqData u' = reqData u ++ s) /\
  (row_times tr = [] -> reqData u' = reqData u).

(** The state [handle_write_s] enters its loop in: the header is in a
    buffer that was empty. *)
Definition with_header (cfg : config) (u : uploader) : uploader :=
  if available (reqData u) =? 0
  then set_reqData (reqData u ++ _CSVheader cfg) u else u.

(** The key of the first record a fresh batch reads. *)
Definition first_key (cfg : config) (u : uploader) : Z :=
  wrap32 (_lastSent u + _interval cfg).

(** The Write calls of one batch: the scheduler calls [handle_write_s]
    again, in the world of that moment, until a call submits; from there
    the transport has the payload.  The result is the state and the trace
    of all the calls. *)
Fixpoint write_calls {host : Host} (cfg : config) (ws : list world)
  (u : uploader) : option (uploader * list event) :=
  match ws with
  | [] => Some (u, [])
  | w :: ws' =>
      match handle_write_s w cfg u with
      | None => None
      | Some (u1, _, tr1) =>
          match posts tr1 with
          | _ :: _ => Some (u1, tr1)
          | [] =>
              match write_calls cfg ws' u1 with
              | None => None
              | Some (u2, tr2) => Some (u2, (tr1 ++ tr2)%list)
              end
          end
      end
  end.

(** The request of a submit that did not succeed: it never completed, or
    it completed with a code other than 201, negative ones included. *)
Definition failed (request : asyncHTTPrequest) : Prop :=
  readyState request = 4 -> responseHTTPcode request <> 201.

Definition trace_of (res : option step) : list event :=
  match res with
  | Some (_, _, tr) => tr
  | None => []
  end.

Definition state_of (u : uploader) (res : option step) : uploader :=
  match res with
  | Some (u', _, _) => u'
  | None => u
  end.

(** The number of rows in a text: its line feeds. *)
Fixpoint row_count (s : string) : nat :=
  match s with
  | EmptyString => O
  | String c s' =>
      ((if Ascii.eqb c (ascii_of_nat 10) then 1 else 0) + row_count s')%nat
  end.

(** The text does not go on with a digit. *)
Definition no_digit_ahead (rest : string) : Prop :=
  match rest with
  | String c _ => isdigit c = false
  | EmptyString => True
  end.


Definition Unixtime_civil (c : civil) : Z :=
  Unixtime (c_year c) (c_month c) (c_day c)
           (c_hour c) (c_minute c) (c_second c).


(** The five textual forms of the spec, written from calendar fields with
    four digits for the year and two for every other field. *)
Definition date_text (c : civil) : string :=
  pad4 (c_year c) ++ "-" ++ pad2 (c_month c) ++ "-" ++ pad2 (c_day c).

Definition time_text (c : civil) : string :=
  pad2 (c_hour c) ++ ":" ++ pad2 (c_minute c) ++ ":" ++ pad2 (c_second c).



Definition form_iso_z (c : civil) : string :=
  date_text c ++ "T" ++ time_text c ++ "Z".



(** The fields fit their digits. *)
Definition in_range (c : civil) : Prop :=
  0 <= c_year c < 10000 /\ 0 <= c_month c < 100 /\ 0 <= c_day c < 100 /\
  0 <= c_hour c < 100 /\ 0 <= c_minute c < 100 /\ 0 <= c_second c < 100.

(** The directives of the date and of the time, common to the five
    patterns. *)
Definition date_fmt : list directive :=
  [Dint; Dlit "-"; Dint; Dlit "-"; Dint].

Definition time_fmt : list directive :=
  [Dint; Dlit ":"; Dint; Dlit ":"; Dint].

(** The six assignments of a date and time. *)
Definition six (c : civil) : list item :=
  [Int (c_year c); Int (c_month c); Int (c_day c);
   Int (c_hour c); Int (c_minute c); Int (c_second c)].

(** [P] holds of the [n] integers from [d] on. *)
Fixpoint all_from (P : Z -> bool) (n : nat) (d : Z) : bool :=
  match n with
  | O => true
  | S n' => P d && all_from P n' (d + 1)
  end.

Definition year_step_ok (y : Z) : bool :=
  days_before_year (y + 1) =? days_before_year y + year_length y.

Arguments pad2 : simpl never.
Arguments pad4 : simpl never.

(* ===================================================================== *)
(** ** Configuration: [configCB], [setRequestHeaders], [scriptCompare] *)
(* ===================================================================== *)

Module Configure.

(** The C library's [strcmp] on texts without a zero byte: zero for equal
    texts, otherwise the difference of the first two bytes that differ,
    the end of a text counting as a zero byte.  The C standard fixes the
    sign of the result only. *)
Fixpoint strcmp (a b : string) : Z :=
  match a, b with
  | EmptyString, EmptyString => 0
  | EmptyString, String d _ => - code d
  | String c _, EmptyString => code c
  | String c a', String d b' =>
      if Ascii.eqb c d then strcmp a' b' else code c - code d
  end.

(** A text that a [char*] can hold: no zero byte inside. *)
Fixpoint c_string (s : string) : bool :=
  match s with
  | EmptyString => true
  | String c s' => negb (code c =? 0) && c_string s'
  end.

(** The comparator [configCB] hands to [_outputs->sort]: by name, then
    by unit. *)
Definition outputs_compare (a b : Script) : Z :=
  let comp := strcmp (name a) (name b) in
  if negb (comp =? 0) then comp
  else Z.of_nat (getUnitsEnum a) - Z.of_nat (getUnitsEnum b).

Definition scriptCompare (a b : Script) : Z := strcmp (name a) (name b).

Section ConfigCB.
Context {host : Host}.

(** [ScriptSet::sort], which belongs to the script engine: the list in
    the order the comparator asks for. *)
Variable sort : (Script -> Script -> Z) -> list Script -> list Script.

(** [configCB] on the members of the configuration object, each a key
    and its text.  [false] leaves the uploader as it was. *)
Definition configCB (Json : list (string * string)) (cfg : config)
  : bool * config :=
  match json_get "table" Json with
  | None => (false, cfg)
  | Some table =>
      let deviceName :=
        match json_get "deviceName" Json with
        | Some text => text
        | None => "$device"
        end in
      let schema :=
        match json_get "schema" Json with
        | Some text => text
        | None => "public"
        end in
      let schema :=
        if Nat.eqb (String.length schema) 0 then "public" else schema in
      let jwtToken := json_get "jwtToken" Json in
      let outputs := sort outputs_compare (_outputs cfg) in
      let active := configCB_units outputs in
      (true,
       mkConfig table (Some deviceName) jwtToken (Some schema)
                active (configCB_header active) outputs
                (_interval cfg) (_bulkSend cfg) (_uploadStartDate cfg))
  end.

End ConfigCB.

(** The headers [setRequestHeaders] puts on a request, name and value.
    The text [return=minimal] is built and put nowhere. *)
Definition setRequestHeaders (cfg : config) : list (string * string) :=
  match _jwtToken cfg with
  | Some token => [("Authorization", "Bearer " ++ token)]
  | None => []
  end.

End Configure.

Import Configure.

(** The units that have a column, in the order of the enumeration. *)
Definition active_units {host : Host} (active : list bool) : list nat :=
  filter (fun i => nth i active false) (seq 0 unitsCount).

(** The texts of a list, one after the other. *)
Fixpoint concat_text (l : list string) : string :=
  match l with
  | [] => ""
  | s :: l' => s ++ concat_text l'
  end.

(* ===================================================================== *)
(** ** Vocabulary of the statements on configuration, failures and calls *)
(* ===================================================================== *)

(** The order the comparator of [configCB] asks for. *)
Definition outputs_le (a b : Script) : Prop := outputs_compare a b <= 0.

(** The text begins, after white space, with a number that [%d] reads. *)
Definition begins_with_number (x : string) : bool :=
  match conv_d x with
  | Converted _ _ => true
  | _ => false
  end.

(** The character does not occur in the text. *)
Fixpoint free_of (c : ascii) (s : string) : bool :=
  match s with
  | EmptyString => true
  | String d s' => negb (Ascii.eqb c d) && free_of c s'
  end.

(** The status message a failed request leaves when the buffer cuts
    nothing off: of the answer, [%s] prints the bytes before the first
    zero byte. *)
Definition whole_message (what : string) (httpCode : Z) (responseText : string)
  : string :=
  if httpCode <? 0 then what ++ " failed, code " ++ decimal httpCode
  else what ++ " failed, code " ++ decimal httpCode ++
       ", response: " ++ c_str responseText.

(** The timestamp a query answer carries, 0 when it carries none: the
    answer is no array, the array is empty, its first object has no
    [timestamp], or the text of the timestamp is not accepted. *)
Definition answered_watermark {host : Host} (responseText : string) : Z :=
  match parseArray responseText with
  | Some (lastRecord :: _) =>
      match json_get "timestamp" lastRecord with
      | Some timestampStr => parseTimestamp timestampStr
      | None => 0
      end
  | _ => 0
  end.

(** The record pair a call of [handle_write_s] starts its loop from, and
    the read it takes to get it: the pair kept from the call before, or
    the record at the first key of a fresh batch. *)
Definition entry_records (w : world) (cfg : config) (u : uploader)
  : IotaLogRecord * IotaLogRecord * list event :=
  match records u with
  | Some (oldRec, newRec) => (oldRec, newRec, [])
  | None =>
      (IotaLogRecord_new, readKey (Current_log w) (first_key cfg u),
       [readKey_call (first_key cfg u)])
  end.

(** Lines 481 to 508 of [handle_write_s]: what the call does with the
    way its loop ended. *)
Definition write_outcome {host : Host} (w : world) (cfg : config)
  (res : loop_result) : option step :=
  match res with
  | Returned u r tr => Some (u, r, tr)
  | Crashed => None
  | OutOfFuel => None
  | Finished u tr =>
      let u := set_reqData (reqData u ++ nl) u in
      if available (reqData u) <=? 1 then
        let u := set_reqData "" u in
        let u := set_records None u in
        Some (u, wrap32 (UTCtime w + 5), tr)
      else
        let u := set_records None u in
        Some (u, 1,
              (tr ++ [HTTPPost (table_endpoint cfg) checkWrite_s "text/csv"
                               (reqData u)])%list)
  end.

(** The step of a call with the events [evs] before its own. *)
Definition preceded (evs : list event) (res : option step) : option step :=
  match res with
  | Some (u, r, tr) => Some (u, r, (evs ++ tr)%list)
  | None => None
  end.

(** The timestamp of the first row a call of [handle_write_s] can
    assemble. *)
Definition call_start (cfg : config) (u : uploader) : Z :=
  match records u with
  | Some (_, newRec) => UNIXtime newRec
  | None => first_key cfg u
  end.

(** [count] timestamps from [start], [step] apart. *)
Definition progression (start step : Z) (count : nat) : list Z :=
  map (fun i => start + Z.of_nat i * step) (seq 0 count).

(** The buffer is empty or begins with the header. *)
Definition headed (cfg : config) (u : uploader) : Prop :=
  reqData u = "" \/ exists rows, reqData u = _CSVheader cfg ++ rows.

(** The world of [w600] with a time slice that ends after two readings
    of the clock. *)
Definition w_slice : world :=
  mkWorld (log_of 60 0 600 1000000) 5000
          (fun k => Z.of_nat k * 600) 1000 true "iotawatt".

(** The value columns of a row, one for each script of the list. *)
Definition cells (oldRec newRec : IotaLogRecord) (scripts : list Script)
  : string :=
  concat_text
    (map (fun script => column script (run script oldRec newRec)) scripts).

(** The units of the two scripts go up. *)
Definition unit_lt (a b : Script) : Prop :=
  (getUnitsEnum a < getUnitsEnum b)%nat.

(** One sensor with three units, in the order [configCB] sorts them;
    the second script reads the accumulator that is not a number. *)
Definition one_sensor : list Script :=
  [reading "main" 0 0; reading "main" 1 1; reading "main" 6 2].

(** Two sensors whose scripts read the accumulator that is not a
    number. *)
Definition sensors_nan : list Script :=
  [reading "A" 0 1; reading "B" 1 1].

(* ===================================================================== *)
(** * Properties *)
(* ===================================================================== *)

(** ** Text *)

Lemma append_nil_r (s : string) : s ++ "" = s.
Proof. induction s as [|c s IH]; simpl; [reflexivity | now rewrite IH]. Qed.

Lemma append_assoc (a b c : string) : (a ++ b) ++ c = a ++ (b ++ c).
Proof. induction a as [|x a IH]; simpl; [reflexivity | now rewrite IH]. Qed.

Lemma length_append (a b : string) :
  String.length (a ++ b) = (String.length a + String.length b)%nat.
Proof. induction a as [|x a IH]; simpl; [reflexivity | now rewrite IH]. Qed.

Lemma available_append (a b : string) :
  available (a ++ b) = available a + available b.
Proof. unfold available. rewrite length_append. lia. Qed.

Lemma available_nonneg (a : string) : 0 <= available a.
Proof. unfold available. lia. Qed.

(** ** Machine integers *)

Lemma wrap32_range (x : Z) : 0 <= wrap32 x < 2 ^ 32.
Proof. unfold wrap32. apply Z.mod_pos_bound. lia. Qed.

Lemma wrap32_small (x : Z) : 0 <= x < 2 ^ 32 -> wrap32 x = x.
Proof. intros H. unfold wrap32. now apply Z.mod_small. Qed.

Lemma MAX_max (a b : Z) : MAX a b = Z.max a b.
Proof. unfold MAX. destruct (Z.gtb_spec a b); lia. Qed.

(** ** The codec returns unsigned 32-bit values *)

Lemma Unixtime_range (y mo d h mi s : Z) :
  0 <= Unixtime y mo d h mi s < 2 ^ 32.
Proof. apply wrap32_range. Qed.

Lemma parseTimestamp_range (x : string) : 0 <= parseTimestamp x < 2 ^ 32.
Proof.
  unfold parseTimestamp.
  repeat match goal with
         | |- context [if ?c then _ else _] => destruct c
         end;
    try apply wrap32_range; try apply Unixtime_range; lia.
Qed.

(* ===================================================================== *)
(** ** Scanning decimal fields *)
(* ===================================================================== *)



Section Digits.

Lemma digit_cases (k : Z) :
  0 <= k < 10 ->
  k = 0 \/ k = 1 \/ k = 2 \/ k = 3 \/ k = 4 \/ k = 5 \/ k = 6 \/ k = 7 \/
  k = 8 \/ k = 9.
Proof. lia. Qed.

Ltac by_digit k H :=
  destruct (digit_cases k H) as [E|[E|[E|[E|[E|[E|[E|[E|[E|E]]]]]]]]];
  rewrite E; reflexivity.

Lemma isdigit_digit (k : Z) : 0 <= k < 10 -> isdigit (digit_char k) = true.
Proof. intros H. by_digit k H. Qed.

Lemma isspace_digit (k : Z) : 0 <= k < 10 -> isspace (digit_char k) = false.
Proof. intros H. by_digit k H. Qed.

Lemma digit_value_digit (k : Z) :
  0 <= k < 10 -> digit_value (digit_char k) = k.
Proof. intros H. by_digit k H. Qed.

Lemma minus_digit (k : Z) :
  0 <= k < 10 -> Ascii.eqb (digit_char k) "-" = false.
Proof. intros H. by_digit k H. Qed.

Lemma plus_digit (k : Z) :
  0 <= k < 10 -> Ascii.eqb (digit_char k) "+" = false.
Proof. intros H. by_digit k H. Qed.

Lemma scan_digits_stop (acc : Z) (rest : string) :
  no_digit_ahead rest -> scan_digits acc rest = (acc, rest).
Proof. destruct rest; simpl; [reflexivity | intros ->; reflexivity]. Qed.

Lemma scan_digits_pad2 (acc n : Z) (rest : string) :
  0 <= n < 100 -> no_digit_ahead rest ->
  scan_digits acc (pad2 n ++ rest) = (100 * acc + n, rest).
Proof.
  intros Hn Hrest. unfold pad2, str. cbn [append scan_digits].
  assert (H1 : 0 <= n / 10 mod 10 < 10) by (apply Z.mod_pos_bound; lia).
  assert (H0 : 0 <= n mod 10 < 10) by (apply Z.mod_pos_bound; lia).
  rewrite !isdigit_digit, !digit_value_digit by assumption.
  rewrite scan_digits_stop by assumption. f_equal.
  rewrite (Z.mod_small (n / 10) 10)
    by (split; [apply Z.div_pos; lia | apply Z.div_lt_upper_bound; lia]).
  pose proof (Z.div_mod n 10). lia.
Qed.

Lemma scan_digits_pad4 (acc n : Z) (rest : string) :
  0 <= n < 10000 -> no_digit_ahead rest ->
  scan_digits acc (pad4 n ++ rest) = (10000 * acc + n, rest).
Proof.
  intros Hn Hrest. unfold pad4. cbn [append scan_digits].
  assert (H3 : 0 <= n / 1000 mod 10 < 10) by (apply Z.mod_pos_bound; lia).
  assert (H2 : 0 <= n / 100 mod 10 < 10) by (apply Z.mod_pos_bound; lia).
  rewrite !isdigit_digit, !digit_value_digit by assumption.
  unfold pad2, str. cbn [append scan_digits].
  assert (H1 : 0 <= n / 10 mod 10 < 10) by (apply Z.mod_pos_bound; lia).
  assert (H0 : 0 <= n mod 10 < 10) by (apply Z.mod_pos_bound; lia).
  rewrite !isdigit_digit, !digit_value_digit by assumption.
  rewrite scan_digits_stop by assumption. f_equal.
  pose proof (Z.div_mod n 10). pose proof (Z.div_mod (n / 10) 10).
  rewrite (Z.mod_small (n / 1000) 10)
    by (split; [apply Z.div_pos; lia | apply Z.div_lt_upper_bound; lia]).
  assert (E2 : n / 100 = n / 10 / 10)
    by (rewrite Z.div_div by lia; reflexivity).
  assert (E3 : n / 1000 = n / 10 / 10 / 10)
    by (rewrite !Z.div_div by lia; reflexivity).
  rewrite E3, E2 in *.
  pose proof (Z.div_mod (n / 10 / 10) 10).
  assert (n / 10 / 10 / 10 < 10).
  { rewrite <- E3. apply Z.div_lt_upper_bound; lia. }
  assert (0 <= n / 10 / 10 / 10).
  { rewrite <- E3. apply Z.div_pos; lia. }
  lia.
Qed.

Lemma conv_d_pad2 (n : Z) (rest : string) :
  0 <= n < 100 -> no_digit_ahead rest ->
  conv_d (pad2 n ++ rest) = Converted n rest.
Proof.
  intros Hn Hrest.
  assert (H1 : 0 <= n / 10 mod 10 < 10) by (apply Z.mod_pos_bound; lia).
  unfold conv_d.
  assert (Hskip : skip_ws (pad2 n ++ rest) = pad2 n ++ rest).
  { unfold pad2. cbn [append skip_ws]. now rewrite isspace_digit. }
  rewrite Hskip. unfold scan_number.
  pose proof (scan_digits_pad2 0 n rest Hn Hrest) as Hscan.
  unfold pad2 in *. cbn [append] in *.
  rewrite minus_digit, plus_digit by assumption. cbn [orb].
  rewrite isdigit_digit by assumption. rewrite Hscan.
  f_equal.
Qed.

Lemma conv_d_pad4 (n : Z) (rest : string) :
  0 <= n < 10000 -> no_digit_ahead rest ->
  conv_d (pad4 n ++ rest) = Converted n rest.
Proof.
  intros Hn Hrest.
  assert (H3 : 0 <= n / 1000 mod 10 < 10) by (apply Z.mod_pos_bound; lia).
  unfold conv_d.
  assert (Hskip : skip_ws (pad4 n ++ rest) = pad4 n ++ rest).
  { unfold pad4. cbn [append skip_ws]. now rewrite isspace_digit. }
  rewrite Hskip. unfold scan_number.
  pose proof (scan_digits_pad4 0 n rest Hn Hrest) as Hscan.
  unfold pad4 in *. cbn [append] in *.
  rewrite minus_digit, plus_digit by assumption. cbn [orb].
  rewrite isdigit_digit by assumption. rewrite Hscan.
  f_equal.
Qed.

Lemma append_cons (c : ascii) (a b : string) :
  String c a ++ b = String c (a ++ b).
Proof. reflexivity. Qed.

(** Scanning the date of a text, whatever follows the day. *)
Lemma scan_date (c : civil) (fmt : list directive) (rest : string)
  (got : list item) :
  in_range c -> no_digit_ahead rest ->
  scan (Dint :: Dlit "-" :: Dint :: Dlit "-" :: Dint :: fmt)
       (date_text c ++ rest) got =
  scan fmt rest
       (got ++ [Int (c_year c); Int (c_month c); Int (c_day c)]).
Proof.
  intros (Hy & Hm & Hd & _) Hrest. unfold date_text.
  rewrite !append_assoc. cbn [scan].
  rewrite conv_d_pad4 by (assumption || reflexivity).
  cbn [scan append Ascii.eqb Bool.eqb].
  rewrite conv_d_pad2 by (assumption || reflexivity).
  cbn [scan append Ascii.eqb Bool.eqb].
  rewrite conv_d_pad2 by assumption.
  cbn [scan]. now rewrite <- !app_assoc.
Qed.

Lemma scan_time (c : civil) (fmt : list directive) (rest : string)
  (got : list item) :
  in_range c -> no_digit_ahead rest ->
  scan (Dint :: Dlit ":" :: Dint :: Dlit ":" :: Dint :: fmt)
       (time_text c ++ rest) got =
  scan fmt rest
       (got ++ [Int (c_hour c); Int (c_minute c); Int (c_second c)]).
Proof.
  intros (_ & _ & _ & Hh & Hm & Hs) Hrest. unfold time_text.
  rewrite !append_assoc. cbn [scan].
  rewrite conv_d_pad2 by (assumption || reflexivity).
  cbn [scan append Ascii.eqb Bool.eqb].
  rewrite conv_d_pad2 by (assumption || reflexivity).
  cbn [scan append Ascii.eqb Bool.eqb].
  rewrite conv_d_pad2 by assumption.
  cbn [scan]. now rewrite <- !app_assoc.
Qed.



Lemma scan_lit (c : ascii) (fmt : list directive) (s : string)
  (got : list item) :
  scan (Dlit c :: fmt) (String c s) got = scan fmt s got.
Proof. cbn [scan]. now rewrite Ascii.eqb_refl. Qed.




Lemma scan_T_on_T (c : civil) (fmt : list directive) (rest : string) :
  in_range c -> no_digit_ahead rest ->
  scan (date_fmt ++ Dlit "T" :: time_fmt ++ fmt)
       (date_text c ++ "T" ++ time_text c ++ rest) [] =
  scan fmt rest (six c).
Proof.
  intros Hc Hrest. unfold date_fmt, time_fmt. cbn [app].
  rewrite scan_date by (assumption || reflexivity).
  change ("T" ++ time_text c ++ rest) with (String "T" (time_text c ++ rest)).
  rewrite scan_lit.
  rewrite scan_time by assumption. reflexivity.
Qed.

Lemma scan_blank_on_T (c : civil) (fmt : list directive) (rest : string) :
  in_range c ->
  scan (date_fmt ++ Dspace :: Dint :: fmt) (date_text c ++ "T" ++ rest) [] =
  (3, [Int (c_year c); Int (c_month c); Int (c_day c)]).
Proof.
  intros Hc. unfold date_fmt. cbn [app].
  rewrite scan_date by (assumption || reflexivity).
  reflexivity.
Qed.


Lemma fmt_tz_hm_eq :
  parse_format fmt_tz_hm =
  (date_fmt ++ Dspace :: time_fmt ++ [Dchar; Dint; Dlit ":"; Dint])%list.
Proof. reflexivity. Qed.
Lemma fmt_tz_h_eq :
  parse_format fmt_tz_h =
  (date_fmt ++ Dspace :: time_fmt ++ [Dchar; Dint])%list.
Proof. reflexivity. Qed.
Lemma fmt_iso_z_eq :
  parse_format fmt_iso_z =
  (date_fmt ++ Dlit "T" :: time_fmt ++ [Dlit "Z"])%list.
Proof. reflexivity. Qed.


Section Forms.
Variable c : civil.
Hypothesis Hc : in_range c.
Variables (neg : bool) (tzh tzm : Z).
Hypothesis Htzh : 0 <= tzh < 100.
Hypothesis Htzm : 0 <= tzm < 100.




Lemma sscanf_T_blank (rest : string) (fmt : list directive) :
  fst (scan (date_fmt ++ Dspace :: time_fmt ++ fmt)
            (date_text c ++ "T" ++ rest) []) = 3.
Proof.
  change (time_fmt ++ fmt)%list
    with (Dint :: Dlit ":" :: Dint :: Dlit ":" :: Dint :: fmt).
  now rewrite scan_blank_on_T.
Qed.

Lemma sscanf_iso_z :
  fst (sscanf (form_iso_z c) fmt_tz_hm) = 3 /\
  fst (sscanf (form_iso_z c) fmt_tz_h) = 3 /\
  sscanf (form_iso_z c) fmt_iso_z = (6, six c).
Proof.
  unfold sscanf, form_iso_z.
  rewrite fmt_tz_hm_eq, fmt_tz_h_eq, fmt_iso_z_eq.
  rewrite !sscanf_T_blank.
  rewrite scan_T_on_T by (exact Hc || reflexivity).
  repeat split.
Qed.



End Forms.

End Digits.
Section CalendarFacts.

Lemma all_from_spec (P : Z -> bool) (n : nat) (d k : Z) :
  all_from P n d = true -> d <= k < d + Z.of_nat n -> P k = true.
Proof.
  revert d. induction n as [|n IH]; intros d H Hk; [lia|].
  cbn [all_from] in H. apply andb_prop in H as [H0 H1].
  destruct (Z.eq_dec k d) as [->|Hne]; [exact H0|].
  apply (IH (d + 1) H1). lia.
Qed.

Lemma year_step (y : Z) :
  1970 <= y < 2107 ->
  days_before_year (y + 1) = days_before_year y + year_length y.
Proof.
  intros Hy. apply Z.eqb_eq.
  apply (all_from_spec year_step_ok 137 1970 y); [vm_compute; reflexivity|].
  change (Z.of_nat 137) with 137. lia.
Qed.

Lemma year_of_days_spec (fuel : nat) (y d : Z) :
  1970 <= y -> y + Z.of_nat fuel <= 2107 -> 0 <= d ->
  d < days_before_year (y + Z.of_nat fuel) - days_before_year y ->
  let (y', d') := year_of_days fuel y d in
  y <= y' < y + Z.of_nat fuel /\ 0 <= d' < year_length y' /\
  days_before_year y' + d' = days_before_year y + d.
Proof.
  revert y d. induction fuel as [|fuel IH]; intros y d Hy Hend Hd Hlt.
  - rewrite Z.add_0_r in Hlt. lia.
  - cbn [year_of_days]. destruct (Z.ltb_spec d (year_length y)) as [Hin|Hout].
    + lia.
    + pose proof (year_step y ltac:(lia)) as Hstep.
      specialize (IH (y + 1) (d - year_length y)).
      replace (y + 1 + Z.of_nat fuel) with (y + Z.of_nat (S fuel)) in IH by lia.
      specialize (IH ltac:(lia) ltac:(lia) ltac:(lia) ltac:(lia)).
      destruct (year_of_days fuel (y + 1) (d - year_length y)) as [y' d'].
      lia.
Qed.

Lemma month_cases (m : Z) :
  1 <= m <= 12 ->
  m = 1 \/ m = 2 \/ m = 3 \/ m = 4 \/ m = 5 \/ m = 6 \/ m = 7 \/ m = 8 \/
  m = 9 \/ m = 10 \/ m = 11 \/ m = 12.
Proof. lia. Qed.

Lemma month_step (y m : Z) :
  1 <= m <= 12 ->
  days_before_month y (m + 1) = days_before_month y m + month_length y m /\
  1 <= month_length y m <= 31.
Proof.
  intros Hm. unfold days_before_month, month_length.
  destruct (is_leap y);
    destruct (month_cases m Hm)
      as [E|[E|[E|[E|[E|[E|[E|[E|[E|[E|[E|E]]]]]]]]]]];
    rewrite E; vm_compute; repeat split; congruence.
Qed.

Lemma months_of_year (y : Z) :
  days_before_month y 1 = 0 /\ days_before_month y 13 = year_length y.
Proof.
  unfold days_before_month, year_length.
  destruct (is_leap y); split; reflexivity.
Qed.

Lemma month_of_days_spec (fuel : nat) (y m d : Z) :
  1 <= m -> m + Z.of_nat fuel = 12 -> 0 <= d ->
  d < year_length y - days_before_month y m ->
  let (m', d') := month_of_days fuel y m d in
  m <= m' <= 12 /\ 0 <= d' < month_length y m' /\
  days_before_month y m' + d' = days_before_month y m + d.
Proof.
  revert m d. induction fuel as [|fuel IH]; intros m d Hm Hend Hd Hlt.
  - cbn [month_of_days].
    destruct (month_step y m ltac:(lia)) as [Hstep _].
    destruct (months_of_year y) as [_ Hall].
    replace (m + 1) with 13 in Hstep by lia. lia.
  - cbn [month_of_days].
    destruct (month_step y m ltac:(lia)) as [Hstep _].
    destruct (Z.ltb_spec d (month_length y m)) as [Hin|Hout]; [lia|].
    specialize (IH (m + 1) (d - month_length y m)
                   ltac:(lia) ltac:(lia) ltac:(lia) ltac:(lia)).
    destruct (month_of_days fuel y (m + 1) (d - month_length y m)) as [m' d'].
    lia.
Qed.

(** A day count of the unsigned 32-bit range and its calendar date. *)
Lemma civil_from_days_spec (days : Z) :
  0 <= days <= 49710 ->
  let '(y, m, d) := civil_from_days days in
  1970 <= y <= 2106 /\ 1 <= m <= 12 /\ 1 <= d <= 31 /\
  days_from_civil y m d = days.
Proof.
  intros Hd. unfold civil_from_days.
  pose proof (year_of_days_spec 137 1970 days) as Hy.
  change (Z.of_nat 137) with 137 in Hy.
  change (days_before_year (1970 + 137)) with 50038 in Hy.
  change (days_before_year 1970) with 0 in Hy.
  specialize (Hy ltac:(lia) ltac:(lia) ltac:(lia) ltac:(lia)).
  destruct (year_of_days 137 1970 days) as [y d].
  destruct Hy as (Hy1 & Hd1 & Hsum).
  pose proof (month_of_days_spec 11 y 1 d) as Hm.
  destruct (months_of_year y) as [Hjan _]. rewrite Hjan in Hm.
  change (Z.of_nat 11) with 11 in Hm.
  specialize (Hm ltac:(lia) ltac:(lia) ltac:(lia) ltac:(lia)).
  destruct (month_of_days 11 y 1 d) as [m d'].
  destruct Hm as (Hm1 & Hd2 & Hsum2).
  destruct (month_step y m Hm1) as [_ Hlen].
  unfold days_from_civil. lia.
Qed.

End CalendarFacts.

Lemma civil_of_fields (t : Z) :
  0 <= t < 2 ^ 32 ->
  in_range (civil_of t) /\ Unixtime_civil (civil_of t) = t.
Proof.
  intros Ht.
  assert (Hd : 0 <= t / 86400 <= 49710).
  { split; [apply Z.div_pos; lia|].
    apply Z.lt_succ_r. apply Z.div_lt_upper_bound; lia. }
  pose proof (civil_from_days_spec _ Hd) as Hok.
  unfold civil_of, Unixtime_civil, in_range in *.
  destruct (civil_from_days (t / 86400)) as [[y m] dd].
  cbn [c_year c_month c_day c_hour c_minute c_second].
  destruct Hok as (Hy & Hm & Hdd & Hback).
  set (r := t mod 86400).
  assert (Hr : 0 <= r < 86400) by (apply Z.mod_pos_bound; lia).
  pose proof (Z.div_mod t 86400 ltac:(lia)) as Ht'. fold r in Ht'.
  pose proof (Z.div_mod r 3600 ltac:(lia)) as Hr1.
  pose proof (Z.mod_pos_bound r 3600 ltac:(lia)) as Hr2.
  pose proof (Z.div_mod (r mod 3600) 60 ltac:(lia)) as Hr3.
  pose proof (Z.mod_pos_bound (r mod 3600) 60 ltac:(lia)) as Hr4.
  assert (Hr5 : r mod 60 = (r mod 3600) mod 60).
  { symmetry. apply Z.mod_mod_divide. exists 60. reflexivity. }
  assert (0 <= r / 3600 < 24).
  { split; [apply Z.div_pos; lia | apply Z.div_lt_upper_bound; lia]. }
  assert (0 <= r mod 3600 / 60 < 60).
  { split; [apply Z.div_pos; lia | apply Z.div_lt_upper_bound; lia]. }
  split; [lia|].
  unfold Unixtime. rewrite Hback. rewrite wrap32_small; lia.
Qed.

Lemma datef_iso_z (t : Z) :
  datef t "YYYY-MM-DDThh:mm:ssZ" = form_iso_z (civil_of t).
Proof.
  unfold datef, form_iso_z, date_text, time_text.
  cbn [datef_go]. rewrite !append_assoc. reflexivity.
Qed.

Lemma parse_iso_z (c : civil) :
  in_range c -> parseTimestamp (form_iso_z c) = Unixtime_civil c.
Proof.
  intros Hc. destruct (sscanf_iso_z c Hc) as (H1 & H2 & H3).
  unfold parseTimestamp. rewrite H1, H2, H3. reflexivity.
Qed.

Lemma parse_datef (t : Z) :
  0 <= t < 2 ^ 32 -> parseTimestamp (datef t "YYYY-MM-DDThh:mm:ssZ") = t.
Proof.
  intros Ht. destruct (civil_of_fields t Ht) as [Hrange Hback].
  now rewrite datef_iso_z, parse_iso_z.
Qed.

(** C9.  Formatting a parsed timestamp in the canonical ISO UTC form with
    the Z suffix and parsing the result gives the parsed timestamp back,
    for every input text: for the texts of the five accepted forms, and
    for every other text, whose parse is 0. *)
Theorem codec_round_trip (x : string) :
  parseTimestamp (datef (parseTimestamp x) "YYYY-MM-DDThh:mm:ssZ")
  = parseTimestamp x.
Proof. apply parse_datef. apply parseTimestamp_range. Qed.

Example round_trip_of_offset_text :
  parseTimestamp (datef (parseTimestamp "2023-10-15 14:30:25+10:30")
                        "YYYY-MM-DDThh:mm:ssZ") = 1697342425 /\
  datef 1697342425 "YYYY-MM-DDThh:mm:ssZ" = "2023-10-15T04:00:25Z".
Proof. vm_compute. split; reflexivity. Qed.

(** *** The five patterns in order *)





Lemma parse_unmatched (x : string) :
  matched_pattern x = None -> parseTimestamp x = 0.
Proof.
  unfold matched_pattern, parseTimestamp.
  repeat match goal with
         | |- context [if ?b then _ else _] =>
             destruct b; try discriminate
         end.
  reflexivity.
Qed.

(** A literal at the end of a pattern cannot change a positive count:
    the count is that of the assignments made before it. *)
Lemma scan_trailing_literal (c : ascii) (fmt : list directive) (s : string)
  (got : list item) :
  0 < fst (scan fmt s got) ->
  scan (fmt ++ [Dlit c]) s got = scan fmt s got.
Proof.
  revert s got. induction fmt as [|d fmt IH]; intros s got Hpos.
  - cbn [app scan] in *. destruct got as [|g got]; [cbn in Hpos; lia|].
    destruct s as [|c' s]; [reflexivity|]. destruct (Ascii.eqb c c'); reflexivity.
  - destruct d; cbn [app scan] in *.
    + destruct (conv_d s); [now apply IH|reflexivity|reflexivity].
    + destruct s; [reflexivity | now apply IH].
    + now apply IH.
    + destruct s as [|c' s]; [reflexivity|].
      destruct (Ascii.eqb c0 c'); [now apply IH | reflexivity].
Qed.

(** The fourth pattern never decides: whatever it accepts, the third has
    accepted before it. *)
Lemma iso_pattern_is_shadowed (x : string) : matched_pattern x <> Some 4.
Proof.
  unfold matched_pattern.
  destruct (fst (sscanf x fmt_tz_hm) =? 9); [discriminate|].
  destruct (fst (sscanf x fmt_tz_h) =? 8); [discriminate|].
  destruct (fst (sscanf x fmt_iso_z) =? 6) eqn:H3; [discriminate|].
  destruct (fst (sscanf x fmt_iso) =? 6) eqn:H4;
    [|destruct (fst (sscanf x fmt_simple) =? 6); intros HH; discriminate HH].
  exfalso. apply Z.eqb_eq in H4. apply Z.eqb_neq in H3. apply H3.
  unfold sscanf in *.
  change (parse_format fmt_iso_z) with (parse_format fmt_iso ++ [Dlit "Z"])%list.
  rewrite scan_trailing_literal; [exact H4 | lia].
Qed.




(* ===================================================================== *)
(** ** Resume point: [handle_checkQuery_s] *)
(* ===================================================================== *)

Section Resume.
Context {host : Host}.
Variables (w : world) (cfg : config).

Lemma query_watermark_lastSent (text : string) (u : uploader) :
  0 <= _lastSent u < 2 ^ 32 ->
  0 <= _lastSent (query_watermark text u) < 2 ^ 32.
Proof.
  intros Hu. unfold query_watermark.
  destruct (parseArray text) as [[|lastRecord rest]|]; try exact Hu.
  destruct (json_get "timestamp" lastRecord) as [timestampStr|]; try exact Hu.
  destruct (parseTimestamp timestampStr >? 0); try exact Hu.
  simpl. apply parseTimestamp_range.
Qed.

(** The state a completed, successful query leaves behind. *)
Lemma checkQuery_success (u : uploader) (request : asyncHTTPrequest) :
  _request u = Some request ->
  readyState request = 4 ->
  responseHTTPcode request = 200 ->
  let m := MAX (MAX (_lastSent (query_watermark (responseText request)
                                  (set_statusMessage None u)))
                    (_uploadStartDate cfg))
               (firstKey (Current_log w)) in
  handle_checkQuery_s w cfg u =
  (set_state write_s
     (set_request None
        (set_lastSent (wrap32 (m - m mod _interval cfg))
           (query_watermark (responseText request)
              (set_statusMessage None u)))),
   1, []).
Proof.
  intros Hreq Hready Hcode. unfold handle_checkQuery_s.
  rewrite Hreq, Hready, Hcode. simpl.
  destruct (query_watermark _ _) as [st ls lp sp rq sm rc rd]. reflexivity.
Qed.

End Resume.

(** C1 (as amended).  When [handle_checkQuery_s] completes a successful
    query it moves to the write phase with [_lastSent] a multiple of the
    interval: the largest one not above the maximum [m] of the parsed
    watermark, the configured start date and the first log key.  So
    [_lastSent] is at most [m] and less than one interval below it, and
    [_lastSent + _interval], the first timestamp posted, is above the
    configured start date and the first log key. *)
Theorem resume_watermark_aligned
  {host : Host} (w : world) (cfg : config) (u : uploader)
  (request : asyncHTTPrequest) :
  _request u = Some request ->
  readyState request = 4 ->
  responseHTTPcode request = 200 ->
  0 < _interval cfg ->
  0 <= _lastSent u < 2 ^ 32 ->
  0 <= _uploadStartDate cfg < 2 ^ 32 ->
  0 <= firstKey (Current_log w) < 2 ^ 32 ->
  let u' := fst (fst (handle_checkQuery_s w cfg u)) in
  let parsed := _lastSent (query_watermark (responseText request)
                             (set_statusMessage None u)) in
  let m := Z.max parsed
             (Z.max (_uploadStartDate cfg) (firstKey (Current_log w))) in
  _state u' = write_s /\
  _lastSent u' mod _interval cfg = 0 /\
  _lastSent u' = m - m mod _interval cfg /\
  _lastSent u' <= m < _lastSent u' + _interval cfg /\
  Z.max (_uploadStartDate cfg) (firstKey (Current_log w))
    < _lastSent u' + _interval cfg.
Proof.
  intros Hreq Hready Hcode Hint Hls Hstart Hfirst u' parsed m.
  subst u'. rewrite (checkQuery_success w cfg u request Hreq Hready Hcode).
  cbn [fst]. fold parsed.
  assert (Hp : 0 <= parsed < 2 ^ 32).
  { subst parsed. apply query_watermark_lastSent. exact Hls. }
  rewrite !MAX_max.
  rewrite <- (Z.max_assoc parsed). fold m.
  assert (Hm : 0 <= m < 2 ^ 32).
  { unfold m. split.
    - apply Z.max_le_iff. left. apply Hp.
    - apply Z.max_lub_lt; [apply Hp|]. apply Z.max_lub_lt; [apply Hstart | apply Hfirst]. }
  pose proof (Z.mod_pos_bound m (_interval cfg) Hint) as Hmod.
  pose proof (Z.mod_le m (_interval cfg) (proj1 Hm) Hint) as Hle.
  assert (Hfloor : m - m mod _interval cfg
                   = _interval cfg * (m / _interval cfg)).
  { pose proof (Z.div_mod m (_interval cfg)). lia. }
  assert (Hls' : _lastSent
                   (set_state write_s
                      (set_request None
                         (set_lastSent (wrap32 (m - m mod _interval cfg))
                            (query_watermark (responseText request)
                               (set_statusMessage None u)))))
                 = m - m mod _interval cfg).
  { unfold set_state, set_request. cbn [_lastSent set_lastSent].
    apply wrap32_small. lia. }
  rewrite Hls'.
  split; [reflexivity|].
  split.
  { rewrite Hfloor, Z.mul_comm. apply Z.mod_mul. lia. }
  split; [reflexivity|].
  split; [lia|].
  pose proof (Z.le_max_r parsed
                (Z.max (_uploadStartDate cfg) (firstKey (Current_log w)))).
  fold m in H. lia.
Qed.

(** The theorem at the query answer "[]" with start date 100, first log
    key 0 and interval 60. *)
Lemma resume_watermark_aligned_witness :
  let cfg := config_of outputs1 60 1 100 in
  let w := world_of (log_of 60 0 600 1000000) 5000 in
  let u := set_request (response 200 "[]") fresh in
  _lastSent (fst (fst (handle_checkQuery_s w cfg u))) mod 60 = 0 /\
  100 < _lastSent (fst (fst (handle_checkQuery_s w cfg u))) + 60.
Proof.
  intros cfg w u.
  pose proof (resume_watermark_aligned w cfg u (mkRequest 4 200 "[]")
                eq_refl eq_refl eq_refl eq_refl
                ltac:(vm_compute; split; congruence)
                ltac:(vm_compute; split; congruence)
                ltac:(vm_compute; split; congruence))
    as (_ & Hmod & _ & _ & Hlow).
  split; [exact Hmod | exact Hlow].
Defined.

(** C1 as stated fails: with start date 100, first log key 0 and interval
    60 the resume watermark is 60, below the start date. *)
Lemma resume_watermark_below_start :
  let cfg := config_of outputs1 60 1 100 in
  let w := world_of (log_of 60 0 600 1000000) 5000 in
  let u := set_request (response 200 "[]") fresh in
  _lastSent (fst (fst (handle_checkQuery_s w cfg u))) = 60 /\
  Z.max (_uploadStartDate cfg) (firstKey (Current_log w)) = 100 /\
  ~ (Z.max (_uploadStartDate cfg) (firstKey (Current_log w))
     <= _lastSent (fst (fst (handle_checkQuery_s w cfg u)))).
Proof.
  vm_compute. repeat split; try reflexivity. intros H. apply H. reflexivity.
Qed.

(* ===================================================================== *)
(** ** Settle: [handle_checkQuery_s] and [handle_checkWrite_s] before the
       request has completed *)
(* ===================================================================== *)

(** C7 (as amended).  With the transport state missing or the request not
    yet complete, the settle step after a query waits: it returns 10 and
    leaves the uploader as it is.  The settle step after a write waits in
    the same way only when the transport state is missing; a request that
    is present and not complete is handled as a failed submit: the request
    is deleted, the phase becomes Write, [_lastSent] stays, and the step
    returns a backoff of ten seconds. *)
Theorem settle_before_completion
  {host : Host} (w : world) (cfg : config) (u : uploader) :
  incomplete u ->
  handle_checkQuery_s w cfg u = (u, 10, []) /\
  match _request u with
  | None => handle_checkWrite_s w u = (u, 10, [])
  | Some _ =>
      handle_checkWrite_s w u =
      (set_state write_s (set_request None u), wrap32 (UTCtime w + 10), [])
      /\ _lastSent (fst (fst (handle_checkWrite_s w u))) = _lastSent u
  end.
Proof.
  unfold incomplete, handle_checkQuery_s, handle_checkWrite_s.
  destruct (_request u) as [request|]; [|intros _; split; reflexivity].
  intros Hready.
  assert (Hneq : (readyState request =? 4) = false) by (apply Z.eqb_neq; exact Hready).
  rewrite Hneq. cbn [negb]. repeat split; reflexivity.
Qed.

Lemma settle_before_completion_witness :
  let w := world_of (log_of 60 0 600 1000000) 5000 in
  let cfg := config_of outputs1 60 1 0 in
  let u := set_state checkQuery_s (set_request (Some (mkRequest 1 0 "")) fresh) in
  handle_checkQuery_s w cfg u = (u, 10, []).
Proof.
  intros w cfg u.
  exact (proj1 (settle_before_completion w cfg u
                  ltac:(vm_compute; congruence))).
Defined.

(** C7 as stated fails for the settle step after a write: a request that
    is present with [readyState] 1 is deleted and the phase changes. *)
Lemma settle_write_discards_incomplete :
  let w := world_of (log_of 60 0 600 1000000) 5000 in
  let cfg := config_of outputs1 60 1 0 in
  let u := set_state checkWrite_s (set_request (Some (mkRequest 1 0 "")) fresh) in
  let u' := fst (fst (handle_checkWrite_s w u)) in
  _request u <> None /\ _request u' = None /\
  _state u = checkWrite_s /\ _state u' = write_s /\
  snd (fst (handle_checkWrite_s w u)) = 5010.
Proof. vm_compute. repeat split; congruence. Qed.

(* ===================================================================== *)
(** ** Row assembly appends to the buffer *)
(* ===================================================================== *)

Section Rows.
Context {host : Host}.
Variables (w : world) (cfg : config).

Lemma null_fill_eq (n : nat) (buf : string) (i : nat) :
  null_fill cfg n buf i = (buf ++ nulls (_unit_active cfg) n i, (i + n)%nat).
Proof.
  revert buf i. induction n as [|n IH]; intros buf i; simpl.
  - rewrite append_nil_r. f_equal. lia.
  - rewrite IH. f_equal; [|lia].
    destruct (nth i (_unit_active cfg) false); simpl;
      [now rewrite append_assoc | reflexivity].
Qed.

Lemma fill_nulls_eq (buf : string) (i bound : nat) :
  fill_nulls cfg buf i bound =
  (buf ++ nulls (_unit_active cfg) (bound - i) i, (i + (bound - i))%nat).
Proof. apply null_fill_eq. Qed.

Lemma script_step_extends (ts : string) (o n : IotaLogRecord) (c : cursor)
  (script : Script) :
  exists s, c_buf (script_step w cfg ts o n c script) = c_buf c ++ s.
Proof.
  unfold script_step.
  destruct (deq _ _); [|exists ""; now rewrite append_nil_r].
  destruct (negb _);
    repeat (rewrite fill_nulls_eq; cbn [c_buf c_unitIndex]);
    destruct (Nat.eqb _ _); cbn [c_buf]; rewrite ?append_assoc;
    eexists; reflexivity.
Qed.

Lemma scripts_extend (ts : string) (o n : IotaLogRecord)
  (scripts : list Script) (c : cursor) :
  exists s,
    c_buf (fold_left (script_step w cfg ts o n) scripts c) = c_buf c ++ s.
Proof.
  revert c. induction scripts as [|script scripts IH]; intros c; simpl.
  - exists "". now rewrite append_nil_r.
  - destruct (IH (script_step w cfg ts o n c script)) as [s2 H2].
    destruct (script_step_extends ts o n c script) as [s1 H1].
    exists (s1 ++ s2). now rewrite H2, H1, append_assoc.
Qed.

(** The rows of a pair start with a line feed: the buffer grows. *)
Lemma assemble_rows_grows (o n : IotaLogRecord) (buf buf' : string) :
  assemble_rows w cfg o n buf = Some buf' ->
  available buf < available buf'.
Proof.
  unfold assemble_rows. destruct (_outputs cfg) as [|script scripts] eqn:E;
    [discriminate|].
  cbv zeta. intros H. injection H as <-.
  rewrite fill_nulls_eq. cbn [fst].
  destruct (scripts_extend (datef (UNIXtime o) "YYYY-MM-DDThh:mm:ssZ") o n
              (script :: scripts)
              (mkCursor
                 (buf ++ row_start w cfg
                    (datef (UNIXtime o) "YYYY-MM-DDThh:mm:ssZ") (name script))
                 (name script) 0)) as [s Hs].
  cbn [fold_left] in Hs |- *. rewrite Hs. cbn [c_buf]. unfold row_start.
  rewrite !available_append.
  assert (available nl = 1) by reflexivity.
  repeat match goal with
         | |- context [available ?x] =>
             lazymatch goal with
             | _ : 0 <= available x |- _ => fail
             | _ => pose proof (available_nonneg x)
             end
         end.
  lia.
Qed.

Lemma assemble_rows_defined (o n : IotaLogRecord) (buf : string) :
  _outputs cfg <> [] -> exists buf', assemble_rows w cfg o n buf = Some buf'.
Proof.
  unfold assemble_rows. destruct (_outputs cfg); [congruence|].
  intros _. eexists. reflexivity.
Qed.

End Rows.

(* ===================================================================== *)
(** ** The batch loop of [handle_write_s] *)
(* ===================================================================== *)

Section Loop.
Context {host : Host}.
Variables (w : world) (cfg : config).

Lemma last_cons (t d : Z) (l : list Z) : last (t :: l) d = last l t.
Proof.
  revert t d. induction l as [|x l IH]; intros t d; [reflexivity|].
  change (last (t :: x :: l) d) with (last (x :: l) d).
  now rewrite (IH x d), (IH x t).
Qed.

Lemma loop_post_refl (u : uploader) (recs : IotaLogRecord * IotaLogRecord)
  (tr : list event) :
  row_times tr = [] -> posts tr = [] ->
  loop_post w u (set_records (Some recs) u) tr.
Proof.
  intros Hrows Hposts. unfold loop_post. cbn. rewrite Hrows.
  repeat split; try reflexivity; try assumption; try congruence.
  - intros t Hin. exfalso.
    assert (In t (row_times tr)).
    { clear - Hin. induction tr as [|e tr IH]; [contradiction|].
      destruct Hin as [->|Hin]; [now left|].
      destruct e; simpl; auto. }
    rewrite Hrows in H. contradiction.
  - exists "". now rewrite append_nil_r.
Qed.

Lemma loop_post_step (u u' : uploader) (key t : Z) (buf : string)
  (tr : list event) :
  t < lastKey (Current_log w) ->
  available (reqData u) < available buf ->
  (exists s, buf = reqData u ++ s) ->
  loop_post w (set_lastPost t (set_reqData buf u)) u' tr ->
  loop_post w u u' ([readKey_call key; row t] ++ tr).
Proof.
  intros Ht Hgrow [s0 Hs0] (Hst & Hls & Hsp & Hrq & Hsm & Hlp & Hrows & Hposts
                             & Hrec & [s Hs] & _).
  cbn in Hst, Hls, Hsp, Hrq, Hsm, Hlp, Hs.
  unfold loop_post. cbn [app row_times posts].
  rewrite last_cons.
  repeat split; try assumption.
  - intros t' [Hin|[Hin|Hin]]; [discriminate| |now apply Hrows].
    injection Hin as <-. exact Ht.
  - exists (s0 ++ s). now rewrite Hs, Hs0, append_assoc.
  - discriminate.
Qed.

Lemma assemble_rows_extends (o n : IotaLogRecord) (buf buf' : string) :
  assemble_rows w cfg o n buf = Some buf' -> exists s, buf' = buf ++ s.
Proof.
  unfold assemble_rows. destruct (_outputs cfg) as [|script scripts];
    [discriminate|].
  cbv zeta. intros H. injection H as <-.
  rewrite fill_nulls_eq. cbn [fst].
  destruct (scripts_extend w cfg (datef (UNIXtime o) "YYYY-MM-DDThh:mm:ssZ")
              o n (script :: scripts)
              (mkCursor
                 (buf ++ row_start w cfg
                    (datef (UNIXtime o) "YYYY-MM-DDThh:mm:ssZ") (name script))
                 (name script) 0)) as [s Hs].
  cbn [fold_left] in Hs |- *. rewrite Hs. cbn [c_buf].
  rewrite !append_assoc. eexists. reflexivity.
Qed.

(** The loop ends, and [loop_post] holds of how it ends; it stops on the
    null script only when the script list is empty. *)
Lemma write_loop_post (fuel k : nat) (u : uploader) (o n : IotaLogRecord) :
  uploaderBufferLimit - available (reqData u) <= Z.of_nat fuel ->
  match write_loop w cfg fuel k u o n with
  | Returned u' _ tr => loop_post w u u' tr
  | Finished u' tr => loop_post w u u' tr
  | Crashed => _outputs cfg = []
  | OutOfFuel => False
  end.
Proof.
  revert k u o n. induction fuel as [|fuel IH]; intros k u o n Hfuel;
    cbn [write_loop];
    destruct ((available (reqData u) <? uploaderBufferLimit) &&
              (UNIXtime n <? lastKey (Current_log w))) eqn:Hcond;
    try (apply loop_post_refl; reflexivity).
  - apply andb_prop in Hcond as [Hlim _]. apply Z.ltb_lt in Hlim. lia.
  - apply andb_prop in Hcond as [Hlim Hkey].
    apply Z.ltb_lt in Hlim. apply Z.ltb_lt in Hkey.
    destruct (micros w k >? bingoTime w);
      [apply loop_post_refl; reflexivity|].
    destruct (deq _ dzero); [apply loop_post_refl; reflexivity|].
    destruct (assemble_rows w cfg n _ (reqData u)) as [buf|] eqn:Hrows.
    + pose proof (assemble_rows_grows w cfg _ _ _ _ Hrows) as Hgrow.
      pose proof (assemble_rows_extends _ _ _ _ Hrows) as Hext.
      specialize (IH (S k) (set_lastPost (UNIXtime n) (set_reqData buf u))
                     n (readKey (Current_log w)
                          (wrap32 (UNIXtime n + _interval cfg)))).
      cbn [reqData set_lastPost set_reqData] in IH.
      specialize (IH ltac:(lia)).
      destruct (write_loop w cfg fuel (S k) _ n _) as [u' r tr|u' tr| |];
        cbn [after]; try exact IH;
        eapply loop_post_step; eassumption.
    + destruct (_outputs cfg) eqn:E; [reflexivity|].
      destruct (assemble_rows_defined w cfg n
                  (readKey (Current_log w) (wrap32 (UNIXtime n + _interval cfg)))
                  (reqData u)) as [b Hb]; [congruence|].
      rewrite Hb in Hrows. discriminate.
Qed.

End Loop.

(* ===================================================================== *)
(** ** One call of [handle_write_s] *)
(* ===================================================================== *)

Section Write.
Context {host : Host}.
Variables (w : world) (cfg : config).

Lemma row_times_app (a b : list event) :
  row_times (a ++ b) = (row_times a ++ row_times b)%list.
Proof.
  induction a as [|e a IH]; [reflexivity|].
  destruct e; simpl; now rewrite ?IH.
Qed.

Lemma posts_app (a b : list event) :
  posts (a ++ b) = (posts a ++ posts b)%list.
Proof.
  induction a as [|e a IH]; [reflexivity|].
  destruct e; simpl; now rewrite ?IH.
Qed.

Lemma with_header_fields (u : uploader) :
  _state (with_header cfg u) = _state u /\
  _lastSent (with_header cfg u) = _lastSent u /\
  _stop (with_header cfg u) = _stop u /\
  _request (with_header cfg u) = _request u /\
  _statusMessage (with_header cfg u) = _statusMessage u /\
  _lastPost (with_header cfg u) = _lastPost u /\
  records (with_header cfg u) = records u.
Proof.
  unfold with_header. destruct (_ =? 0); repeat split; reflexivity.
Qed.

Lemma write_loop_fuel_enough (u : uploader) :
  uploaderBufferLimit - available (reqData u)
  <= Z.of_nat (write_loop_fuel u).
Proof. unfold write_loop_fuel. lia. Qed.

Lemma in_row_reads (key t : Z) (o : option (IotaLogRecord * IotaLogRecord))
  (tr : list event) :
  In (row t)
     (match o with Some _ => [] | None => [readKey_call key] end ++ tr) ->
  In (row t) tr.
Proof.
  destruct o; simpl; [tauto|]. intros [H|H]; [discriminate | exact H].
Qed.

(** What one call does to the watermark, its candidate and the trace. *)
Lemma handle_write_s_post (u u' : uploader) (r : Z) (tr : list event) :
  handle_write_s w cfg u = Some (u', r, tr) ->
  _lastSent u' = _lastSent u /\
  _stop u' = _stop u /\
  _lastPost u' = last (row_times tr) (_lastPost u) /\
  (forall t, In (row t) tr -> t < lastKey (Current_log w)) /\
  (posts tr <> [] ->
   records u' = None /\ _stop u = false /\
   dataThreshold cfg u <= lastKey (Current_log w)) /\
  (_stop u = false -> lastKey (Current_log w) < dataThreshold cfg u ->
   tr = [] /\ r = wrap32 (UTCtime w + 1) /\ reqData u' = reqData u /\
   records u' = None) /\
  (_stop u = false -> dataThreshold cfg u <= lastKey (Current_log w) ->
   records u = None ->
   exists tr', tr = readKey_call (first_key cfg u) :: tr').
Proof.
  unfold handle_write_s.
  destruct (_stop u) eqn:Hstop.
  { intros H. injection H as <- <- <-. cbn.
    repeat split; try congruence; try tauto.
    intros t [H|[]]. discriminate. }
  destruct (lastKey (Current_log w) <? dataThreshold cfg u) eqn:Hthr.
  { apply Z.ltb_lt in Hthr. intros H. injection H as <- <- <-.
    destruct (records u) eqn:Hr; cbn; repeat split; try congruence;
      try tauto; try lia. }
  apply Z.ltb_ge in Hthr.
  fold (with_header cfg u).
  destruct (with_header_fields u) as (Hst & Hls & Hsp & Hrq & Hsm & Hlp & Hrc).
  set (reads := match records u with
                | Some _ => []
                | None => [readKey_call (first_key cfg u)]
                end).
  assert (Hreads : row_times reads = [] /\ posts reads = []).
  { subst reads. destruct (records u); split; reflexivity. }
  destruct Hreads as [Hrr Hrp].
  assert (Hshape : exists o n,
             (match records u with
              | Some (oldRec, newRec) => (oldRec, newRec, [])
              | None =>
                  (IotaLogRecord_new,
                   readKey (Current_log w) (wrap32 (_lastSent u + _interval cfg)),
                   [readKey_call (wrap32 (_lastSent u + _interval cfg))])
              end) = (o, n, reads)).
  { subst reads. destruct (records u) as [[o n]|]; eexists; eexists;
      reflexivity. }
  destruct Hshape as (o & n & ->).
  pose proof (write_loop_post w cfg (write_loop_fuel (with_header cfg u)) 0
                (with_header cfg u) o n
                (write_loop_fuel_enough (with_header cfg u))) as Hloop.
  destruct (write_loop w cfg _ 0 (with_header cfg u) o n)
    as [u1 r1 tr1|u1 tr1| |]; cbn [after]; try discriminate.
  - destruct Hloop as (_ & Hls1 & Hsp1 & _ & _ & Hlp1 & Hrows & Hposts & Hrec & _).
    intros H. injection H as <- <- <-.
    rewrite row_times_app, posts_app, Hrr, Hrp, Hposts. cbn [app].
    repeat split; try congruence; try lia.
    + intros t Hin. apply Hrows. subst reads.
      eapply in_row_reads. exact Hin.
    + intros _ _ Hnone. subst reads. rewrite Hnone. eexists. reflexivity.
  - destruct Hloop as (_ & Hls1 & Hsp1 & _ & _ & Hlp1 & Hrows & Hposts & Hrec & _).
    destruct (available (reqData (set_reqData (reqData u1 ++ nl) u1)) <=? 1);
      intros H; injection H as <- <- <-;
      rewrite ?row_times_app, ?posts_app, ?Hrr, ?Hrp, ?Hposts;
      cbn [app row_times posts]; rewrite ?app_nil_r;
      repeat split; try (cbn; congruence); try lia.
    + intros t Hin. apply Hrows. subst reads. eapply in_row_reads. exact Hin.
    + intros _ _ Hnone. subst reads. rewrite Hnone. eexists. reflexivity.
    + intros t Hin. apply in_app_or in Hin as [Hin|[Hin|[]]]; [|discriminate].
      apply Hrows. subst reads. eapply in_row_reads. exact Hin.
    + intros _ _ Hnone. subst reads. rewrite Hnone. eexists. reflexivity.
Qed.

(** With a script to start from, the call returns. *)
Lemma handle_write_s_returns (u : uploader) :
  _outputs cfg <> [] -> exists res, handle_write_s w cfg u = Some res.
Proof.
  intros Hout. unfold handle_write_s.
  destruct (_stop u); [eexists; reflexivity|].
  destruct (_ <? _); [eexists; reflexivity|].
  fold (with_header cfg u).
  destruct (match records u with
            | Some (oldRec, newRec) => (oldRec, newRec, [])
            | None => _
            end) as [[o n] reads].
  pose proof (write_loop_post w cfg (write_loop_fuel (with_header cfg u)) 0
                (with_header cfg u) o n
                (write_loop_fuel_enough (with_header cfg u))) as Hloop.
  destruct (write_loop w cfg _ 0 (with_header cfg u) o n)
    as [u1 r1 tr1|u1 tr1| |]; cbn [after];
    try contradiction; try (eexists; reflexivity).
  destruct (_ <=? 1); eexists; reflexivity.
Qed.

End Write.

(* ===================================================================== *)
(** ** Submit and settle *)
(* ===================================================================== *)

Lemma last_app_single (l : list Z) (t d : Z) : last (l ++ [t]) d = t.
Proof. apply last_last. Qed.

Lemma write_calls_post {host : Host} (cfg : config) (ws : list world)
  (u u' : uploader) (tr : list event) :
  write_calls cfg ws u = Some (u', tr) ->
  _lastSent u' = _lastSent u /\
  _lastPost u' = last (row_times tr) (_lastPost u).
Proof.
  revert u u' tr. induction ws as [|w ws IH]; intros u u' tr; simpl.
  - intros H. injection H as <- <-. split; reflexivity.
  - destruct (handle_write_s w cfg u) as [[[u1 r1] tr1]|] eqn:Hcall;
      [|discriminate].
    destruct (handle_write_s_post w cfg u u1 r1 tr1 Hcall)
      as (Hls & _ & Hlp & _).
    destruct (posts tr1).
    + destruct (write_calls cfg ws u1) as [[u2 tr2]|] eqn:Hrest;
        [|discriminate].
      intros H. injection H as <- <-.
      destruct (IH _ _ _ Hrest) as [Hls2 Hlp2].
      split; [congruence|].
      rewrite Hlp2, Hlp, row_times_app.
      clear. generalize (_lastPost u). 
      induction (row_times tr1) as [|x l IHl]; intros d; [reflexivity|].
      change ((x :: l) ++ row_times tr2)%list
        with (x :: (l ++ row_times tr2))%list.
      now rewrite !last_cons, IHl.
    + intros H. injection H as <- <-. split; assumption.
Qed.

(** A batch with a row.  Take the Write calls of a batch, up to the one
    that submits, and let [t] be the timestamp of the newest row they
    assembled (the [UNIXtime] of the old record of the last pair that
    gave rows).  When the request completes with code 201, the settle
    step sets [_lastSent] to [t] and returns to Write.  A submit without
    a row is the failing input of C2, after that of C5 below. *)
Theorem created_advances_to_newest_row
  {host : Host} (cfg : config) (ws : list world) (w' : world)
  (u u1 : uploader) (tr : list event) (rows : list Z) (t : Z)
  (request : asyncHTTPrequest) :
  write_calls cfg ws u = Some (u1, tr) ->
  posts tr <> [] ->
  row_times tr = (rows ++ [t])%list ->
  readyState request = 4 ->
  responseHTTPcode request = 201 ->
  let u2 := fst (fst (handle_checkWrite_s w' (transport (Some request) u1))) in
  _lastSent u2 = t /\ _state u2 = write_s /\ _lastPost u1 = t.
Proof.
  intros Hcalls _ Hrows Hready Hcode u2.
  destruct (write_calls_post cfg ws u u1 tr Hcalls) as [_ Hlp].
  rewrite Hrows, last_app_single in Hlp.
  subst u2. unfold handle_checkWrite_s, transport.
  cbn [_request set_state set_request set_reqData].
  rewrite Hready, Hcode. cbn. auto.
Qed.

(** C3.  When the request of a submit fails, the settle step leaves
    [_lastSent] as the Write call found it and returns to Write with no
    record cursors; the next Write call, once the log is at least as long
    as it was, allocates them again and reads first the record at
    [_lastSent + _interval]. *)
Theorem failed_submit_resends
  {host : Host} (cfg : config) (w w2 w3 : world)
  (u u1 : uploader) (r : Z) (tr : list event) (request : asyncHTTPrequest) :
  handle_write_s w cfg u = Some (u1, r, tr) ->
  posts tr <> [] ->
  failed request ->
  lastKey (Current_log w) <= lastKey (Current_log w3) ->
  _outputs cfg <> [] ->
  let u2 := fst (fst (handle_checkWrite_s w2 (transport (Some request) u1))) in
  _lastSent u2 = _lastSent u1 /\
  _lastSent u1 = _lastSent u /\
  _state u2 = write_s /\
  records u2 = None /\
  exists u3 r3 tr3,
    handle_write_s w3 cfg u2 =
    Some (u3, r3, readKey_call (wrap32 (_lastSent u + _interval cfg)) :: tr3).
Proof.
  intros Hcall Hposts Hfailed Hlog Hout u2.
  destruct (handle_write_s_post w cfg u u1 r tr Hcall)
    as (Hls & Hsp & _ & _ & Hsub & _).
  destruct (Hsub Hposts) as (Hrec & Hstop & Hthr).
  assert (Hu2 : _lastSent u2 = _lastSent u /\ _state u2 = write_s /\
                records u2 = None /\ _stop u2 = false).
  { subst u2. unfold handle_checkWrite_s, transport, failed in *.
    cbn [_request set_state set_request set_reqData].
    destruct (readyState request =? 4) eqn:Hready; cbn [negb].
    - apply Z.eqb_eq in Hready. specialize (Hfailed Hready).
      apply Z.eqb_neq in Hfailed. rewrite Hfailed. cbn.
      repeat split; congruence.
    - cbn. repeat split; congruence. }
  destruct Hu2 as (Hls2 & Hst2 & Hrec2 & Hstop2).
  repeat split; try assumption; try congruence.
  destruct (handle_write_s_returns w3 cfg u2 Hout) as [[[u3 r3] tr3] Hnext].
  destruct (handle_write_s_post w3 cfg u2 u3 r3 tr3 Hnext)
    as (_ & _ & _ & _ & _ & _ & Hfirst).
  destruct Hfirst as [tr' ->]; try assumption.
  - unfold dataThreshold in *. rewrite Hls2. lia.
  - exists u3, r3, tr'. rewrite Hnext. unfold first_key. now rewrite Hls2.
Qed.

(** C6 (as amended).  Every row a Write call appends carries a timestamp
    below the last key of the log: the loop runs while the newest record
    read is below [Current_log.lastKey()] and the buffer is below its
    limit.  The data threshold only gates the call: when the last key is
    below it the call defers, with no read, no row and no submit. *)
Theorem rows_below_lastKey
  {host : Host} (w : world) (cfg : config) (u u' : uploader) (r : Z)
  (tr : list event) :
  handle_write_s w cfg u = Some (u', r, tr) ->
  _stop u = false ->
  (forall t, In (row t) tr -> t < lastKey (Current_log w)) /\
  (lastKey (Current_log w) < dataThreshold cfg u ->
   tr = [] /\ r = wrap32 (UTCtime w + 1) /\ reqData u' = reqData u /\
   _lastSent u' = _lastSent u).
Proof.
  intros Hcall Hstop.
  destruct (handle_write_s_post w cfg u u' r tr Hcall)
    as (Hls & _ & _ & Hrows & _ & Hdefer & _).
  split; [exact Hrows|].
  intros Hthr. destruct (Hdefer Hstop Hthr) as (-> & -> & Hbuf & _).
  repeat split; assumption.
Qed.

(** The end-to-end scenario of a log at 0, 60, 120, 180 with interval 60
    and bulk factor 2: after code 201 the watermark is 120, the timestamp
    of the newest row, while the data threshold of the batch is 180. *)
Lemma created_advances_to_newest_row_witness :
  exists u1 tr,
    write_calls cfg2 [w180] start = Some (u1, tr) /\
    _lastSent (fst (fst (handle_checkWrite_s w180
                           (transport (response 201 "") u1)))) = 120 /\
    dataThreshold cfg2 start = 180.
Proof.
  eexists. eexists.
  refine ((fun H =>
             conj H (conj (proj1 (created_advances_to_newest_row
                                    cfg2 [w180] w180 start
                                    _ _ [60] 120 (mkRequest 4 201 "")
                                    H _ _ eq_refl eq_refl)) eq_refl)) _).
  3: vm_compute; reflexivity.
  - vm_compute. congruence.
  - vm_compute. reflexivity.
Defined.

(** The same scenario with the answer 500 "db error": the watermark stays
    0 and the next Write call reads the record at 60 first. *)
Lemma failed_submit_resends_witness :
  exists u1 tr,
    handle_write_s w180 cfg2 start = Some (u1, 1, tr) /\
    let u2 := fst (fst (handle_checkWrite_s w180
                          (transport (response 500 "db error") u1))) in
    _lastSent u2 = 0 /\
    exists u3 r3 tr3,
      handle_write_s w180 cfg2 u2 = Some (u3, r3, readKey_call 60 :: tr3).
Proof.
  eexists. eexists.
  refine ((fun H =>
             conj H
               ((fun T => conj (eq_trans (proj1 T) (proj1 (proj2 T)))
                               (proj2 (proj2 (proj2 (proj2 T)))))
                  (failed_submit_resends
                     cfg2 w180 w180 w180 start _ 1 _
                     (mkRequest 4 500 "db error") H _ _ _ _))) _).
  5: vm_compute; reflexivity.
  - vm_compute. congruence.
  - unfold failed. vm_compute. congruence.
  - vm_compute. congruence.
  - vm_compute. congruence.
Defined.

Lemma rows_below_lastKey_witness :
  exists u1 tr,
    handle_write_s w600 cfg1 start = Some (u1, 1, tr) /\
    forall t, In (row t) tr -> t < 600.
Proof.
  eexists. eexists.
  refine ((fun H =>
             conj H (proj1 (rows_below_lastKey w600 cfg1 start _ 1 _
                              H eq_refl))) _).
  vm_compute. reflexivity.
Defined.

(** C6 as stated fails: with [_lastSent] 0, interval 60 and bulk factor 1
    the data threshold is 120, and on a log that reaches 600 one Write
    call appends rows up to timestamp 540 and reads the record at 600. *)
Lemma rows_beyond_threshold :
  dataThreshold cfg1 start = 120 /\
  row_times (trace_of (handle_write_s w600 cfg1 start))
  = [60; 120; 180; 240; 300; 360; 420; 480; 540] /\
  In (readKey_call 600) (trace_of (handle_write_s w600 cfg1 start)) /\
  posts (trace_of (handle_write_s w600 cfg1 start)) <> [] /\
  ~ (540 <= dataThreshold cfg1 start).
Proof.
  vm_compute. repeat split; try congruence.
  do 17 right. left. reflexivity.
Qed.

(* ===================================================================== *)
(** ** A pair with no elapsed hours *)
(* ===================================================================== *)

(** One iteration of the loop on such a pair. *)
Lemma zero_elapsed_iteration
  {host : Host} (w : world) (cfg : config) (fuel k : nat) (u : uploader)
  (o n : IotaLogRecord) :
  let key := wrap32 (UNIXtime n + _interval cfg) in
  let n' := readKey (Current_log w) key in
  available (reqData u) < uploaderBufferLimit ->
  UNIXtime n < lastKey (Current_log w) ->
  micros w k <= bingoTime w ->
  deq (dsub (logHours n') (logHours n)) dzero = true ->
  exists r,
    write_loop w cfg (S fuel) k u o n
    = Returned (set_records (Some (n, n')) u) r [readKey_call key] /\
    (r = 1 \/ r = wrap32 (UTCtime w + 1)).
Proof.
  intros key n' Hbuf Hkey Hclock Hzero.
  cbn [write_loop].
  apply Z.ltb_lt in Hbuf. apply Z.ltb_lt in Hkey. rewrite Hbuf, Hkey.
  cbn [andb].
  assert (Hc : (micros w k >? bingoTime w) = false).
  { destruct (Z.gtb_spec (micros w k) (bingoTime w)); [lia | reflexivity]. }
  rewrite Hc. fold key. fold n'. rewrite Hzero.
  eexists. split; [reflexivity|].
  destruct (_ <=? _); [left | right]; reflexivity.
Qed.

(** C10.  In an iteration of the batch loop whose pair has
    [new.logHours - old.logHours] equal to zero, nothing is printed: the
    iteration returns from the loop with [reqData] as it was, no row and
    no submit, and a delay of 1 or of [UTCtime() + 1] for the caller to
    come back.  So does the call of [handle_write_s] that resumes on such
    a pair: its buffer is the one it was called with (with the header, if
    it was empty), and nothing is submitted. *)
Theorem zero_elapsed_pair_emits_nothing
  {host : Host} (w : world) (cfg : config) (fuel k : nat) (u : uploader)
  (o n : IotaLogRecord) :
  let key := wrap32 (UNIXtime n + _interval cfg) in
  let n' := readKey (Current_log w) key in
  available (reqData u) < uploaderBufferLimit ->
  UNIXtime n < lastKey (Current_log w) ->
  micros w k <= bingoTime w ->
  deq (dsub (logHours n') (logHours n)) dzero = true ->
  (exists u' r tr,
     write_loop w cfg (S fuel) k u o n = Returned u' r tr /\
     reqData u' = reqData u /\
     row_times tr = [] /\ posts tr = [] /\
     _lastPost u' = _lastPost u /\ _lastSent u' = _lastSent u /\
     (r = 1 \/ r = wrap32 (UTCtime w + 1))) /\
  (k = 0%nat -> records u = Some (o, n) -> _stop u = false ->
   dataThreshold cfg u <= lastKey (Current_log w) ->
   0 < available (reqData u) ->
   exists u' r tr,
     handle_write_s w cfg u = Some (u', r, tr) /\
     reqData u' = reqData u /\
     row_times tr = [] /\ posts tr = [] /\
     _lastPost u' = _lastPost u /\ _lastSent u' = _lastSent u /\
     (r = 1 \/ r = wrap32 (UTCtime w + 1))).
Proof.
  intros key n' Hbuf Hkey Hclock Hzero. split.
  - destruct (zero_elapsed_iteration w cfg fuel k u o n Hbuf Hkey Hclock Hzero)
      as (r & Hloop & Hr).
    eexists. eexists. eexists. split; [exact Hloop|]. repeat split. exact Hr.
  - intros -> Hrec Hstop Hthr Havail.
    unfold handle_write_s. rewrite Hstop, Hrec.
    apply Z.ltb_ge in Hthr. rewrite Hthr.
    assert (Hne : (available (reqData u) =? 0) = false)
      by (apply Z.eqb_neq; lia).
    rewrite Hne.
    assert (Hfuel : exists f, write_loop_fuel u = S f).
    { unfold write_loop_fuel.
      destruct (Z.to_nat (uploaderBufferLimit - available (reqData u)))
        eqn:E; [lia | eexists; reflexivity]. }
    destruct Hfuel as [f ->].
    destruct (zero_elapsed_iteration w cfg f 0 u o n Hbuf Hkey Hclock Hzero)
      as (r & Hloop & Hr).
    fold key in Hloop. fold n' in Hloop. rewrite Hloop. cbn [after app].
    eexists. eexists. eexists. split; [reflexivity|]. repeat split. exact Hr.
Qed.

(** The theorem at the first pair of the stalled log: the records at 60
    and 120 have the same [logHours]. *)
Lemma zero_elapsed_pair_emits_nothing_witness :
  exists u' r tr,
    write_loop w_stalled cfg1 1 0 (with_header cfg1 start)
               IotaLogRecord_new (readKey (Current_log w_stalled) 60)
    = Returned u' r tr /\
    reqData u' = reqData (with_header cfg1 start) /\ row_times tr = [].
Proof.
  pose proof (zero_elapsed_pair_emits_nothing w_stalled cfg1 0 0
                (with_header cfg1 start) IotaLogRecord_new
                (readKey (Current_log w_stalled) 60)) as T.
  cbv zeta in T.
  destruct (proj1 (T ltac:(vm_compute; reflexivity)
                     ltac:(vm_compute; reflexivity)
                     ltac:(vm_compute; congruence)
                     ltac:(vm_compute; reflexivity)))
    as (u' & r & tr & H & Hbuf & Hrows & _).
  exists u', r, tr. repeat split; assumption.
Defined.

(* ===================================================================== *)
(** ** A buffer that holds the header and no row *)
(* ===================================================================== *)

(** C5, the code at the failing input.  On the stalled log the first
    Write call prints the header and returns on the pair without elapsed
    hours; the second call finds the newest record at the last key, skips
    the loop, and submits the header line alone: the test
    [reqData.available() <= 1] does not count the header. *)
Lemma header_only_submit :
  let u1 := state_of start (handle_write_s w_stalled cfg1 start) in
  handle_write_s w_stalled cfg1 start
  = Some (u1, 5001, [readKey_call 60; readKey_call 120]) /\
  reqData u1 = _CSVheader cfg1 /\
  _CSVheader cfg1 = "timestamp,device,sensor,Watts" /\
  row_times (trace_of (handle_write_s w_stalled cfg1 u1)) = [] /\
  trace_of (handle_write_s w_stalled cfg1 u1)
  = [HTTPPost "/power" checkWrite_s "text/csv" (_CSVheader cfg1 ++ nl)].
Proof. vm_compute. repeat split. Qed.

(** C2, the code at the failing input.  With start date 6000 the query
    answered by the empty array resolves the watermark to 6000, and
    [_lastPost] is still 0.  On the log that stands still from 6060 on,
    the first Write call returns on the pair without elapsed hours, the
    second submits the header line alone, and no row was assembled.  The
    settle step on code 201 then sets [_lastSent] to [_lastPost]: the
    watermark falls back from 6000 to 0, the timestamp of no row of the
    batch. *)
Lemma watermark_falls_back_after_header_only_submit :
  let u0 := fst (fst (handle_checkQuery_s w6120_stalled cfg6000
                        (set_request (response 200 "[]")
                           (fst (fst (handle_query_s w6120_stalled cfg6000
                                        fresh)))))) in
  let u1 := state_of u0 (handle_write_s w6120_stalled cfg6000 u0) in
  let u2 := state_of u1 (handle_write_s w6120_stalled cfg6000 u1) in
  let u3 := fst (fst (handle_checkWrite_s w6120_stalled
                        (set_request (response 201 "") u2))) in
  (_state u0 = write_s /\ _lastSent u0 = 6000 /\ _lastPost u0 = 0) /\
  trace_of (handle_write_s w6120_stalled cfg6000 u0)
  = [readKey_call 6060; readKey_call 6120] /\
  trace_of (handle_write_s w6120_stalled cfg6000 u1)
  = [HTTPPost "/power" checkWrite_s "text/csv" (_CSVheader cfg6000 ++ nl)] /\
  row_times (trace_of (handle_write_s w6120_stalled cfg6000 u0)
             ++ trace_of (handle_write_s w6120_stalled cfg6000 u1)) = [] /\
  _lastSent u2 = 6000 /\
  _state u3 = write_s /\ _lastSent u3 = 0.
Proof. vm_compute. repeat split. Qed.

(* ===================================================================== *)
(** ** A sensor whose scripts have no value *)
(* ===================================================================== *)

Section NoValue.
Context {host : Host}.
Variables (w : world) (cfg : config).

Lemma script_step_nan (ts : string) (o n : IotaLogRecord) (c : cursor)
  (s : Script) :
  deq (run s o n) (run s o n) = false ->
  script_step w cfg ts o n c s = c.
Proof. intros H. unfold script_step. now rewrite H. Qed.

End NoValue.

(** C4, the code at the failing input.  Sensors A (units 0 and 1), B
    (unit 0) and C (unit 2), with the unit flags and the header that
    [configCB] computes from them: the units 0, 1 and 2 are active.
    When the script of B has no value, no row is started for B: the
    record pair gives the rows of A and of C, and that is what the Write
    call submits.  When the two scripts of A, the first sensor, have no
    value, A has its row all the same, with NULL in every column: the
    row of the first sensor is started before the script loop, the row
    of a later sensor inside the guard [value == value]. *)
Lemma later_sensor_without_value_has_no_row :
  let o := readKey (Current_log w600) 60 in
  let n := readKey (Current_log w600) 120 in
  let cfgB := config_of sensors_B_without_value 60 1 0 in
  let cfgA := config_of sensors_A_without_value 60 1 0 in
  (_unit_active cfgB = active3 /\ _unit_active cfgA = active3 /\
   _CSVheader cfgB = "timestamp,device,sensor,Watts,Volts,Amps") /\
  run (reading "B" 0 1) o n = S754_nan /\
  assemble_rows w600 cfgB o n ""
  = Some (nl ++ "1970-01-01T00:01:00Z,iotawatt,A,2.0,7.0,NULL" ++
          nl ++ "1970-01-01T00:01:00Z,iotawatt,C,NULL,NULL,7.0") /\
  option_map row_count (assemble_rows w600 cfgB o n "") = Some 2%nat /\
  posts (trace_of (handle_write_s w120 cfgB start))
  = [_CSVheader cfgB ++
     nl ++ "1970-01-01T00:01:00Z,iotawatt,A,2.0,7.0,NULL" ++
     nl ++ "1970-01-01T00:01:00Z,iotawatt,C,NULL,NULL,7.0" ++ nl] /\
  assemble_rows w600 cfgA o n ""
  = Some (nl ++ "1970-01-01T00:01:00Z,iotawatt,A,NULL,NULL,NULL" ++
          nl ++ "1970-01-01T00:01:00Z,iotawatt,B,2.0,NULL,NULL" ++
          nl ++ "1970-01-01T00:01:00Z,iotawatt,C,NULL,NULL,7.0") /\
  option_map row_count (assemble_rows w600 cfgA o n "") = Some 3%nat.
Proof. vm_compute. repeat split. Qed.

(* ===================================================================== *)
(** ** Configuration: the unit columns and the header *)
(* ===================================================================== *)

Section Units.
Context {host : Host}.

Lemma set_at_length (j : nat) (l : list bool) :
  List.length (set_at j l) = List.length l.
Proof.
  revert j. induction l as [|b l IH]; intros [|j]; simpl; auto.
Qed.

Lemma nth_set_at (i j : nat) (l : list bool) :
  nth i (set_at j l) false =
  nth i l false || (Nat.eqb i j && Nat.ltb j (List.length l)).
Proof.
  revert i j. induction l as [|b l IH]; intros i j.
  - destruct i, j; simpl; rewrite ?andb_false_r; reflexivity.
  - destruct j as [|j], i as [|i]; simpl.
    + now rewrite orb_true_r.
    + now rewrite orb_false_r.
    + now rewrite orb_false_r.
    + rewrite IH. reflexivity.
Qed.

Lemma units_fold (outputs : list Script) (init : list bool) (i : nat) :
  let active :=
    fold_left (fun active script => set_at (getUnitsEnum script) active)
              outputs init in
  List.length active = List.length init /\
  nth i active false =
  nth i init false ||
  (existsb (fun script => Nat.eqb (getUnitsEnum script) i) outputs
   && Nat.ltb i (List.length init)).
Proof.
  revert init. induction outputs as [|script outputs IH]; intros init; simpl.
  - split; [reflexivity | now rewrite orb_false_r].
  - destruct (IH (set_at (getUnitsEnum script) init)) as [Hlen Hnth].
    rewrite Hlen, Hnth, set_at_length, nth_set_at. split; [reflexivity|].
    rewrite (Nat.eqb_sym i).
    destruct (nth i init false), (Nat.eqb_spec (getUnitsEnum script) i)
      as [E|N]; try rewrite E; simpl; try reflexivity;
      destruct (existsb _ outputs), (Nat.ltb i (List.length init));
      reflexivity.
Qed.

Lemma configCB_units_nth (outputs : list Script) (i : nat) :
  nth i (configCB_units outputs) false =
  existsb (fun script => Nat.eqb (getUnitsEnum script) i) outputs
  && Nat.ltb i unitsCount.
Proof.
  unfold configCB_units.
  destruct (units_fold outputs (repeat false unitsCount) i) as [_ H].
  rewrite H, repeat_length.
  replace (nth i (repeat false unitsCount) false) with false; [reflexivity|].
  symmetry. apply nth_repeat.
Qed.

Lemma configCB_units_length (outputs : list Script) :
  List.length (configCB_units outputs) = unitsCount.
Proof.
  unfold configCB_units.
  destruct (units_fold outputs (repeat false unitsCount) 0) as [H _].
  now rewrite H, repeat_length.
Qed.

(** X1.  The unit columns [configCB] computes are the units of the
    scripts: unit [i] is active exactly when it is a member of the
    enumeration and some script has it.  So the columns depend on the
    scripts as a set: any reordering of the list, the sort of [configCB]
    included, gives the same columns. *)
Theorem unit_columns_are_the_units_present
  (outputs outputs' : list Script) (i : nat) :
  (nth i (configCB_units outputs) false = true <->
   (i < unitsCount)%nat /\
   exists script, In script outputs /\ getUnitsEnum script = i) /\
  List.length (configCB_units outputs) = unitsCount /\
  (Permutation outputs outputs' ->
   configCB_units outputs = configCB_units outputs').
Proof.
  split; [|split; [apply configCB_units_length|]].
  - rewrite configCB_units_nth, andb_true_iff, existsb_exists, Nat.ltb_lt.
    split.
    + intros [(script & Hin & Heq) Hlt]. apply Nat.eqb_eq in Heq. eauto.
    + intros [Hlt (script & Hin & Heq)]. split; [|exact Hlt].
      exists script. split; [exact Hin | now apply Nat.eqb_eq].
  - intros Hperm.
    apply (nth_ext _ _ false false);
      [now rewrite !configCB_units_length|].
    intros k _. rewrite !configCB_units_nth. f_equal.
    apply eq_true_iff_eq. rewrite !existsb_exists.
    split; intros (script & Hin & Heq); exists script; split; auto.
    + eapply Permutation_in; eassumption.
    + eapply Permutation_in; [apply Permutation_sym|]; eassumption.
Qed.

Lemma header_fold (active : list bool) (units : list nat) (header : string) :
  fold_left (fun header i =>
               if nth i active false
               then header ++ "," ++ unitstr i else header)
            units header =
  header ++
  concat_text (map (fun i => "," ++ unitstr i)
                   (filter (fun i => nth i active false) units)).
Proof.
  revert header. induction units as [|i units IH]; intros header; simpl.
  - now rewrite append_nil_r.
  - rewrite IH. destruct (nth i active false); [|reflexivity].
    simpl. now rewrite !append_assoc.
Qed.

Lemma configCB_header_text (active : list bool) :
  configCB_header active =
  "timestamp,device,sensor" ++
  concat_text (map (fun i => "," ++ unitstr i) (active_units active)).
Proof. apply header_fold. Qed.

Lemma configCB_header_length (active : list bool) :
  23 <= available (configCB_header active).
Proof.
  rewrite configCB_header_text, available_append.
  pose proof (available_nonneg
                (concat_text (map (fun i => "," ++ unitstr i)
                                  (active_units active)))).
  change (available "timestamp,device,sensor") with 23. lia.
Qed.

(** X2.  The header [configCB] builds is [timestamp,device,sensor]
    followed by one column name for each active unit, in the order of the
    enumeration whatever the order of the scripts; it is never empty. *)
Theorem header_lists_the_active_units (active : list bool) :
  configCB_header active =
  "timestamp,device,sensor" ++
  concat_text (map (fun i => "," ++ unitstr i) (active_units active)) /\
  23 <= available (configCB_header active).
Proof.
  split; [apply configCB_header_text | apply configCB_header_length].
Qed.

End Units.

Section ConfigCB_facts.
Context {host : Host}.
Variable sort : (Script -> Script -> Z) -> list Script -> list Script.

(** X3.  [configCB] rejects a configuration exactly when it has no
    [table], and then changes nothing.  When it accepts, the schema is
    never empty (a missing or empty schema is [public]), and the path of
    the table is [/table] for the schema [public] and [/schema.table]
    for any other. *)
Theorem configCB_table_and_schema (Json : list (string * string))
  (cfg : config) :
  (fst (configCB sort Json cfg) = false <-> json_get "table" Json = None) /\
  (fst (configCB sort Json cfg) = false -> snd (configCB sort Json cfg) = cfg) /\
  (forall table, json_get "table" Json = Some table ->
   let cfg' := snd (configCB sort Json cfg) in
   let given := json_get "schema" Json in
   _table cfg' = table /\
   (exists schema, _schema cfg' = Some schema /\ schema <> "") /\
   (given = None \/ given = Some "" \/ given = Some "public" ->
    table_endpoint cfg' = "/" ++ table) /\
   (forall schema, given = Some schema -> schema <> "" ->
    schema <> "public" ->
    table_endpoint cfg' = "/" ++ schema ++ "." ++ table)).
Proof.
  unfold configCB. destruct (json_get "table" Json) as [table|] eqn:Ht.
  - split; [split; discriminate|]. split; [discriminate|].
    intros table' E. injection E as <-. cbv zeta.
    cbn [snd _table _schema]. unfold table_endpoint. cbn [_schema _table].
    split; [reflexivity|].
    destruct (json_get "schema" Json) as [[|c s]|];
      cbn [String.length Nat.eqb].
    + rewrite String.eqb_refl.
      split; [eexists; split; [reflexivity | discriminate]|].
      split; [reflexivity|].
      intros schema E. injection E as <-. congruence.
    + split; [eexists; split; [reflexivity | discriminate]|].
      split.
      * intros [H|[H|H]]; try discriminate. injection H as -> ->.
        reflexivity.
      * intros schema E Hne Hpub. injection E as <-.
        apply String.eqb_neq in Hpub. rewrite Hpub.
        now rewrite append_assoc.
    + rewrite String.eqb_refl.
      split; [eexists; split; [reflexivity | discriminate]|].
      split; [reflexivity|].
      intros schema E. discriminate.
  - split; [split; reflexivity|].
    split; [reflexivity | intros table' E; discriminate].
Qed.

End ConfigCB_facts.

(* ===================================================================== *)
(** ** Configuration: the order of the scripts *)
(* ===================================================================== *)

Lemma code_nonneg (c : ascii) : 0 <= code c.
Proof. unfold code. lia. Qed.

Lemma code_inj (c d : ascii) : code c = code d -> c = d.
Proof.
  unfold code. intros H. apply N2Z.inj in H.
  rewrite <- (ascii_N_embedding c), <- (ascii_N_embedding d). now rewrite H.
Qed.

Lemma strcmp_refl (a : string) : strcmp a a = 0.
Proof.
  induction a as [|c a IH]; [reflexivity|].
  simpl. now rewrite Ascii.eqb_refl.
Qed.

Lemma strcmp_flip (a b : string) : strcmp b a = - strcmp a b.
Proof.
  revert b. induction a as [|c a IH]; intros [|d b]; simpl; try lia.
  rewrite (Ascii.eqb_sym d c). destruct (Ascii.eqb c d); [apply IH | lia].
Qed.

Lemma strcmp_zero (a b : string) :
  c_string a = true -> c_string b = true -> strcmp a b = 0 -> a = b.
Proof.
  revert b. induction a as [|c a IH]; intros [|d b] Ha Hb H; simpl in *.
  - reflexivity.
  - apply andb_prop in Hb as [Hd _].
    apply negb_true_iff, Z.eqb_neq in Hd. lia.
  - apply andb_prop in Ha as [Hc _].
    apply negb_true_iff, Z.eqb_neq in Hc. lia.
  - apply andb_prop in Ha as [_ Ha]. apply andb_prop in Hb as [_ Hb].
    destruct (Ascii.eqb_spec c d) as [->|Hne].
    + f_equal. now apply IH.
    + exfalso. apply Hne. apply code_inj. lia.
Qed.

Lemma strcmp_trans (a b c : string) :
  c_string a = true -> c_string b = true ->
  strcmp a b <= 0 -> strcmp b c <= 0 -> strcmp a c <= 0.
Proof.
  revert b c. induction a as [|x a IH]; intros b c Ha Hb Hab Hbc.
  - destruct c as [|z c]; simpl; [lia | pose proof (code_nonneg z); lia].
  - simpl in Ha. apply andb_prop in Ha as [Hx Ha].
    apply negb_true_iff, Z.eqb_neq in Hx. pose proof (code_nonneg x).
    destruct b as [|y b]; simpl in Hab; [lia|].
    simpl in Hb. apply andb_prop in Hb as [Hy Hb].
    apply negb_true_iff, Z.eqb_neq in Hy. pose proof (code_nonneg y).
    destruct c as [|z c]; simpl in Hbc |- *; [lia|].
    destruct (Ascii.eqb_spec x y) as [->|Hxy],
             (Ascii.eqb_spec y z) as [Eyz|Hyz].
    + now apply (IH b c).
    + destruct (Ascii.eqb_spec y z); [contradiction | exact Hbc].
    + subst z. destruct (Ascii.eqb_spec x y); [contradiction | exact Hab].
    + destruct (Ascii.eqb_spec x z) as [->|Hxz]; [|lia].
      exfalso. apply Hxy. apply code_inj. lia.
Qed.

Section Order.
Variables a b c : Script.
Hypothesis Ha : c_string (name a) = true.
Hypothesis Hb : c_string (name b) = true.
Hypothesis Hc : c_string (name c) = true.

Lemma compare_names :
  outputs_compare a b <= 0 -> strcmp (name a) (name b) <= 0.
Proof.
  unfold outputs_compare. cbv zeta.
  destruct (Z.eqb_spec (strcmp (name a) (name b)) 0) as [E|N]; cbn [negb];
    lia.
Qed.

Lemma compare_flip : outputs_compare b a = - outputs_compare a b.
Proof.
  unfold outputs_compare. cbv zeta. rewrite (strcmp_flip (name a) (name b)).
  destruct (Z.eqb_spec (strcmp (name a) (name b)) 0) as [E|N],
           (Z.eqb_spec (- strcmp (name a) (name b)) 0) as [E'|N'];
    cbn [negb]; lia.
Qed.

Lemma compare_zero :
  outputs_compare a b = 0 <->
  name a = name b /\ getUnitsEnum a = getUnitsEnum b.
Proof.
  unfold outputs_compare. cbv zeta.
  destruct (Z.eqb_spec (strcmp (name a) (name b)) 0) as [E|N]; cbn [negb].
  - pose proof (strcmp_zero _ _ Ha Hb E).
    split; [intros; split; [assumption|lia]|]. intros [_ ->]. lia.
  - split; [lia|]. intros [E _]. rewrite E, strcmp_refl in N. contradiction.
Qed.

Lemma compare_trans :
  outputs_compare a b <= 0 -> outputs_compare b c <= 0 ->
  outputs_compare a c <= 0.
Proof.
  unfold outputs_compare. cbv zeta.
  destruct (Z.eqb_spec (strcmp (name a) (name b)) 0) as [Eab|Nab];
    cbn [negb].
  - apply (strcmp_zero _ _ Ha Hb) in Eab. rewrite Eab.
    destruct (Z.eqb_spec (strcmp (name b) (name c)) 0); cbn [negb]; lia.
  - destruct (Z.eqb_spec (strcmp (name b) (name c)) 0) as [Ebc|Nbc];
      cbn [negb]; intros Hab Hbc.
    + apply (strcmp_zero _ _ Hb Hc) in Ebc. rewrite <- Ebc.
      destruct (Z.eqb_spec (strcmp (name a) (name b)) 0); cbn [negb]; lia.
    + pose proof (strcmp_trans _ _ _ Ha Hb Hab Hbc) as Hac.
      destruct (Z.eqb_spec (strcmp (name a) (name c)) 0) as [Eac|Nac];
        cbn [negb]; [|exact Hac].
      apply (strcmp_zero _ _ Ha Hc) in Eac. rewrite <- Eac in Hbc, Nbc.
      rewrite (strcmp_flip (name a) (name b)) in Hbc. lia.
Qed.

End Order.

(** X4.  The comparator [configCB] sorts with is a total preorder on
    scripts whose names are C texts: a script compares equal to itself,
    swapping the arguments changes the sign, the order is transitive, and
    two scripts compare equal exactly when they have the same name and
    the same unit. *)
Theorem outputs_compare_is_an_order (a b c : Script) :
  c_string (name a) = true -> c_string (name b) = true ->
  c_string (name c) = true ->
  outputs_compare a a = 0 /\
  outputs_compare b a = - outputs_compare a b /\
  (outputs_compare a b = 0 <->
   name a = name b /\ getUnitsEnum a = getUnitsEnum b) /\
  (outputs_compare a b <= 0 -> outputs_compare b c <= 0 ->
   outputs_compare a c <= 0).
Proof.
  intros Ha Hb Hc.
  split; [apply (compare_zero a a Ha Ha); split; reflexivity|].
  split; [apply compare_flip|].
  split; [apply (compare_zero a b Ha Hb) | apply (compare_trans a b c Ha Hb Hc)].
Qed.

Lemma outputs_compare_is_an_order_witness :
  outputs_compare (reading "A" 0 0) (reading "A" 1 2) <= 0 /\
  outputs_compare (reading "A" 1 2) (reading "B" 0 1) <= 0 /\
  outputs_compare (reading "A" 0 0) (reading "B" 0 1) <= 0.
Proof.
  split; [vm_compute; congruence|]. split; [vm_compute; congruence|].
  apply (proj2 (proj2 (proj2 (outputs_compare_is_an_order
                                (reading "A" 0 0) (reading "A" 1 2)
                                (reading "B" 0 1)
                                eq_refl eq_refl eq_refl))));
    vm_compute; congruence.
Defined.

Lemma sorted_tail (R : Script -> Script -> Prop) (l1 l2 : list Script)
  (x : Script) :
  StronglySorted R (l1 ++ x :: l2) -> Forall (R x) l2.
Proof.
  induction l1 as [|y l1 IH]; simpl; intros H.
  - now apply StronglySorted_inv in H as [_ H].
  - apply StronglySorted_inv in H as [H _]. now apply IH.
Qed.

(** X5.  In a script list that is in the order of the comparator, the
    scripts of a sensor are next to each other and their units do not
    decrease: between two scripts of the same name every script has that
    name, and of two scripts of the same name the earlier has the smaller
    or the same unit.  This is the grouping the row assembly goes by. *)
Theorem sorted_outputs_are_grouped
  (l1 l2 l3 : list Script) (x y z : Script) :
  Forall (fun s => c_string (name s) = true) (l1 ++ x :: l2 ++ z :: l3) ->
  StronglySorted outputs_le (l1 ++ x :: l2 ++ z :: l3) ->
  name x = name z ->
  (In y l2 -> name y = name x) /\
  (getUnitsEnum x <= getUnitsEnum z)%nat.
Proof.
  intros Hc Hs Hname.
  assert (Hcx : c_string (name x) = true).
  { rewrite Forall_forall in Hc. apply Hc. apply in_or_app. right. now left. }
  assert (Hcz : c_string (name z) = true).
  { rewrite Forall_forall in Hc. apply Hc. apply in_or_app. right. right.
    apply in_or_app. right. now left. }
  pose proof (sorted_tail _ _ _ _ Hs) as Hx.
  rewrite Forall_forall in Hx.
  split.
  - intros Hy.
    assert (Hcy : c_string (name y) = true).
    { rewrite Forall_forall in Hc. apply Hc. apply in_or_app. right. right.
      apply in_or_app. now left. }
    assert (Hxy : outputs_le x y) by (apply Hx, in_or_app; now left).
    assert (Hyz : outputs_le y z).
    { replace (l1 ++ x :: l2 ++ z :: l3)%list
        with ((l1 ++ [x]) ++ l2 ++ z :: l3)%list in Hs
        by (rewrite <- app_assoc; reflexivity).
      apply in_split in Hy as (m1 & m2 & ->).
      replace ((l1 ++ [x]) ++ (m1 ++ y :: m2) ++ z :: l3)%list
        with (((l1 ++ [x]) ++ m1) ++ y :: (m2 ++ z :: l3))%list in Hs
        by (rewrite <- !app_assoc; reflexivity).
      pose proof (sorted_tail _ _ _ _ Hs) as Hy'.
      rewrite Forall_forall in Hy'. apply Hy', in_or_app. right. now left. }
    apply (compare_names x y) in Hxy. apply (compare_names y z) in Hyz.
    rewrite <- Hname in Hyz. rewrite (strcmp_flip (name x) (name y)) in Hyz.
    symmetry. apply (strcmp_zero _ _ Hcx Hcy). lia.
  - assert (Hxz : outputs_le x z).
    { apply Hx, in_or_app. right. now left. }
    unfold outputs_le, outputs_compare in Hxz. cbv zeta in Hxz.
    rewrite Hname, strcmp_refl in Hxz. cbn in Hxz. lia.
Qed.

Lemma sorted_outputs_are_grouped_witness :
  name (reading "A" 1 2) = name (reading "A" 0 0) /\ (0 <= 6)%nat.
Proof.
  refine ((fun T => conj (proj1 T (or_introl eq_refl)) (proj2 T))
            (sorted_outputs_are_grouped
               [] [reading "A" 1 2] [reading "B" 0 2]
               (reading "A" 0 0) (reading "A" 1 2) (reading "A" 6 2)
               _ _ eq_refl)).
  - repeat constructor.
  - repeat constructor; vm_compute; congruence.
Defined.

(* ===================================================================== *)
(** ** The device name *)
(* ===================================================================== *)

Lemma starts_with_append (p s : string) : starts_with p (p ++ s) = true.
Proof.
  induction p as [|c p IH]; [reflexivity|].
  simpl. now rewrite Ascii.eqb_refl.
Qed.

Lemma drop_append (p s : string) : drop (String.length p) (p ++ s) = s.
Proof. induction p as [|c p IH]; [now destruct s | exact IH]. Qed.

Lemma contains_append (pre p s : string) :
  contains p (pre ++ p ++ s) = true.
Proof.
  induction pre as [|c pre IH].
  - cbn [append]. destruct (p ++ s) eqn:E; cbn [contains];
      rewrite <- E, starts_with_append; reflexivity.
  - cbn [append contains]. rewrite IH. apply orb_true_r.
Qed.

Lemma replace_go_absent (fuel : nat) (find rep s : string) :
  contains find s = false -> replace_go fuel find rep s = s.
Proof.
  revert s. induction fuel as [|fuel IH]; intros s H; [reflexivity|].
  destruct s as [|c s]; [reflexivity|].
  cbn [replace_go]. cbn [contains] in H.
  apply orb_false_iff in H as [H0 H1]. rewrite H0. f_equal. now apply IH.
Qed.

Lemma replace_go_once (fuel : nat) (f0 : ascii) (find' rep pre post : string) :
  free_of f0 pre = true ->
  contains (String f0 find') post = false ->
  (String.length pre < fuel)%nat ->
  replace_go fuel (String f0 find') rep (pre ++ String f0 find' ++ post)
  = pre ++ rep ++ post.
Proof.
  revert fuel. induction pre as [|c pre IH]; intros fuel Hfree Hpost Hfuel.
  - destruct fuel as [|fuel]; [simpl in Hfuel; lia|].
    cbn [append replace_go]. 
    change (String f0 (find' ++ post)) with (String f0 find' ++ post).
    rewrite starts_with_append, drop_append.
    now rewrite replace_go_absent.
  - destruct fuel as [|fuel]; [simpl in Hfuel; lia|].
    cbn [free_of] in Hfree. apply andb_prop in Hfree as [Hc Hfree].
    apply negb_true_iff in Hc.
    cbn [append replace_go starts_with]. rewrite Hc. cbn [andb].
    f_equal. apply IH; [assumption | assumption | simpl in Hfuel; lia].
Qed.

(** X6.  A device name template that holds [$device] once, after a text
    without a dollar sign, is resolved to the template with the name of
    the device in its place; the template [$device] itself, which is what
    a configuration without a device name gets, is resolved to the name
    of the device. *)
Theorem device_name_is_substituted (w : world) (cfg : config)
  (pre post : string) :
  _deviceName cfg = Some (pre ++ "$device" ++ post) ->
  free_of "$" pre = true ->
  contains "$device" post = false ->
  resolveDeviceName w cfg = pre ++ deviceName w ++ post.
Proof.
  intros Hname Hpre Hpost. unfold resolveDeviceName. rewrite Hname.
  rewrite contains_append. unfold replace.
  apply replace_go_once; [assumption | assumption |].
  rewrite length_append. simpl. lia.
Qed.

Lemma device_name_is_substituted_witness :
  resolveDeviceName w600 cfg1 = "iotawatt" /\
  resolveDeviceName w600
    (mkConfig "power" (Some "site-$device-a") None (Some "public")
              active3 "" [] 60 1 0) = "site-iotawatt-a".
Proof.
  split.
  - exact (device_name_is_substituted w600 cfg1 "" "" eq_refl eq_refl eq_refl).
  - exact (device_name_is_substituted w600
             (mkConfig "power" (Some "site-$device-a") None (Some "public")
                       active3 "" [] 60 1 0)
             "site-" "-a" eq_refl eq_refl eq_refl).
Defined.

(* ===================================================================== *)
(** ** Texts that are no timestamp *)
(* ===================================================================== *)

Lemma scan_no_number (fmt : list directive) (x : string) :
  begins_with_number x = false ->
  fst (scan (Dint :: fmt) x []) <= 0.
Proof.
  unfold begins_with_number. cbn [scan].
  destruct (conv_d x); [discriminate | |]; intros _; vm_compute; discriminate.
Qed.

(** X7.  A text that does not begin, after white space, with a number
    (the empty text, [null], a word) is accepted by none of the five
    patterns, and [parseTimestamp] returns 0 for it. *)
Theorem text_without_number_is_none (x : string) :
  begins_with_number x = false ->
  matched_pattern x = None /\ parseTimestamp x = 0.
Proof.
  intros H.
  assert (H1 := scan_no_number (tl (parse_format fmt_tz_hm)) x H).
  assert (H2 := scan_no_number (tl (parse_format fmt_tz_h)) x H).
  assert (H3 := scan_no_number (tl (parse_format fmt_iso_z)) x H).
  assert (H4 := scan_no_number (tl (parse_format fmt_iso)) x H).
  assert (H5 := scan_no_number (tl (parse_format fmt_simple)) x H).
  change (Dint :: tl (parse_format fmt_tz_hm)) with (parse_format fmt_tz_hm) in H1.
  change (Dint :: tl (parse_format fmt_tz_h)) with (parse_format fmt_tz_h) in H2.
  change (Dint :: tl (parse_format fmt_iso_z)) with (parse_format fmt_iso_z) in H3.
  change (Dint :: tl (parse_format fmt_iso)) with (parse_format fmt_iso) in H4.
  change (Dint :: tl (parse_format fmt_simple)) with (parse_format fmt_simple) in H5.
  assert (Hm : matched_pattern x = None).
  { unfold matched_pattern, sscanf.
    repeat match goal with
           | |- context [?a =? ?b] =>
               destruct (Z.eqb_spec a b); [lia|]
           end.
    reflexivity. }
  split; [exact Hm | now apply parse_unmatched].
Qed.

Lemma text_without_number_is_none_witness :
  parseTimestamp "" = 0 /\ parseTimestamp "  null" = 0.
Proof.
  split.
  - exact (proj2 (text_without_number_is_none "" eq_refl)).
  - exact (proj2 (text_without_number_is_none "  null" eq_refl)).
Defined.

(* ===================================================================== *)
(** ** Failed requests *)
(* ===================================================================== *)

Lemma substring_whole (n : nat) (s : string) :
  (String.length s <= n)%nat -> String.substring 0 n s = s.
Proof.
  revert n. induction s as [|c s IH]; intros n H.
  - now destruct n.
  - destruct n as [|n]; [simpl in H; lia|].
    simpl. f_equal. apply IH. simpl in H. lia.
Qed.

Lemma truncate_whole (size : Z) (s : string) :
  available s < size -> truncate size s = s.
Proof.
  unfold available, truncate. intros H. apply substring_whole. lia.
Qed.

Lemma digits_go_length (fuel k : nat) (n : Z) (acc : string) :
  (1 <= k)%nat -> 0 <= n < 10 ^ Z.of_nat k ->
  (String.length (digits_go fuel n acc) <= String.length acc + k)%nat.
Proof.
  revert k n acc. induction fuel as [|fuel IH]; intros k n acc Hk Hn.
  - simpl. lia.
  - cbn [digits_go]. destruct (Z.eqb_spec (n / 10) 0) as [E|E].
    + simpl. lia.
    + destruct k as [|k]; [lia|].
      assert (Hk' : (1 <= k)%nat).
      { destruct k as [|k]; [|lia]. exfalso. apply E.
        apply Z.div_small. simpl in Hn. lia. }
      assert (Hn' : 0 <= n / 10 < 10 ^ Z.of_nat k).
      { split; [apply Z.div_pos; lia|].
        apply Z.div_lt_upper_bound; [lia|].
        rewrite Nat2Z.inj_succ, Z.pow_succ_r in Hn by lia. lia. }
      specialize (IH k (n / 10) (String (digit_char (n mod 10)) acc) Hk' Hn').
      simpl in IH. lia.
Qed.

Lemma pow10_10 : 10 ^ Z.of_nat 10 = 10000000000.
Proof. reflexivity. Qed.

Lemma digits_length (n : Z) :
  0 <= n <= 2 ^ 31 -> (String.length (digits n) <= 10)%nat.
Proof.
  intros H. unfold digits.
  assert (Hn : 0 <= n < 10 ^ Z.of_nat 10).
  { rewrite pow10_10. change (2 ^ 31) with 2147483648 in H. lia. }
  pose proof (digits_go_length (S (Z.to_nat (Z.log2 n))) 10 n ""
                (le_S _ _ (le_S _ _ (le_S _ _ (le_S _ _ (le_S _ _ (le_S _ _
                  (le_S _ _ (le_S _ _ (le_S _ _ (le_n 1)))))))))) Hn) as L.
  exact L.
Qed.

Lemma decimal_length (n : Z) :
  - 2 ^ 31 <= n < 2 ^ 31 -> available (decimal n) <= 11.
Proof.
  intros H. change (2 ^ 31) with 2147483648 in H.
  unfold available, decimal.
  destruct (Z.ltb_spec n 0).
  - assert (L := digits_length (- n)).
    change (2 ^ 31) with 2147483648 in L.
    specialize (L ltac:(lia)).
    change (String.length (String "-" (digits (- n))))
      with (S (String.length (digits (- n)))).
    lia.
  - assert (L := digits_length n).
    change (2 ^ 31) with 2147483648 in L.
    specialize (L ltac:(lia)). lia.
Qed.

Lemma c_str_length (s : string) : available (c_str s) <= available s.
Proof.
  unfold available. induction s as [|c s IH]; [reflexivity|].
  cbn [c_str]. destruct (code c =? 0); cbn [String.length]; lia.
Qed.

Lemma failure_message_whole (what : string) (httpCode : Z)
  (responseText : string) :
  available what <= 5 ->
  - 2 ^ 31 <= httpCode < 2 ^ 31 ->
  failure_message what httpCode responseText
  = whole_message what httpCode responseText.
Proof.
  intros Hw Hc. unfold failure_message, whole_message.
  pose proof (decimal_length httpCode Hc) as Hd.
  pose proof (available_nonneg responseText) as Hr.
  pose proof (c_str_length responseText) as Hs.
  destruct (httpCode <? 0); apply truncate_whole;
    rewrite !available_append;
    change (available " failed, code ") with 14;
    change (available ", response: ") with 12; lia.
Qed.

(** X8.  A submit that completed with a status other than 201 leaves
    the watermark, the timestamp of the last row, the batch and the
    record pair as they were, drops the request, returns to [write_s] to
    be called again ten seconds later, and leaves as status message the
    whole text [POST failed, code <status>], followed when the status is
    not negative by [, response:] and the answer as [%s] prints it, which
    is the answer up to its first zero byte: the buffer cuts nothing
    off. *)
Theorem failed_submit_reports_answer (w : world) (u : uploader)
  (request : asyncHTTPrequest) :
  _request u = Some request ->
  readyState request = 4 ->
  responseHTTPcode request <> 201 ->
  - 2 ^ 31 <= responseHTTPcode request < 2 ^ 31 ->
  handle_checkWrite_s w u
  = (mkUploader write_s (_lastSent u) (_lastPost u) (_stop u) None
       (Some (whole_message "POST" (responseHTTPcode request)
                (responseText request)))
       (records u) (reqData u),
     wrap32 (UTCtime w + 10), []).
Proof.
  intros Hr Hs Hc Hi. unfold handle_checkWrite_s. rewrite Hr, Hs.
  cbn [Z.eqb Pos.eqb negb].
  destruct (Z.eqb_spec (responseHTTPcode request) 201); [contradiction|].
  rewrite failure_message_whole; [reflexivity | discriminate | exact Hi].
Qed.

(** X9.  A query that completed with a status other than 200 leaves
    the watermark as it was, drops the request, asks for the query to be
    made again after five seconds, returns 15, and leaves as status
    message the whole text [Query failed, code <status>], followed when
    the status is not negative by [, response:] and the answer as [%s]
    prints it, which is the answer up to its first zero byte: the buffer
    cuts nothing off. *)
Theorem failed_query_is_retried {host : Host} (w : world) (cfg : config)
  (u : uploader) (request : asyncHTTPrequest) :
  _request u = Some request ->
  readyState request = 4 ->
  responseHTTPcode request <> 200 ->
  - 2 ^ 31 <= responseHTTPcode request < 2 ^ 31 ->
  handle_checkQuery_s w cfg u
  = (mkUploader (_state u) (_lastSent u) (_lastPost u) (_stop u) None
       (Some (whole_message "Query" (responseHTTPcode request)
                (responseText request)))
       (records u) (reqData u),
     15, [delay 5 query_s]).
Proof.
  intros Hr Hs Hc Hi. unfold handle_checkQuery_s. rewrite Hr, Hs.
  cbn [Z.eqb Pos.eqb negb].
  destruct (Z.eqb_spec (responseHTTPcode request) 200); [contradiction|].
  rewrite failure_message_whole; [reflexivity | discriminate | exact Hi].
Qed.

Lemma failed_submit_reports_answer_witness :
  _statusMessage
    (fst (fst (handle_checkWrite_s w600
                 (set_request
                    (response 500 ("no such table" ++ String "000" "rest"))
                    start))))
  = Some "POST failed, code 500, response: no such table".
Proof.
  exact (f_equal (fun r => _statusMessage (fst (fst r)))
           (failed_submit_reports_answer w600
              (set_request
                 (response 500 ("no such table" ++ String "000" "rest"))
                 start)
              (mkRequest 4 500 ("no such table" ++ String "000" "rest"))
              eq_refl eq_refl ltac:(discriminate)
              ltac:(vm_compute; split; [discriminate | reflexivity]))).
Defined.

Lemma failed_query_is_retried_witness :
  handle_checkQuery_s w600 cfg1 (set_request (response (-4) "") fresh)
  = (set_statusMessage (Some "Query failed, code -4") fresh,
     15, [delay 5 query_s]).
Proof.
  exact (failed_query_is_retried w600 cfg1
           (set_request (response (-4) "") fresh) (mkRequest 4 (-4) "")
           eq_refl eq_refl ltac:(discriminate)
              ltac:(vm_compute; split; [discriminate | reflexivity])).
Defined.

(* ===================================================================== *)
(** ** The query and its settle step together *)
(* ===================================================================== *)

Section Resolve.
Context {host : Host}.
Variable w : world.
Variable cfg : config.

Lemma answered_watermark_range (text : string) :
  0 <= answered_watermark text < 2 ^ 32.
Proof.
  unfold answered_watermark.
  destruct (parseArray text) as [[|o l]|]; try lia.
  destruct (json_get "timestamp" o); [apply parseTimestamp_range | lia].
Qed.

Lemma query_watermark_from_zero (text : string) (st : states) (lp : Z)
  (sp : bool) (rq : option asyncHTTPrequest) (sm : option string)
  (rc : option (IotaLogRecord * IotaLogRecord)) (rd : string) :
  query_watermark text (mkUploader st 0 lp sp rq sm rc rd)
  = mkUploader st (answered_watermark text) lp sp rq sm rc rd.
Proof.
  unfold query_watermark, answered_watermark.
  destruct (parseArray text) as [[|o l]|]; try reflexivity.
  destruct (json_get "timestamp" o) as [ts|]; [|reflexivity].
  pose proof (parseTimestamp_range ts) as H.
  destruct (Z.gtb_spec (parseTimestamp ts) 0) as [G|G]; [reflexivity|].
  replace (parseTimestamp ts) with 0 by lia. reflexivity.
Qed.

End Resolve.

(** X10.  The query and its settle step together: whatever the
    watermark was before, after [handle_query_s] and a request that
    completed with status 200 the uploader is in [write_s] with no request and no
    status message, and its watermark is the largest multiple of the
    interval not above the maximum of the timestamp the answer carries
    (0 when it carries none), the configured start date and the first
    key of the log.  The batch, the record pair, the stop flag and the
    timestamp of the last row are as they were. *)
Theorem watermark_is_resolved_from_the_answer
  {host : Host} (w : world) (cfg : config) (u : uploader)
  (request : asyncHTTPrequest) :
  readyState request = 4 ->
  responseHTTPcode request = 200 ->
  0 < _interval cfg ->
  0 <= _uploadStartDate cfg < 2 ^ 32 ->
  0 <= firstKey (Current_log w) < 2 ^ 32 ->
  let queried := fst (fst (handle_query_s w cfg u)) in
  let m := Z.max (answered_watermark (responseText request))
             (Z.max (_uploadStartDate cfg) (firstKey (Current_log w))) in
  handle_checkQuery_s w cfg (set_request (Some request) queried)
  = (mkUploader write_s (m - m mod _interval cfg) (_lastPost u) (_stop u)
       None None (records u) (reqData u),
     1, []).
Proof.
  intros Hready Hcode Hint Hstart Hfirst queried m.
  assert (Hq : set_request (Some request) queried
               = mkUploader (_state u) 0 (_lastPost u) (_stop u)
                   (Some request) (_statusMessage u) (records u) (reqData u)).
  { subst queried. unfold handle_query_s.
    destruct (negb (WiFi_isConnected w)); reflexivity. }
  rewrite Hq.
  rewrite (checkQuery_success w cfg
             (mkUploader (_state u) 0 (_lastPost u) (_stop u)
                (Some request) (_statusMessage u) (records u) (reqData u))
             request eq_refl Hready Hcode).
  unfold set_statusMessage.
  cbn [_state _lastSent _lastPost _stop _request _statusMessage records
       reqData].
  rewrite query_watermark_from_zero.
  unfold set_state, set_request, set_lastSent.
  cbn [_state _lastSent _lastPost _stop _request _statusMessage records
       reqData].
  pose proof (answered_watermark_range (responseText request)) as Hp.
  rewrite !MAX_max, <- Z.max_assoc. fold m.
  change (2 ^ 32) with 4294967296 in *.
  assert (Hm : 0 <= m < 4294967296) by (unfold m; lia).
  pose proof (Z.mod_pos_bound m (_interval cfg) Hint) as Hmod.
  pose proof (Z.mod_le m (_interval cfg) (proj1 Hm) Hint) as Hle.
  rewrite wrap32_small; [reflexivity|].
  change (2 ^ 32) with 4294967296. lia.
Qed.

Lemma watermark_is_resolved_from_the_answer_witness :
  _lastSent
    (fst (fst (handle_checkQuery_s w600 cfg1
                 (set_request (response 200 "[]")
                    (fst (fst (handle_query_s w600 cfg1
                                 (set_lastSent 1234 fresh)))))))) = 0.
Proof.
  exact (f_equal (fun r => _lastSent (fst (fst r)))
           (watermark_is_resolved_from_the_answer w600 cfg1
              (set_lastSent 1234 fresh) (mkRequest 4 200 "[]")
              eq_refl eq_refl eq_refl
              (conj (Z.le_refl 0) eq_refl) (conj (Z.le_refl 0) eq_refl))).
Defined.

(* ===================================================================== *)
(** ** The shape of one call of [handle_write_s] *)
(* ===================================================================== *)

Section Shape.
Context {host : Host}.
Variables (w : world) (cfg : config).

Lemma handle_write_s_shape (u : uploader) :
  handle_write_s w cfg u
  = if _stop u then Some (Uploader_stop u, 1, [stop])
    else if lastKey (Current_log w) <? dataThreshold cfg u then
      Some (match records u with
            | Some _ => set_records None u
            | None => u
            end, wrap32 (UTCtime w + 1), [])
    else
      let '(oldRec, newRec, reads) := entry_records w cfg u in
      write_outcome w cfg
        (after reads
           (write_loop w cfg (write_loop_fuel (with_header cfg u)) 0
              (with_header cfg u) oldRec newRec)).
Proof.
  unfold handle_write_s, entry_records, write_outcome, with_header, first_key.
  destruct (records u) as [[o n]|]; reflexivity.
Qed.

Lemma after_nil (res : loop_result) : after [] res = res.
Proof. now destruct res. Qed.

Lemma after_app (a b : list event) (res : loop_result) :
  after a (after b res) = after (a ++ b) res.
Proof. destruct res; cbn [after]; now rewrite ?app_assoc. Qed.

Lemma write_outcome_after (evs : list event) (res : loop_result) :
  write_outcome w cfg (after evs res) = preceded evs (write_outcome w cfg res).
Proof.
  destruct res as [u r tr|u tr| |]; cbn [after write_outcome preceded];
    try reflexivity.
  destruct (_ <=? 1); cbn [preceded]; now rewrite ?app_assoc.
Qed.

End Shape.

(* ===================================================================== *)
(** ** What one call of [handle_write_s] leaves alone *)
(* ===================================================================== *)

Section Frame.
Context {host : Host}.
Variables (w : world) (cfg : config).

Lemma entry_records_reads (u : uploader) :
  posts (snd (entry_records w cfg u)) = [] /\
  row_times (snd (entry_records w cfg u)) = [].
Proof. unfold entry_records. destruct (records u) as [[o n]|]; now split. Qed.

(** The loop of a call that passed the two gates, with what holds of
    its result. *)
Lemma handle_write_s_loop (u u' : uploader) (r : Z) (tr : list event) :
  handle_write_s w cfg u = Some (u', r, tr) ->
  _stop u = false ->
  dataThreshold cfg u <= lastKey (Current_log w) ->
  exists o n reads res,
    entry_records w cfg u = (o, n, reads) /\
    write_loop w cfg (write_loop_fuel (with_header cfg u)) 0
      (with_header cfg u) o n = res /\
    preceded reads (write_outcome w cfg res) = Some (u', r, tr) /\
    match res with
    | Returned u1 _ tr1 => loop_post w (with_header cfg u) u1 tr1
    | Finished u1 tr1 => loop_post w (with_header cfg u) u1 tr1
    | _ => False
    end.
Proof.
  intros Hcall Hstop Hthr. rewrite handle_write_s_shape, Hstop in Hcall.
  apply Z.ltb_ge in Hthr. rewrite Hthr in Hcall.
  destruct (entry_records w cfg u) as [[o n] reads].
  exists o, n, reads, (write_loop w cfg (write_loop_fuel (with_header cfg u)) 0
                         (with_header cfg u) o n).
  rewrite write_outcome_after in Hcall.
  split; [reflexivity|]. split; [reflexivity|]. split; [exact Hcall|].
  pose proof (write_loop_post w cfg (write_loop_fuel (with_header cfg u)) 0
                (with_header cfg u) o n
                (write_loop_fuel_enough (with_header cfg u))) as Hloop.
  destruct (write_loop w cfg _ 0 (with_header cfg u) o n); try exact Hloop.
  discriminate.
Qed.

Lemma with_header_headed (u : uploader) :
  headed cfg u ->
  exists rows, reqData (with_header cfg u) = _CSVheader cfg ++ rows.
Proof.
  unfold headed, with_header. intros [H|[rows H]].
  - rewrite H. cbn. exists "". now rewrite append_nil_r.
  - destruct (_ =? 0); [|now exists rows].
    cbn. rewrite H. exists (rows ++ _CSVheader cfg). now rewrite append_assoc.
Qed.

Lemma empty_append (a b : string) : a ++ b = "" -> a = "" /\ b = "".
Proof. destruct a; [now split | discriminate]. Qed.

Lemma available_zero (s : string) : available s = 0 -> s = "".
Proof. destruct s; [reflexivity|]. unfold available. simpl. lia. Qed.

End Frame.

(** X11.  A call of [handle_write_s] leaves the watermark, the request,
    the status message and the stop flag as they were, and the state
    too unless the stop flag is set; it reads no query, asks for no
    delay, and submits at most once, as the last thing it does. *)
Theorem write_call_frame {host : Host} (w : world) (cfg : config)
  (u u' : uploader) (r : Z) (tr : list event) :
  handle_write_s w cfg u = Some (u', r, tr) ->
  _lastSent u' = _lastSent u /\
  _request u' = _request u /\
  _statusMessage u' = _statusMessage u /\
  _stop u' = _stop u /\
  (if _stop u then _state u' = stopped_s else _state u' = _state u) /\
  (posts tr = [] \/
   exists tr0 body,
     tr = (tr0 ++ [HTTPPost (table_endpoint cfg) checkWrite_s "text/csv"
                            body])%list /\
     posts tr0 = [] /\ r = 1 /\ reqData u' = body).
Proof.
  intros Hcall.
  destruct (_stop u) eqn:Hstop.
  { rewrite handle_write_s_shape, Hstop in Hcall.
    injection Hcall as <- <- <-. cbn. rewrite Hstop. tauto. }
  destruct (lastKey (Current_log w) <? dataThreshold cfg u) eqn:Hthr.
  { rewrite handle_write_s_shape, Hstop, Hthr in Hcall.
    injection Hcall as <- <- <-.
    destruct (records u); cbn; rewrite ?Hstop; tauto. }
  apply Z.ltb_ge in Hthr.
  destruct (handle_write_s_loop w cfg u u' r tr Hcall Hstop Hthr)
    as (o & n & reads & res & Hentry & _ & Hout & Hpost).
  destruct (entry_records_reads w cfg u) as [Hrp _].
  rewrite Hentry in Hrp. cbn [snd] in Hrp.
  destruct (with_header_fields cfg u) as (Hst & Hls & Hsp & Hrq & Hsm & _).
  destruct res as [u1 r1 tr1|u1 tr1| |]; try contradiction;
    destruct Hpost as (Hst1 & Hls1 & Hsp1 & Hrq1 & Hsm1 & _ & _ & Hposts & _);
    cbn [write_outcome preceded] in Hout.
  - injection Hout as <- <- <-.
    rewrite posts_app, Hrp, Hposts.
    repeat split; try congruence. now left.
  - destruct (available (reqData (set_reqData (reqData u1 ++ nl) u1)) <=? 1);
      cbn [preceded] in Hout; injection Hout as <- <- <-; cbn.
    + rewrite posts_app, Hrp, Hposts.
      repeat split; try congruence. now left.
    + repeat split; try congruence. right.
      exists (reads ++ tr1)%list, (reqData u1 ++ nl).
      rewrite posts_app, Hrp, Hposts, app_assoc. now repeat split.
Qed.

(** X12.  When the buffer is empty or begins with the header, it is so
    again after a call of [handle_write_s], and a payload the call
    submits is the header, rows, and a line end. *)
Theorem payload_begins_with_header {host : Host} (w : world) (cfg : config)
  (u u' : uploader) (r : Z) (tr : list event) :
  headed cfg u ->
  handle_write_s w cfg u = Some (u', r, tr) ->
  headed cfg u' /\
  forall body, In body (posts tr) ->
    exists rows, body = _CSVheader cfg ++ rows ++ nl.
Proof.
  intros Hhead Hcall.
  destruct (_stop u) eqn:Hstop.
  { rewrite handle_write_s_shape, Hstop in Hcall.
    injection Hcall as <- <- <-. split; [exact Hhead | intros b []]. }
  destruct (lastKey (Current_log w) <? dataThreshold cfg u) eqn:Hthr.
  { rewrite handle_write_s_shape, Hstop, Hthr in Hcall.
    injection Hcall as <- <- <-.
    split; [|intros b []]. destruct (records u); exact Hhead. }
  apply Z.ltb_ge in Hthr.
  destruct (handle_write_s_loop w cfg u u' r tr Hcall Hstop Hthr)
    as (o & n & reads & res & Hentry & _ & Hout & Hpost).
  destruct (entry_records_reads w cfg u) as [Hrp _].
  rewrite Hentry in Hrp. cbn [snd] in Hrp.
  destruct (with_header_headed cfg u Hhead) as [rows0 Hrows0].
  destruct res as [u1 r1 tr1|u1 tr1| |]; try contradiction;
    destruct Hpost as (_ & _ & _ & _ & _ & _ & _ & Hposts & _ & [s Hs] & _);
    cbn [write_outcome preceded] in Hout.
  - injection Hout as <- <- <-. rewrite posts_app, Hrp, Hposts.
    split; [|intros b []]. right. exists (rows0 ++ s).
    now rewrite Hs, Hrows0, append_assoc.
  - destruct (available (reqData (set_reqData (reqData u1 ++ nl) u1)) <=? 1);
      cbn [preceded] in Hout; injection Hout as <- <- <-.
    + rewrite posts_app, Hrp, Hposts. split; [now left | intros b []].
    + rewrite !posts_app, Hrp, Hposts. cbn.
      assert (E : (reqData u1 ++ nl)%string
                  = _CSVheader cfg ++ (rows0 ++ s) ++ nl).
      { now rewrite Hs, Hrows0, !append_assoc. }
      split.
      * right. exists ((rows0 ++ s) ++ nl). exact E.
      * intros b [<-|[]]. exists (rows0 ++ s). exact E.
Qed.

(** X13.  With a header that is not empty, as [configCB] leaves it,
    the branch of [handle_write_s] that throws the batch away is never
    taken: a call that passed the two gates and does not keep a record
    pair for the next call submits. *)
Theorem batch_with_header_is_submitted {host : Host} (w : world)
  (cfg : config) (u u' : uploader) (r : Z) (tr : list event) :
  _CSVheader cfg = configCB_header (_unit_active cfg) ->
  handle_write_s w cfg u = Some (u', r, tr) ->
  _stop u = false ->
  dataThreshold cfg u <= lastKey (Current_log w) ->
  records u' = None ->
  r = 1 /\ posts tr = [reqData u'] /\ reqData u' <> "".
Proof.
  intros Hheader Hcall Hstop Hthr Hnone.
  destruct (handle_write_s_loop w cfg u u' r tr Hcall Hstop Hthr)
    as (o & n & reads & res & Hentry & _ & Hout & Hpost).
  destruct (entry_records_reads w cfg u) as [Hrp _].
  rewrite Hentry in Hrp. cbn [snd] in Hrp.
  destruct res as [u1 r1 tr1|u1 tr1| |]; try contradiction;
    destruct Hpost as (_ & _ & _ & _ & _ & _ & _ & Hposts & Hrec & [s Hs] & _);
    cbn [write_outcome preceded] in Hout.
  - injection Hout as <- <- <-. contradiction.
  - destruct (Z.leb_spec
                (available (reqData (set_reqData (reqData u1 ++ nl) u1))) 1)
      as [Hle|Hgt];
      cbn [preceded] in Hout; injection Hout as <- <- <-.
    + exfalso. cbn [reqData set_reqData] in Hle.
      rewrite available_append in Hle.
      assert (Hnl : available nl = 1) by reflexivity.
      pose proof (available_nonneg (reqData u1)).
      assert (E : reqData u1 = "") by (apply available_zero; lia).
      rewrite E in Hs. symmetry in Hs.
      apply empty_append in Hs as [Hs _].
      unfold with_header in Hs.
      destruct (Z.eqb_spec (available (reqData u)) 0) as [Z0|NZ].
      * cbn [reqData set_reqData] in Hs.
        apply empty_append in Hs as [_ Hs].
        pose proof (configCB_header_length (_unit_active cfg)) as Hlen.
        rewrite <- Hheader, Hs in Hlen. unfold available in Hlen.
        simpl in Hlen. lia.
      * apply NZ. now rewrite Hs.
    + cbn. rewrite !posts_app, Hrp, Hposts. cbn.
      repeat split. intros E. apply empty_append in E as [_ E]. discriminate.
Qed.

Lemma write_call_frame_witness :
  exists u1 tr,
    handle_write_s w180 cfg2 start = Some (u1, 1, tr) /\
    _lastSent u1 = _lastSent start.
Proof.
  eexists. eexists.
  refine ((fun H => conj H (proj1 (write_call_frame w180 cfg2 start _ 1 _ H)))
            _).
  vm_compute. reflexivity.
Defined.

Lemma payload_begins_with_header_witness :
  exists u1 tr,
    handle_write_s w180 cfg2 start = Some (u1, 1, tr) /\
    headed cfg2 u1.
Proof.
  eexists. eexists.
  refine ((fun H =>
             conj H (proj1 (payload_begins_with_header w180 cfg2 start _ 1 _
                              (or_introl eq_refl) H))) _).
  vm_compute. reflexivity.
Defined.

Lemma batch_with_header_is_submitted_witness :
  exists u1 tr,
    handle_write_s w180 cfg2 start = Some (u1, 1, tr) /\
    1 = 1 /\ posts tr = [reqData u1] /\ reqData u1 <> "".
Proof.
  eexists. eexists.
  refine ((fun H =>
             conj H (batch_with_header_is_submitted w180 cfg2 start _ 1 _
                       eq_refl H eq_refl _ _)) _).
  3: vm_compute; reflexivity.
  - vm_compute. congruence.
  - vm_compute. reflexivity.
Defined.

(* ===================================================================== *)
(** ** A call cut short by the time slice *)
(* ===================================================================== *)

Section Yield.
Context {host : Host}.
Variables (w1 w2 : world) (cfg : config).
Hypothesis Hlog : Current_log w1 = Current_log w2.
Hypothesis Hname : deviceName w1 = deviceName w2.
Hypothesis Hnever : forall k, micros w2 k <= bingoTime w2.
Hypothesis Hutc : wrap32 (UTCtime w1 + 1) <> 10.

Lemma resolveDeviceName_world :
  resolveDeviceName w1 cfg = resolveDeviceName w2 cfg.
Proof. unfold resolveDeviceName. now rewrite Hname. Qed.

Lemma script_step_world (ts : string) (o n : IotaLogRecord) (c : cursor)
  (script : Script) :
  script_step w1 cfg ts o n c script = script_step w2 cfg ts o n c script.
Proof.
  unfold script_step, row_start. now rewrite resolveDeviceName_world.
Qed.

Lemma assemble_rows_world (o n : IotaLogRecord) (buf : string) :
  assemble_rows w1 cfg o n buf = assemble_rows w2 cfg o n buf.
Proof.
  unfold assemble_rows. destruct (_outputs cfg) as [|script scripts];
    [reflexivity|].
  cbv zeta. unfold row_start. rewrite resolveDeviceName_world.
  f_equal. f_equal.
  assert (E : forall l c,
             fold_left (script_step w1 cfg
                          (datef (UNIXtime o) "YYYY-MM-DDThh:mm:ssZ") o n) l c
             = fold_left (script_step w2 cfg
                            (datef (UNIXtime o) "YYYY-MM-DDThh:mm:ssZ") o n)
                         l c).
  { induction l as [|s l IH]; intros c; [reflexivity|].
    cbn [fold_left]. now rewrite script_step_world, IH. }
  now rewrite E.
Qed.

Lemma never_bingo (k : nat) : (micros w2 k >? bingoTime w2) = false.
Proof. specialize (Hnever k). destruct (Z.gtb_spec (micros w2 k) (bingoTime w2)); lia. Qed.

(** With a clock that never passes the end of the time slice, the loop
    does not depend on its fuel, once enough, nor on the count of the
    clock readings. *)
Lemma write_loop_indep (fuel : nat) :
  forall (fuel' k k' : nat) (u : uploader) (o n : IotaLogRecord),
    uploaderBufferLimit - available (reqData u) <= Z.of_nat fuel ->
    uploaderBufferLimit - available (reqData u) <= Z.of_nat fuel' ->
    write_loop w2 cfg fuel k u o n = write_loop w2 cfg fuel' k' u o n.
Proof.
  induction fuel as [|fuel IH]; intros fuel' k k' u o n He He'.
  - destruct fuel' as [|fuel']; [reflexivity|].
    cbn [write_loop].
    destruct (Z.ltb_spec (available (reqData u)) uploaderBufferLimit);
      [lia | reflexivity].
  - destruct fuel' as [|fuel'].
    + cbn [write_loop].
      destruct (Z.ltb_spec (available (reqData u)) uploaderBufferLimit);
        [lia | reflexivity].
    + cbn [write_loop]. rewrite !never_bingo.
      destruct (_ && _); [|reflexivity].
      destruct (deq _ dzero); [reflexivity|].
      destruct (assemble_rows w2 cfg n _ (reqData u)) as [buf|] eqn:Hrows;
        [|reflexivity].
      pose proof (assemble_rows_grows w2 cfg _ _ _ _ Hrows) as Hgrow.
      f_equal. apply IH; cbn [reqData set_lastPost set_reqData]; lia.
Qed.

Lemma write_loop_records (w : world) (fuel : nat) :
  forall (k : nat) (u : uploader) (o n : IotaLogRecord)
         (rc : option (IotaLogRecord * IotaLogRecord)),
    write_loop w cfg fuel k (set_records rc u) o n
    = write_loop w cfg fuel k u o n.
Proof.
  induction fuel as [|fuel IH]; intros k u o n rc; cbn [write_loop];
    change (reqData (set_records rc u)) with (reqData u);
    destruct (_ && _); try reflexivity.
  destruct (_ >? _); [reflexivity|].
  destruct (deq _ dzero); [reflexivity|].
  destruct (assemble_rows w cfg n _ (reqData u)) as [buf|]; [|reflexivity].
  f_equal.
  exact (IH (S k) (set_lastPost (UNIXtime n) (set_reqData buf u)) _ _ rc).
Qed.

(** A loop that gave up its time slice, taken up where it stopped by a
    loop that runs to its end, gives what that loop gives from the
    start. *)
Lemma write_loop_yield (fuel1 : nat) :
  forall (k1 : nat) (u : uploader) (o n : IotaLogRecord) (u1 : uploader)
         (tr1 : list event),
    write_loop w1 cfg fuel1 k1 u o n = Returned u1 10 tr1 ->
    exists o1 n1,
      records u1 = Some (o1, n1) /\
      forall fuel2 k2 fuel2' k2',
        uploaderBufferLimit - available (reqData u) <= Z.of_nat fuel2 ->
        uploaderBufferLimit - available (reqData u1) <= Z.of_nat fuel2' ->
        write_loop w2 cfg fuel2 k2 u o n
        = after tr1 (write_loop w2 cfg fuel2' k2' u1 o1 n1).
Proof.
  induction fuel1 as [|fuel1 IH]; intros k1 u o n u1 tr1 H;
    cbn [write_loop] in H;
    destruct ((available (reqData u) <? uploaderBufferLimit) &&
              (UNIXtime n <? lastKey (Current_log w1))) eqn:Hcond;
    try discriminate.
  destruct (micros w1 k1 >? bingoTime w1).
  { injection H as <- <-. exists o, n. split; [reflexivity|].
    intros fuel2 k2 fuel2' k2' He He'.
    rewrite after_nil, write_loop_records.
    now apply write_loop_indep. }
  destruct (deq (dsub (logHours (readKey (Current_log w1)
                                   (wrap32 (UNIXtime n + _interval cfg))))
                      (logHours n)) dzero) eqn:Hzero.
  { injection H as _ Hr _. exfalso.
    destruct (_ <=? _); [discriminate | contradiction]. }
  destruct (assemble_rows w1 cfg n
              (readKey (Current_log w1) (wrap32 (UNIXtime n + _interval cfg)))
              (reqData u)) as [buf|] eqn:Hrows; [|discriminate].
  destruct (write_loop w1 cfg fuel1 (S k1)
              (set_lastPost (UNIXtime n) (set_reqData buf u)) n
              (readKey (Current_log w1) (wrap32 (UNIXtime n + _interval cfg))))
    as [u0 r0 tr0|u0 tr0| |] eqn:Hin; cbn [after] in H; try discriminate.
  injection H as -> -> <-.
  destruct (IH _ _ _ _ _ _ Hin) as (o1 & n1 & Hrec & Hfor).
  exists o1, n1. split; [exact Hrec|].
  intros fuel2 k2 fuel2' k2' He He'.
  pose proof (assemble_rows_grows w1 cfg _ _ _ _ Hrows) as Hgrow.
  apply andb_prop in Hcond as Hc2. destruct Hc2 as [Hlim _].
  apply Z.ltb_lt in Hlim.
  destruct fuel2 as [|fuel2]; [lia|].
  cbn [write_loop]. rewrite <- Hlog, Hcond, never_bingo, Hzero.
  rewrite <- assemble_rows_world, Hrows.
  rewrite (Hfor fuel2 (S k2) fuel2' k2'); [apply after_app | | exact He'].
  cbn [reqData set_lastPost set_reqData]. lia.
Qed.

End Yield.

Lemma preceded_app (a b : list event) (res : option step) :
  preceded a (preceded b res) = preceded (a ++ b) res.
Proof.
  destruct res as [[[u r] tr]|]; cbn [preceded]; now rewrite ?app_assoc.
Qed.

Lemma with_header_again (cfg : config) (u u1 : uploader) :
  (exists s, reqData u1 = reqData (with_header cfg u) ++ s) ->
  with_header cfg u1 = u1.
Proof.
  intros [s Hs]. unfold with_header at 1.
  destruct (Z.eqb_spec (available (reqData u1)) 0) as [Z1|]; [|reflexivity].
  apply available_zero in Z1. rewrite Z1 in Hs. symmetry in Hs.
  apply empty_append in Hs as [Hs _].
  assert (Hh : _CSVheader cfg = "").
  { unfold with_header in Hs.
    destruct (Z.eqb_spec (available (reqData u)) 0) as [Z0|NZ].
    - cbn [reqData set_reqData] in Hs. now apply empty_append in Hs.
    - exfalso. apply NZ. now rewrite Hs. }
  rewrite Hh. destruct u1. cbn in Z1 |- *. now subst.
Qed.

(** X14.  A call of [handle_write_s] that gave up its time slice loses
    nothing: in a world with the same log and device name whose clock
    never passes the end of the slice, the next call ends as a call
    from the state before would have ended, and the rows and reads of
    the two calls are those of that one call. *)
Theorem yielded_call_resumes {host : Host} (w1 w2 : world) (cfg : config)
  (u u1 : uploader) (tr1 : list event) :
  Current_log w1 = Current_log w2 ->
  deviceName w1 = deviceName w2 ->
  (forall k, micros w2 k <= bingoTime w2) ->
  wrap32 (UTCtime w1 + 1) <> 10 ->
  wrap32 (UTCtime w1 + 5) <> 10 ->
  handle_write_s w1 cfg u = Some (u1, 10, tr1) ->
  handle_write_s w2 cfg u = preceded tr1 (handle_write_s w2 cfg u1).
Proof.
  intros Hlog Hname Hnever Hutc1 Hutc5 Hcall.
  destruct (_stop u) eqn:Hstop.
  { rewrite handle_write_s_shape, Hstop in Hcall. discriminate. }
  destruct (lastKey (Current_log w1) <? dataThreshold cfg u) eqn:Hthr.
  { rewrite handle_write_s_shape, Hstop, Hthr in Hcall.
    injection Hcall as _ Hr _. contradiction. }
  assert (Hthr' := Hthr). apply Z.ltb_ge in Hthr'.
  destruct (handle_write_s_loop w1 cfg u u1 10 tr1 Hcall Hstop Hthr')
    as (o & n & reads & res & Hentry & Hloop & Hout & Hpost).
  destruct res as [u0 r0 tr0|u0 tr0| |]; try contradiction;
    cbn [write_outcome preceded] in Hout.
  2:{ exfalso.
      destruct (available (reqData (set_reqData (reqData u0 ++ nl) u0)) <=? 1);
        cbn [preceded] in Hout; injection Hout as _ Hr _;
        [contradiction | discriminate]. }
  injection Hout as -> -> <-.
  destruct Hpost as (_ & Hls & Hsp & _ & _ & _ & _ & _ & _ & Hext & _).
  destruct (with_header_fields cfg u) as (_ & Hls0 & Hsp0 & _).
  destruct (write_loop_yield w1 w2 cfg Hlog Hname Hnever Hutc1 _ _ _ _ _ _ _
              Hloop) as (o1 & n1 & Hrec & Hfor).
  assert (Hentry2 : entry_records w2 cfg u = (o, n, reads)).
  { rewrite <- Hentry. unfold entry_records. now rewrite Hlog. }
  assert (Hthr1 : dataThreshold cfg u1 = dataThreshold cfg u).
  { unfold dataThreshold. now rewrite Hls, Hls0. }
  rewrite (handle_write_s_shape w2 cfg u), Hstop, <- Hlog, Hthr, Hentry2.
  rewrite (handle_write_s_shape w2 cfg u1), Hsp, Hsp0, Hstop, <- Hlog,
    Hthr1, Hthr.
  unfold entry_records at 1. rewrite Hrec.
  rewrite (with_header_again cfg u u1 Hext), after_nil.
  rewrite write_outcome_after.
  rewrite (Hfor (write_loop_fuel (with_header cfg u)) 0%nat
             (write_loop_fuel u1) 0%nat
             (write_loop_fuel_enough (with_header cfg u))
             (write_loop_fuel_enough u1)).
  rewrite write_outcome_after. apply preceded_app.
Qed.

Lemma yielded_call_resumes_witness :
  exists u1 tr1,
    handle_write_s w_slice cfg1 start = Some (u1, 10, tr1) /\
    handle_write_s w600 cfg1 start = preceded tr1 (handle_write_s w600 cfg1 u1).
Proof.
  eexists. eexists.
  refine ((fun H =>
             conj H (yielded_call_resumes w_slice w600 cfg1 start _ _
                       eq_refl eq_refl _ _ _ H)) _).
  4: vm_compute; reflexivity.
  - intros k. vm_compute. congruence.
  - vm_compute. congruence.
  - vm_compute. congruence.
Defined.

(* ===================================================================== *)
(** ** The timestamps of the record pairs of one call *)
(* ===================================================================== *)

Lemma progression_S (start step : Z) (count : nat) :
  progression start step (S count)
  = start :: progression (start + step) step count.
Proof.
  unfold progression. cbn [seq map]. f_equal; [lia|].
  rewrite <- seq_shift, map_map. apply map_ext. intros i.
  rewrite Nat2Z.inj_succ. ring.
Qed.

Lemma progression_last (start step d : Z) (count : nat) :
  last (progression start step (S count)) d = start + Z.of_nat count * step.
Proof.
  unfold progression. rewrite seq_S, map_app. cbn [map Nat.add].
  apply last_last.
Qed.

Section Progress.
Context {host : Host}.
Variables (w : world) (cfg : config).
Hypothesis Haligned :
  forall key, UNIXtime (readKey (Current_log w) key) = key.
Hypothesis Hinterval : 0 <= _interval cfg.
Hypothesis Hroom : lastKey (Current_log w) + _interval cfg < 2 ^ 32.

Lemma write_loop_rows (fuel : nat) :
  forall (k : nat) (u : uploader) (o n : IotaLogRecord),
    0 <= UNIXtime n ->
    match write_loop w cfg fuel k u o n with
    | Returned _ _ tr | Finished _ tr =>
        row_times tr
        = progression (UNIXtime n) (_interval cfg) (List.length (row_times tr))
    | _ => True
    end.
Proof.
  induction fuel as [|fuel IH]; intros k u o n Hn; cbn [write_loop];
    destruct ((available (reqData u) <? uploaderBufferLimit) &&
              (UNIXtime n <? lastKey (Current_log w))) eqn:Hcond;
    try reflexivity; try exact I.
  apply andb_prop in Hcond as [_ Hkey]. apply Z.ltb_lt in Hkey.
  destruct (micros w k >? bingoTime w); [reflexivity|].
  destruct (deq _ dzero); [reflexivity|].
  destruct (assemble_rows w cfg n _ (reqData u)) as [buf|]; [|exact I].
  assert (Hkey' : UNIXtime (readKey (Current_log w)
                                (wrap32 (UNIXtime n + _interval cfg)))
                  = UNIXtime n + _interval cfg).
  { rewrite Haligned. apply wrap32_small. lia. }
  specialize (IH (S k) (set_lastPost (UNIXtime n) (set_reqData buf u)) n
                 (readKey (Current_log w)
                    (wrap32 (UNIXtime n + _interval cfg)))).
  rewrite Hkey' in IH. specialize (IH ltac:(lia)).
  destruct (write_loop w cfg fuel (S k) _ n _) as [u' r tr|u' tr| |];
    cbn [after app row_times List.length]; try exact I;
    rewrite progression_S; f_equal; exact IH.
Qed.

End Progress.

(** The record pairs of one call and the timestamp it keeps. *)
Lemma handle_write_s_rows {host : Host} (w : world) (cfg : config)
  (u u' : uploader) (r : Z) (tr : list event) :
  (forall key, UNIXtime (readKey (Current_log w) key) = key) ->
  0 <= _interval cfg ->
  lastKey (Current_log w) + _interval cfg < 2 ^ 32 ->
  0 <= call_start cfg u ->
  handle_write_s w cfg u = Some (u', r, tr) ->
  let count := List.length (row_times tr) in
  row_times tr = progression (call_start cfg u) (_interval cfg) count /\
  (count <> 0%nat ->
   _lastPost u'
   = call_start cfg u + (Z.of_nat count - 1) * _interval cfg).
Proof.
  intros Haligned Hinterval Hroom Hstart Hcall count.
  assert (Hrows : row_times tr
                  = progression (call_start cfg u) (_interval cfg) count).
  { subst count.
    destruct (_stop u) eqn:Hstop.
    { rewrite handle_write_s_shape, Hstop in Hcall.
      injection Hcall as _ _ <-. reflexivity. }
    destruct (lastKey (Current_log w) <? dataThreshold cfg u) eqn:Hthr.
    { rewrite handle_write_s_shape, Hstop, Hthr in Hcall.
      injection Hcall as _ _ <-. reflexivity. }
    apply Z.ltb_ge in Hthr.
    destruct (handle_write_s_loop w cfg u u' r tr Hcall Hstop Hthr)
      as (o & n & reads & res & Hentry & Hloop & Hout & Hpost).
    destruct (entry_records_reads w cfg u) as [_ Hrr].
    rewrite Hentry in Hrr. cbn [snd] in Hrr.
    assert (Hn : UNIXtime n = call_start cfg u).
    { unfold entry_records in Hentry. unfold call_start.
      destruct (records u) as [[o0 n0]|];
        injection Hentry as _ <- _; [reflexivity | apply Haligned]. }
    pose proof (write_loop_rows w cfg Haligned Hinterval Hroom
                  (write_loop_fuel (with_header cfg u)) 0
                  (with_header cfg u) o n ltac:(lia)) as Hprog.
    rewrite Hloop, Hn in Hprog.
    destruct res as [u1 r1 tr1|u1 tr1| |]; try contradiction;
      cbn [write_outcome preceded] in Hout.
    - injection Hout as _ _ <-. now rewrite row_times_app, Hrr.
    - destruct (available (reqData (set_reqData (reqData u1 ++ nl) u1)) <=? 1);
        cbn [preceded] in Hout; injection Hout as _ _ <-;
        rewrite ?row_times_app, Hrr; cbn [app row_times];
        rewrite ?app_nil_r; exact Hprog. }
  split; [exact Hrows|].
  intros Hcount.
  destruct (handle_write_s_post w cfg u u' r tr Hcall) as (_ & _ & Hlp & _).
  rewrite Hlp, Hrows.
  destruct count as [|c]; [contradiction|].
  rewrite progression_last. lia.
Qed.

(** X15.  On a log that answers every key with the record of that key,
    the record pairs one call of [handle_write_s] assembles rows for
    are one interval apart, the first at the key the call starts from:
    the first key after the watermark for a fresh batch, the newer
    record of the pair kept by a call that gave up its time slice.
    [row_times] has the timestamp of each such pair once; the rows of a
    pair, one for each sensor, all carry it.  The timestamp of the last
    pair is kept in [_lastPost]: with [count] pairs it is the start key
    and [count - 1] intervals. *)
Theorem pairs_are_one_interval_apart {host : Host} (w : world) (cfg : config)
  (u u' : uploader) (r : Z) (tr : list event) :
  (forall key, UNIXtime (readKey (Current_log w) key) = key) ->
  0 <= _interval cfg ->
  lastKey (Current_log w) + _interval cfg < 2 ^ 32 ->
  0 <= call_start cfg u ->
  handle_write_s w cfg u = Some (u', r, tr) ->
  let count := List.length (row_times tr) in
  row_times tr = progression (call_start cfg u) (_interval cfg) count /\
  (count <> 0%nat ->
   _lastPost u'
   = call_start cfg u + (Z.of_nat count - 1) * _interval cfg).
Proof.
  intros Haligned Hinterval Hroom Hstart Hcall.
  exact (handle_write_s_rows w cfg u u' r tr Haligned Hinterval Hroom Hstart
           Hcall).
Qed.

(** The theorem with two sensors on the log from 0 to 600: nine record
    pairs, 60 apart, and two rows for each (the line feeds of the
    payload are those before its 18 rows and the one that ends it). *)
Lemma pairs_are_one_interval_apart_witness :
  exists u1 tr,
    handle_write_s w600 cfgAB start = Some (u1, 1, tr) /\
    row_times tr
    = progression (call_start cfgAB start) (_interval cfgAB)
                  (List.length (row_times tr)) /\
    List.length (row_times tr) = 9%nat /\
    row_count (reqData u1) = 19%nat.
Proof.
  eexists. eexists.
  split; [vm_compute; reflexivity|].
  split; [|vm_compute; split; reflexivity].
  refine (proj1 (pairs_are_one_interval_apart w600 cfgAB start _ 1 _
                   (fun key => eq_refl) _ _ _ _)).
  - vm_compute. congruence.
  - vm_compute. reflexivity.
  - vm_compute. congruence.
  - vm_compute. reflexivity.
Defined.

(* ===================================================================== *)
(** ** The rows of a record pair *)
(* ===================================================================== *)

Section RowShape.
Context {host : Host}.
Variables (w : world) (cfg : config).
Variables (o n : IotaLogRecord) (ts : string).

Lemma nulls_app (p q i : nat) :
  nulls (_unit_active cfg) (p + q) i
  = nulls (_unit_active cfg) p i ++ nulls (_unit_active cfg) q (i + p).
Proof.
  revert i. induction p as [|p IH]; intros i.
  - cbn [Nat.add nulls append]. now rewrite Nat.add_0_r.
  - cbn [Nat.add nulls]. rewrite IH, append_assoc.
    now rewrite Nat.add_succ_r.
Qed.

Lemma nulls_none (p i : nat) :
  (forall j, (i <= j < i + p)%nat -> nth j (_unit_active cfg) false = false) ->
  nulls (_unit_active cfg) p i = "".
Proof.
  revert i. induction p as [|p IH]; intros i H; [reflexivity|].
  cbn [nulls]. rewrite (H i) by lia. apply IH. intros j Hj. apply H. lia.
Qed.

Lemma fill_nulls_split (buf : string) (i bound top : nat) :
  (i <= bound <= top)%nat ->
  fst (fill_nulls cfg buf i top)
  = fst (fill_nulls cfg buf i bound)
    ++ nulls (_unit_active cfg) (top - bound) bound.
Proof.
  intros H. rewrite !fill_nulls_eq. cbn [fst].
  replace (top - i)%nat with ((bound - i) + (top - bound))%nat by lia.
  rewrite nulls_app, append_assoc.
  now replace (i + (bound - i))%nat with bound by lia.
Qed.

Lemma fold_all_nan (scripts : list Script) (c : cursor) :
  (forall s, In s scripts -> deq (run s o n) (run s o n) = false) ->
  fold_left (script_step w cfg ts o n) scripts c = c.
Proof.
  revert c. induction scripts as [|s scripts IH]; intros c H; [reflexivity|].
  cbn [fold_left]. rewrite script_step_nan by (apply H; now left).
  apply IH. intros s' Hs'. apply H. now right.
Qed.

(** The scripts of one sensor, their units going up, each with its
    column active: every script adds its column, a number or NULL. *)
Lemma fold_one_sensor (sensor : string) (scripts : list Script) :
  forall (c : cursor) (bound : nat),
    c_sensor c = sensor ->
    (c_unitIndex c <= bound <= unitsCount)%nat ->
    (forall s, In s scripts ->
       name s = sensor /\ (bound <= getUnitsEnum s < unitsCount)%nat /\
       nth (getUnitsEnum s) (_unit_active cfg) false = true) ->
    StronglySorted unit_lt scripts ->
    (forall j, (bound <= j)%nat -> nth j (_unit_active cfg) false = true ->
               exists s, In s scripts /\ getUnitsEnum s = j) ->
    let c' := fold_left (script_step w cfg ts o n) scripts c in
    fst (fill_nulls cfg (c_buf c') (c_unitIndex c') unitsCount)
    = fst (fill_nulls cfg (c_buf c) (c_unitIndex c) bound) ++ cells o n scripts.
Proof.
  induction scripts as [|s scripts IH];
    intros c bound Hsensor Hbound Hin Hsorted Hactive; cbn [fold_left].
  - cbv zeta. unfold cells. cbn [map concat_text].
    rewrite (fill_nulls_split _ _ bound unitsCount) by lia.
    f_equal. apply nulls_none. intros j Hj.
    destruct (nth j (_unit_active cfg) false) eqn:E; [|reflexivity].
    destruct (Hactive j ltac:(lia) E) as (s & [] & _).
  - destruct (Hin s (or_introl eq_refl)) as (Hname & Hunit & Hon).
    apply StronglySorted_inv in Hsorted as [Hsorted Hlt].
    rewrite Forall_forall in Hlt. unfold unit_lt in Hlt.
    assert (Hgap : nulls (_unit_active cfg) (getUnitsEnum s - bound) bound
                   = "").
    { apply nulls_none. intros j Hj.
      destruct (nth j (_unit_active cfg) false) eqn:E; [|reflexivity].
      destruct (Hactive j ltac:(lia) E) as (s' & [<-|Hs'] & Hj');
        [lia | specialize (Hlt s' Hs'); lia]. }
    assert (Hin' : forall s', In s' scripts ->
              name s' = sensor /\
              (S (getUnitsEnum s) <= getUnitsEnum s' < unitsCount)%nat /\
              nth (getUnitsEnum s') (_unit_active cfg) false = true).
    { intros s' Hs'. destruct (Hin s' (or_intror Hs')) as (A & B & C).
      specialize (Hlt s' Hs'). repeat split; try assumption; lia. }
    assert (Hactive' : forall j, (S (getUnitsEnum s) <= j)%nat ->
              nth j (_unit_active cfg) false = true ->
              exists s', In s' scripts /\ getUnitsEnum s' = j).
    { intros j Hj E.
      destruct (Hactive j ltac:(lia) E) as (s' & [<-|Hs'] & Hj');
        [lia | now exists s']. }
    unfold cells. cbn [map concat_text]. fold (cells o n scripts).
    unfold column at 1.
    destruct (deq (run s o n) (run s o n)) eqn:Hvalue.
    + assert (Hstep : script_step w cfg ts o n c s
                      = mkCursor
                          (fst (fill_nulls cfg (c_buf c) (c_unitIndex c)
                                  (getUnitsEnum s))
                           ++ "," ++ printf_f (precision s) (run s o n))
                          sensor (S (getUnitsEnum s))).
      { unfold script_step. rewrite Hvalue, Hsensor, Hname, String.eqb_refl.
        cbn [negb]. rewrite fill_nulls_eq. cbn [fst].
        replace (c_unitIndex c + (getUnitsEnum s - c_unitIndex c))%nat
          with (getUnitsEnum s) by lia.
        rewrite Nat.eqb_refl.
        now rewrite Hsensor. }
      rewrite Hstep.
      rewrite (IH _ (S (getUnitsEnum s))); cbn [c_sensor c_unitIndex c_buf];
        try assumption; try reflexivity; try lia.
      rewrite (fill_nulls_eq cfg _ (S (getUnitsEnum s))), Nat.sub_diag.
      cbn [fst nulls]. rewrite append_nil_r.
      rewrite (fill_nulls_split _ _ bound (getUnitsEnum s)) by lia.
      rewrite Hgap, append_nil_r. now rewrite !append_assoc.
    + rewrite script_step_nan by exact Hvalue.
      rewrite (IH c (S (getUnitsEnum s))); try assumption; try lia.
      rewrite (fill_nulls_split _ _ (getUnitsEnum s) (S (getUnitsEnum s)))
        by lia.
      rewrite (fill_nulls_split _ _ bound (getUnitsEnum s)) by lia.
      rewrite Hgap, append_nil_r.
      replace (S (getUnitsEnum s) - getUnitsEnum s)%nat with 1%nat by lia.
      cbn [nulls]. rewrite Hon. now rewrite !append_assoc.
Qed.

End RowShape.

(** X16.  A record pair for which no script has a value still gives a
    row: the row of the first sensor, with NULL in every unit column. *)
Theorem pair_without_values_gives_null_row {host : Host} (w : world)
  (cfg : config) (o n : IotaLogRecord) (buf : string) (s0 : Script)
  (rest : list Script) :
  _outputs cfg = s0 :: rest ->
  (forall s, In s (_outputs cfg) -> deq (run s o n) (run s o n) = false) ->
  assemble_rows w cfg o n buf
  = Some (buf ++
          row_start w cfg (datef (UNIXtime o) "YYYY-MM-DDThh:mm:ssZ")
                    (name s0) ++
          nulls (_unit_active cfg) unitsCount 0).
Proof.
  intros Hout Hnan. unfold assemble_rows.
  rewrite Hout in Hnan |- *. cbv zeta.
  rewrite fold_all_nan by exact Hnan.
  cbn [c_buf c_unitIndex].
  rewrite fill_nulls_eq, Nat.sub_0_r. cbn [fst].
  now rewrite append_assoc.
Qed.

(** X17.  With the scripts of one sensor, their units going up as the
    sort of [configCB] leaves them, and the unit columns [configCB]
    computes from them, a record pair gives one row: the timestamp, the
    device, the sensor, and one column for each script in the order of
    the list, the number where the script has a value and NULL where it
    has none.  No other NULL is added. *)
Theorem one_sensor_row {host : Host} (w : world) (cfg : config)
  (o n : IotaLogRecord) (buf : string) (s0 : Script) (rest : list Script) :
  _outputs cfg = s0 :: rest ->
  (forall s, In s (_outputs cfg) ->
     name s = name s0 /\ (getUnitsEnum s < unitsCount)%nat) ->
  StronglySorted unit_lt (_outputs cfg) ->
  _unit_active cfg = configCB_units (_outputs cfg) ->
  assemble_rows w cfg o n buf
  = Some (buf ++
          row_start w cfg (datef (UNIXtime o) "YYYY-MM-DDThh:mm:ssZ")
                    (name s0) ++
          cells o n (_outputs cfg)).
Proof.
  intros Hout Hin Hsorted Hactive. unfold assemble_rows.
  pose proof (fold_one_sensor w cfg o n
                (datef (UNIXtime o) "YYYY-MM-DDThh:mm:ssZ") (name s0)
                (_outputs cfg)
                (mkCursor
                   (buf ++ row_start w cfg
                      (datef (UNIXtime o) "YYYY-MM-DDThh:mm:ssZ") (name s0))
                   (name s0) 0) 0%nat eq_refl) as H.
  cbn [c_unitIndex c_buf] in H.
  assert (Hcount : (0 <= 0 <= unitsCount)%nat) by lia.
  specialize (H Hcount). clear Hcount.
  assert (Hon : forall i, nth i (_unit_active cfg) false = true <->
                  (i < unitsCount)%nat /\
                  exists s, In s (_outputs cfg) /\ getUnitsEnum s = i).
  { intros i. rewrite Hactive, configCB_units_nth, andb_true_iff,
      existsb_exists, Nat.ltb_lt.
    split.
    - intros [(s & Hs & E) Hlt]. apply Nat.eqb_eq in E. eauto.
    - intros [Hlt (s & Hs & E)]. split; [|exact Hlt].
      exists s. split; [exact Hs | now apply Nat.eqb_eq]. }
  assert (H1 : forall s, In s (_outputs cfg) ->
             name s = name s0 /\
             (0 <= getUnitsEnum s < unitsCount)%nat /\
             nth (getUnitsEnum s) (_unit_active cfg) false = true).
  { intros s Hs. destruct (Hin s Hs) as [A B].
    repeat split; try assumption; try lia.
    apply Hon. split; [exact B | now exists s]. }
  assert (H2 : forall j, (0 <= j)%nat ->
             nth j (_unit_active cfg) false = true ->
             exists s, In s (_outputs cfg) /\ getUnitsEnum s = j).
  { intros j _ E. now apply Hon in E. }
  specialize (H H1 Hsorted H2). cbv zeta in H.
  rewrite Hout in H |- *. cbv zeta. rewrite H.
  rewrite fill_nulls_eq. cbn [fst nulls Nat.sub].
  now rewrite append_nil_r, append_assoc.
Qed.

Lemma pair_without_values_gives_null_row_witness :
  assemble_rows w600 (config_of sensors_nan 60 1 0)
    (readKey (Current_log w600) 60) (readKey (Current_log w600) 120) ""
  = Some (nl ++ "1970-01-01T00:01:00Z,iotawatt,A,NULL,NULL").
Proof.
  refine (eq_trans
            (pair_without_values_gives_null_row w600
               (config_of sensors_nan 60 1 0)
               (readKey (Current_log w600) 60)
               (readKey (Current_log w600) 120) ""
               (reading "A" 0 1) [reading "B" 1 1] eq_refl _) _).
  - intros s [<-|[<-|[]]]; reflexivity.
  - vm_compute. reflexivity.
Defined.

Lemma one_sensor_row_witness :
  assemble_rows w600 (config_of one_sensor 60 1 0)
    (readKey (Current_log w600) 60) (readKey (Current_log w600) 120) ""
  = Some (nl ++ "1970-01-01T00:01:00Z,iotawatt,main,2.0,NULL,7.0").
Proof.
  refine (eq_trans
            (one_sensor_row w600 (config_of one_sensor 60 1 0)
               (readKey (Current_log w600) 60)
               (readKey (Current_log w600) 120) ""
               (reading "main" 0 0)
               [reading "main" 1 1; reading "main" 6 2] eq_refl _ _ eq_refl)
            _).
  - intros s [<-|[<-|[<-|[]]]]; split; try reflexivity; vm_compute; lia.
  - repeat constructor.
  - vm_compute. reflexivity.
Defined.

(* ===================================================================== *)
(** ** A batch and its settle step together *)
(* ===================================================================== *)

(** X18.  A fresh batch that one call assembles and submits, answered
    with status 201, moves the watermark forward by one interval for
    each record pair of the batch, however many rows (one for each
    sensor) a pair gave, on a log that answers every key with the record
    of that key. *)
Theorem watermark_advances_by_pairs {host : Host} (w w' : world)
  (cfg : config) (u u' : uploader) (r : Z) (tr : list event)
  (request : asyncHTTPrequest) :
  (forall key, UNIXtime (readKey (Current_log w) key) = key) ->
  0 <= _interval cfg ->
  lastKey (Current_log w) + _interval cfg < 2 ^ 32 ->
  0 <= _lastSent u -> _lastSent u + _interval cfg < 2 ^ 32 ->
  records u = None ->
  handle_write_s w cfg u = Some (u', r, tr) ->
  row_times tr <> [] ->
  readyState request = 4 ->
  responseHTTPcode request = 201 ->
  _lastSent (fst (fst (handle_checkWrite_s w'
                         (set_request (Some request) u'))))
  = _lastSent u + Z.of_nat (List.length (row_times tr)) * _interval cfg.
Proof.
  intros Haligned Hinterval Hroom Hls0 Hls1 Hfresh Hcall Hrows Hready Hcode.
  assert (Hstart : call_start cfg u = _lastSent u + _interval cfg).
  { unfold call_start, first_key. rewrite Hfresh. apply wrap32_small. lia. }
  destruct (handle_write_s_rows w cfg u u' r tr Haligned Hinterval Hroom
              ltac:(lia) Hcall) as [_ Hlp].
  assert (Hcount : List.length (row_times tr) <> 0%nat).
  { destruct (row_times tr); [contradiction | discriminate]. }
  specialize (Hlp Hcount).
  unfold handle_checkWrite_s.
  cbn [_request set_state set_request set_reqData _state _lastSent _lastPost
       _stop _statusMessage records reqData].
  rewrite Hready, Hcode. cbn [Z.eqb Pos.eqb negb].
  cbn [fst set_lastSent set_state set_statusMessage set_request set_reqData
       _state _lastSent _lastPost _stop _request _statusMessage records
       reqData].
  rewrite Hlp, Hstart. lia.
Qed.

(** The theorem with two sensors on the log from 0 to 600: the batch
    has nine record pairs and 18 rows, and the watermark moves by nine
    intervals, from 0 to 540. *)
Lemma watermark_advances_by_pairs_witness :
  exists u1 tr,
    handle_write_s w600 cfgAB start = Some (u1, 1, tr) /\
    _lastSent (fst (fst (handle_checkWrite_s w600
                           (set_request (response 201 "") u1))))
    = _lastSent start
      + Z.of_nat (List.length (row_times tr)) * _interval cfgAB /\
    List.length (row_times tr) = 9%nat /\
    row_count (reqData u1) = 19%nat.
Proof.
  eexists. eexists.
  split; [vm_compute; reflexivity|].
  split; [|vm_compute; split; reflexivity].
  refine (watermark_advances_by_pairs w600 w600 cfgAB start _ 1 _
            (mkRequest 4 201 "")
            (fun key => eq_refl) _ _ _ _ eq_refl _ _ eq_refl eq_refl).
  - vm_compute. congruence.
  - vm_compute. reflexivity.
  - vm_compute. congruence.
  - vm_compute. reflexivity.
  - vm_compute. reflexivity.
  - vm_compute. congruence.
Defined.

(* ===================================================================== *)
(** ** How far a batch goes *)
(* ===================================================================== *)

Section Complete.
Context {host : Host}.
Variables (w : world) (cfg : config) (start : Z).
Hypothesis Haligned :
  forall key, UNIXtime (readKey (Current_log w) key) = key.
Hypothesis Hinterval : 0 <= _interval cfg.
Hypothesis Hroom : lastKey (Current_log w) + _interval cfg < 2 ^ 32.
Hypothesis Hclock : forall k, micros w k <= bingoTime w.
Hypothesis Hstart : 0 <= start.
Hypothesis Helapsed :
  forall j : nat,
    start + Z.of_nat j * _interval cfg < lastKey (Current_log w) ->
    deq (dsub (logHours (readKey (Current_log w)
                           (start + Z.of_nat (S j) * _interval cfg)))
              (logHours (readKey (Current_log w)
                           (start + Z.of_nat j * _interval cfg))))
        dzero = false.

Lemma write_loop_runs (fuel : nat) :
  forall (k : nat) (u : uploader) (o : IotaLogRecord) (j : nat),
    uploaderBufferLimit - available (reqData u) <= Z.of_nat fuel ->
    match write_loop w cfg fuel k u o
            (readKey (Current_log w) (start + Z.of_nat j * _interval cfg))
    with
    | Finished u1 tr =>
        uploaderBufferLimit <= available (reqData u1) \/
        lastKey (Current_log w)
        <= start + Z.of_nat (j + List.length (row_times tr)) * _interval cfg
    | Returned _ _ _ => False
    | Crashed => True
    | OutOfFuel => False
    end.
Proof.
  induction fuel as [|fuel IH]; intros k u o j Hfuel; cbn [write_loop];
    rewrite Haligned;
    destruct (Z.ltb_spec (available (reqData u)) uploaderBufferLimit)
      as [Hlim|Hlim];
    destruct (Z.ltb_spec (start + Z.of_nat j * _interval cfg)
                (lastKey (Current_log w))) as [Hkey|Hkey];
    cbn [andb reqData set_records row_times List.length];
    rewrite ?Nat.add_0_r; try lia.
  rewrite (never_bingo w Hclock).
  assert (Hnext : wrap32 (start + Z.of_nat j * _interval cfg + _interval cfg)
                  = start + Z.of_nat (S j) * _interval cfg).
  { rewrite wrap32_small; [rewrite Nat2Z.inj_succ; ring|]. nia. }
  rewrite Hnext, (Helapsed j Hkey).
  destruct (assemble_rows w cfg _ _ (reqData u)) as [buf|] eqn:Hrows;
    [|exact I].
  pose proof (assemble_rows_grows w cfg _ _ _ _ Hrows) as Hgrow.
  specialize (IH (S k)
                 (set_lastPost (start + Z.of_nat j * _interval cfg)
                    (set_reqData buf u))
                 (readKey (Current_log w)
                    (start + Z.of_nat j * _interval cfg)) (S j)).
  cbn [reqData set_lastPost set_reqData] in IH. specialize (IH ltac:(lia)).
  destruct (write_loop w cfg fuel (S k) _ _ _) as [u1 r1 tr1|u1 tr1| |];
    cbn [after app row_times List.length]; try exact IH.
  now rewrite Nat.add_succ_r.
Qed.

End Complete.

(** X19.  A fresh batch goes as far as it can: on a log that answers
    every key with the record of that key and whose hours go on from
    record to record, with a clock that stays within the time slice, a
    call of [handle_write_s] that passed the two gates keeps no record
    pair for a next call, and it ends either with more in the buffer
    than the buffer limit or with a row for every key from the first
    key after the watermark up to the last key of the log. *)
Theorem batch_goes_to_the_last_key {host : Host} (w : world) (cfg : config)
  (u u' : uploader) (r : Z) (tr : list event) :
  (forall key, UNIXtime (readKey (Current_log w) key) = key) ->
  0 <= _interval cfg ->
  lastKey (Current_log w) + _interval cfg < 2 ^ 32 ->
  (forall k, micros w k <= bingoTime w) ->
  (forall j : nat,
     first_key cfg u + Z.of_nat j * _interval cfg < lastKey (Current_log w) ->
     deq (dsub (logHours (readKey (Current_log w)
                            (first_key cfg u
                             + Z.of_nat (S j) * _interval cfg)))
               (logHours (readKey (Current_log w)
                            (first_key cfg u
                             + Z.of_nat j * _interval cfg))))
         dzero = false) ->
  0 < uploaderBufferLimit ->
  _stop u = false ->
  dataThreshold cfg u <= lastKey (Current_log w) ->
  records u = None ->
  handle_write_s w cfg u = Some (u', r, tr) ->
  records u' = None /\
  (uploaderBufferLimit < available (reqData u') \/
   lastKey (Current_log w)
   <= first_key cfg u
      + Z.of_nat (List.length (row_times tr)) * _interval cfg).
Proof.
  intros Haligned Hinterval Hroom Hclock Helapsed Hlimit Hstop Hthr Hfresh
         Hcall.
  destruct (handle_write_s_loop w cfg u u' r tr Hcall Hstop Hthr)
    as (o & n & reads & res & Hentry & Hloop & Hout & _).
  unfold entry_records in Hentry. rewrite Hfresh in Hentry.
  injection Hentry as <- <- <-.
  assert (Hfirst : 0 <= first_key cfg u) by apply wrap32_range.
  pose proof (write_loop_runs w cfg (first_key cfg u) Haligned Hinterval
                Hroom Hclock Hfirst Helapsed
                (write_loop_fuel (with_header cfg u)) 0%nat
                (with_header cfg u) IotaLogRecord_new 0%nat
                (write_loop_fuel_enough (with_header cfg u))) as Hruns.
  cbn [Z.of_nat Z.mul Nat.add] in Hruns. rewrite Z.add_0_r, Hloop in Hruns.
  destruct res as [u1 r1 tr1|u1 tr1| |]; try contradiction;
    cbn [write_outcome preceded] in Hout; [|discriminate].
  destruct (Z.leb_spec
              (available (reqData (set_reqData (reqData u1 ++ nl) u1))) 1)
    as [Hle|Hgt];
    cbn [preceded] in Hout; injection Hout as <- <- <-;
    cbn [records reqData set_records set_reqData] in *;
    (split; [reflexivity|]);
    cbn [app row_times]; rewrite ?row_times_app; cbn [app row_times];
    rewrite ?app_nil_r;
    rewrite available_append in *;
    change (available nl) with 1 in *;
    pose proof (available_nonneg (reqData u1));
    destruct Hruns as [Hfull|Hend]; try (right; exact Hend);
    try (left; lia); exfalso; lia.
Qed.

Lemma batch_goes_to_the_last_key_witness :
  exists u1 tr,
    handle_write_s w600 cfg1 start = Some (u1, 1, tr) /\
    records u1 = None /\
    (uploaderBufferLimit < available (reqData u1) \/
     lastKey (Current_log w600)
     <= first_key cfg1 start
        + Z.of_nat (List.length (row_times tr)) * _interval cfg1).
Proof.
  eexists. eexists.
  refine ((fun H =>
             conj H (batch_goes_to_the_last_key w600 cfg1 start _ 1 _
                       (fun key => eq_refl) _ _ _ _ eq_refl eq_refl _
                       eq_refl H)) _).
  6: vm_compute; reflexivity.
  - vm_compute. congruence.
  - vm_compute. reflexivity.
  - intros k. vm_compute. congruence.
  - intros j Hj.
    do 9 (destruct j as [|j]; [vm_compute; reflexivity|]).
    exfalso. change (first_key cfg1 start) with 60 in Hj.
    change (_interval cfg1) with 60 in Hj.
    change (lastKey (Current_log w600)) with 600 in Hj. lia.
  - vm_compute. congruence.
Defined.
